(** * The protocol bridge of the MCP framework: transport client and model bridge

    A shallow embedding of [MCPClient] (mcp-client.ts), [ModelBridge]
    (model-bridge.ts) and the [what_tools] / [use_tool] paths of
    [SimplifiedMCPServer] (simplified-server.ts), with the properties the
    specification states about them and further properties of the code.

    Conventions of the embedding.
    - Text is a [string] over the code units U+0000..U+00FF; the JavaScript
      string methods are written out on that alphabet.
    - A value that went through [JSON.parse] is a [JSON] tree; [undefined] is
      [None] of [option JSON].
    - A promise is a handle; every call of one of its [resolve] / [reject]
      functions is appended to a log, so that settling twice is visible.
    - [pendingRequests] and [usageExamples] are only looked up, inserted into
      and deleted from, and are finite maps; [toolCache] is iterated, and
      keeps the insertion order of a JavaScript [Map]. *)

From Stdlib Require Import ZArith List String Ascii Bool Lia Permutation Sorted.
From stdpp Require Import gmap strings.

Import ListNotations.
Local Open Scope string_scope.
Local Open Scope list_scope.
Local Open Scope Z_scope.

(** ** JavaScript text *)

Module JSText.

Definition code (c : ascii) : N := N_of_ascii c.

(** The newline the transport splits on, and the two characters a string
    literal of this file cannot hold. *)
Definition LF : ascii := ascii_of_N 10.
Definition DQUOTE : ascii := ascii_of_N 34.
Definition BACKSLASH : ascii := ascii_of_N 92.

(** Wire text is written here with apostrophes where the wire has double
    quotes: [wire "{'id':1}"] is the seven characters of the frame. *)
Fixpoint wire (s : string) : string :=
  match s with
  | EmptyString => EmptyString
  | String c r => String (if Ascii.eqb c "'" then DQUOTE else c) (wire r)
  end.

(** White space removed by [String.prototype.trim], within U+0000..U+00FF:
    TAB, LF, VT, FF, CR, SP and NBSP. *)
Definition is_white_space (c : ascii) : bool :=
  let n := code c in
  ((9 <=? n) && (n <=? 13) || (n =? 32) || (n =? 160))%N.

Fixpoint trimStart (s : string) : string :=
  match s with
  | EmptyString => EmptyString
  | String c r => if is_white_space c then trimStart r else s
  end.

Fixpoint rev_string (s acc : string) : string :=
  match s with
  | EmptyString => acc
  | String c r => rev_string r (String c acc)
  end.

Definition trimEnd (s : string) : string :=
  rev_string (trimStart (rev_string s EmptyString)) EmptyString.

Definition trim (s : string) : string := trimEnd (trimStart s).

(** Truthiness of a string: every string but the empty one. *)
Definition truthy (s : string) : bool :=
  match s with EmptyString => false | String _ _ => true end.

(** [s.split(sep)] for a one-unit separator: never the empty list. *)
Fixpoint split (sep : ascii) (s : string) : list string :=
  match s with
  | EmptyString => [EmptyString]
  | String c r =>
      if Ascii.eqb c sep then EmptyString :: split sep r
      else match split sep r with
           | h :: t => String c h :: t
           | [] => [String c EmptyString]
           end
  end.

(** [toLowerCase] on one code unit: A..Z and the capital letters of
    U+00C0..U+00DE (all but the multiplication sign U+00D7) move up by 32. *)
Definition lower_unit (c : ascii) : ascii :=
  let n := code c in
  if ((65 <=? n) && (n <=? 90)
      || (192 <=? n) && (n <=? 222) && negb (n =? 215))%N
  then ascii_of_N (n + 32) else c.

Fixpoint toLowerCase (s : string) : string :=
  match s with
  | EmptyString => EmptyString
  | String c r => String (lower_unit c) (toLowerCase r)
  end.

Fixpoint startsWith (s p : string) : bool :=
  match p, s with
  | EmptyString, _ => true
  | String _ _, EmptyString => false
  | String a p', String b s' => Ascii.eqb a b && startsWith s' p'
  end.

(** [s.includes(sub)]: [sub] occurs in [s] as a contiguous run. *)
Fixpoint includes (s sub : string) : bool :=
  startsWith s sub ||
  match s with
  | EmptyString => false
  | String _ r => includes r sub
  end.

(** Whether the unit [u] occurs in [s]. *)
Fixpoint has_unit (u : ascii) (s : string) : bool :=
  match s with
  | EmptyString => false
  | String c r => Ascii.eqb c u || has_unit u r
  end.

(** [parts.join(sep)]. *)
Fixpoint join (sep : string) (parts : list string) : string :=
  match parts with
  | [] => EmptyString
  | [p] => p
  | p :: rest => p +:+ sep +:+ join sep rest
  end.

(** Decimal text of an integer, as a template literal prints it. *)
Definition digit_char (d : Z) : ascii := ascii_of_N (48 + Z.to_N d).

Fixpoint decimal_digits (fuel : nat) (n : Z) (acc : string) : string :=
  match fuel with
  | O => acc
  | S fuel' =>
      let acc' := String (digit_char (n mod 10)) acc in
      if n <? 10 then acc' else decimal_digits fuel' (n / 10) acc'
  end.

Definition decimal_of_nonneg (n : Z) : string :=
  decimal_digits (S (Z.to_nat (Z.log2 n))) n EmptyString.

Definition decimal (n : Z) : string :=
  if n <? 0 then String "-" (decimal_of_nonneg (- n)) else decimal_of_nonneg n.

End JSText.

(** ** Values read from the wire *)

Module JSValue.

(** What [JSON.parse] can return. A number is the exact decimal
    [m * 10^e] its literal denotes (the rounding to a double is not
    modelled: it is the identity on every integer below 2^53). *)
#[warnings="-register-all"] Inductive JSON :=
| JNull
| JBool (b : bool)
| JNum (m e : Z)
| JStr (s : string)
| JArr (items : list JSON)
| JObj (props : list (string * JSON)).

(** Whatever a [throw] or a [reject] carries: an [Error] instance with its
    [name] and [message], or any other value. *)
Inductive Thrown :=
| ErrorObject (name message : string)
| NotAnError (v : option JSON).

Definition Error (message : string) : Thrown := ErrorObject "Error" message.
Definition TypeError (message : string) : Thrown := ErrorObject "TypeError" message.
Definition SyntaxError (message : string) : Thrown := ErrorObject "SyntaxError" message.

(** The outcome of a computation that may throw. *)
Inductive Result (A : Type) :=
| Ok (a : A)
| Throw (e : Thrown).
Arguments Ok {A} a.
Arguments Throw {A} e.

(** The integer a number denotes, when it denotes one. *)
Definition integer_of (m e : Z) : option Z :=
  if 0 <=? e then Some (m * 10 ^ e)
  else if m mod 10 ^ (- e) =? 0 then Some (m / 10 ^ (- e)) else None.

(** [v] as the key of a [Map<number, _>] whose keys are integers:
    only a number is ever equal to one of them. *)
Definition number_key (v : option JSON) : option Z :=
  match v with
  | Some (JNum m e) => integer_of m e
  | _ => None
  end.

(** ToBoolean. *)
Definition truthy (v : option JSON) : bool :=
  match v with
  | None | Some JNull => false
  | Some (JBool b) => b
  | Some (JNum m _) => negb (m =? 0)
  | Some (JStr s) => JSText.truthy s
  | Some (JArr _) | Some (JObj _) => true
  end.

(** [a || b]. *)
Definition or_else (a b : option JSON) : option JSON :=
  if truthy a then a else b.

Fixpoint assoc (k : string) (props : list (string * JSON)) : option JSON :=
  match props with
  | [] => None
  | (k', v) :: rest => if String.eqb k k' then Some v else assoc k rest
  end.

(** [v.k] for the property names the program reads ([id], [error],
    [result], [message], [content], [isError], [examples], [relatedTools],
    [category]): none of them exists on a primitive or on an array, and
    reading a property of [null] or [undefined] throws. *)
Definition get (v : option JSON) (k : string) : Result (option JSON) :=
  match v with
  | None =>
      Throw (TypeError ("Cannot read properties of undefined (reading '" +:+ k +:+ "')"))
  | Some JNull =>
      Throw (TypeError ("Cannot read properties of null (reading '" +:+ k +:+ "')"))
  | Some (JObj props) => Ok (assoc k props)
  | Some _ => Ok None
  end.

(** Number to text, for a number that prints without an exponent. *)
Fixpoint strip_zeros (fuel : nat) (m e : Z) : Z * Z :=
  match fuel with
  | O => (m, e)
  | S fuel' =>
      if (e <? 0) && (m mod 10 =? 0) && negb (m =? 0)
      then strip_zeros fuel' (m / 10) (e + 1) else (m, e)
  end.

Fixpoint pad_left (width : nat) (s : string) : string :=
  match Nat.ltb (String.length s) width, width with
  | true, S w => pad_left w (String "0" s)
  | _, _ => s
  end.

Definition Number_toString (m e : Z) : string :=
  if m =? 0 then "0" else
  let '(m', e') := strip_zeros (Z.to_nat (- e)) m e in
  if 0 <=? e' then JSText.decimal (m' * 10 ^ e')
  else
    let k := 10 ^ (- e') in
    (if m' <? 0 then "-" else "") +:+
    JSText.decimal (Z.abs m' / k) +:+ "." +:+
    pad_left (Z.to_nat (- e')) (JSText.decimal (Z.abs m' mod k)).

(** ToString, as [new Error(v)] and a template literal apply it. *)
Fixpoint ToString (v : JSON) : string :=
  match v with
  | JNull => "null"
  | JBool true => "true"
  | JBool false => "false"
  | JNum m e => Number_toString m e
  | JStr s => s
  | JArr items =>
      JSText.join ","
        ((fix each (l : list JSON) : list string :=
            match l with
            | [] => []
            | JNull :: r => "" :: each r
            | x :: r => ToString x :: each r
            end) items)
  | JObj _ => "[object Object]"
  end.

(** [e instanceof Error ? e.message : fallback]. *)
Definition message_or (e : Thrown) (fallback : string) : string :=
  match e with
  | ErrorObject _ msg => msg
  | NotAnError _ => fallback
  end.

(** *** [JSON.parse] *)

Definition is_json_space (c : ascii) : bool :=
  let n := JSText.code c in ((n =? 32) || (n =? 9) || (n =? 10) || (n =? 13))%N.

Fixpoint skip_ws (s : string) : string :=
  match s with
  | String c r => if is_json_space c then skip_ws r else s
  | EmptyString => s
  end.

Definition digit_value (c : ascii) : option Z :=
  let n := JSText.code c in
  if ((48 <=? n) && (n <=? 57))%N then Some (Z.of_N n - 48) else None.

Definition hex_value (c : ascii) : option N :=
  let n := JSText.code c in
  if ((48 <=? n) && (n <=? 57))%N then Some (n - 48)%N
  else if ((65 <=? n) && (n <=? 70))%N then Some (n - 55)%N
  else if ((97 <=? n) && (n <=? 102))%N then Some (n - 87)%N
  else None.

(** A [\uXXXX] escape above U+00FF has no image in the alphabet of the
    model and is kept as a question mark. *)
Definition unit_of_code (n : N) : ascii :=
  if (n <? 256)%N then ascii_of_N n else "?"%char.

Definition simple_escape (c : ascii) : option ascii :=
  if Ascii.eqb c JSText.DQUOTE then Some JSText.DQUOTE
  else if Ascii.eqb c JSText.BACKSLASH then Some JSText.BACKSLASH
  else
    match c with
    | "/"%char => Some "/"%char
    | "b"%char => Some (ascii_of_N 8)
    | "f"%char => Some (ascii_of_N 12)
    | "n"%char => Some (ascii_of_N 10)
    | "r"%char => Some (ascii_of_N 13)
    | "t"%char => Some (ascii_of_N 9)
    | _ => None
    end.

(** The characters of a string literal, after its opening quote. *)
Fixpoint parse_chars (s : string) : option (string * string) :=
  match s with
  | EmptyString => None
  | String c r =>
      if Ascii.eqb c JSText.DQUOTE then Some (EmptyString, r)
      else if Ascii.eqb c JSText.BACKSLASH then
        match r with
        | String "u" (String h1 (String h2 (String h3 (String h4 r')))) =>
            match hex_value h1, hex_value h2, hex_value h3, hex_value h4 with
            | Some a, Some b, Some c', Some d =>
                match parse_chars r' with
                | Some (str, rest) =>
                    Some (String (unit_of_code (((a * 16 + b) * 16 + c') * 16 + d)%N) str, rest)
                | None => None
                end
            | _, _, _, _ => None
            end
        | String e r' =>
            match simple_escape e with
            | Some u =>
                match parse_chars r' with
                | Some (str, rest) => Some (String u str, rest)
                | None => None
                end
            | None => None
            end
        | EmptyString => None
        end
      else if (JSText.code c <? 32)%N then None
      else
        match parse_chars r with
        | Some (str, rest) => Some (String c str, rest)
        | None => None
        end
  end.

(** A run of digits: its value, its length, and what follows. *)
Fixpoint take_digits (s : string) (acc : Z) (n : Z) : Z * Z * string :=
  match s with
  | String c r =>
      match digit_value c with
      | Some d => take_digits r (acc * 10 + d) (n + 1)
      | None => (acc, n, s)
      end
  | EmptyString => (acc, n, s)
  end.

Definition parse_exponent (s : string) : option (Z * string) :=
  match s with
  | String c r =>
      if Ascii.eqb c "e"%char || Ascii.eqb c "E"%char then
        let '(sign, r1) :=
          match r with
          | String "+" r' => (1, r')
          | String "-" r' => (-1, r')
          | _ => (1, r)
          end in
        let '(x, n, rest) := take_digits r1 0 0 in
        if n =? 0 then None else Some (sign * x, rest)
      else Some (0, s)
  | EmptyString => Some (0, s)
  end.

Definition parse_fraction (s : string) : option (Z * Z * string) :=
  match s with
  | String "." r =>
      let '(f, n, rest) := take_digits r 0 0 in
      if n =? 0 then None else Some (f, n, rest)
  | _ => Some (0, 0, s)
  end.

(** An optional minus sign, an integer part without a leading zero, an
    optional fraction and an optional exponent. *)
Definition parse_number (s : string) : option (JSON * string) :=
  let '(sign, s1) :=
    match s with
    | String "-" r => (-1, r)
    | _ => (1, s)
    end in
  match s1 with
  | String c r =>
      match digit_value c with
      | Some d =>
          let '(i, rest) :=
            if d =? 0 then (0, r)
            else let '(v, _, rest) := take_digits r d 1 in (v, rest) in
          match parse_fraction rest with
          | Some (f, fd, rest1) =>
              match parse_exponent rest1 with
              | Some (x, rest2) =>
                  Some (JNum (sign * (i * 10 ^ fd + f)) (x - fd), rest2)
              | None => None
              end
          | None => None
          end
      | None => None
      end
  | EmptyString => None
  end.

Definition expect (word : string) (v : JSON) (s : string) : option (JSON * string) :=
  if JSText.startsWith s word
  then Some (v, String.substring (String.length word) (String.length s) s)
  else None.

(** A later member with the same key replaces the earlier one. *)
Fixpoint set_prop (k : string) (v : JSON) (props : list (string * JSON))
  : list (string * JSON) :=
  match props with
  | [] => [(k, v)]
  | (k', v') :: rest =>
      if String.eqb k k' then (k, v) :: rest else (k', v') :: set_prop k v rest
  end.

Definition parse_string (s : string) : option (JSON * string) :=
  match parse_chars s with
  | Some (str, rest) => Some (JStr str, rest)
  | None => None
  end.

Definition opens_string (s : string) : option string :=
  match s with
  | String c r => if Ascii.eqb c JSText.DQUOTE then Some r else None
  | EmptyString => None
  end.

Fixpoint parse_value (fuel : nat) (s : string) : option (JSON * string) :=
  match fuel with
  | O => None
  | S fuel' =>
      let t := skip_ws s in
      match opens_string t with
      | Some r => parse_string r
      | None =>
          match t with
          | String "n" _ => expect "null" JNull t
          | String "t" _ => expect "true" (JBool true) t
          | String "f" _ => expect "false" (JBool false) t
          | String "[" r =>
              match skip_ws r with
              | String "]" rest => Some (JArr [], rest)
              | t' => parse_elements fuel' t' []
              end
          | String "{" r =>
              match skip_ws r with
              | String "}" rest => Some (JObj [], rest)
              | t' => parse_members fuel' t' []
              end
          | _ => parse_number t
          end
      end
  end
with parse_elements (fuel : nat) (s : string) (acc : list JSON)
  : option (JSON * string) :=
  match fuel with
  | O => None
  | S fuel' =>
      match parse_value fuel' s with
      | Some (v, r) =>
          match skip_ws r with
          | String "," rest => parse_elements fuel' rest (acc ++ [v])
          | String "]" rest => Some (JArr (acc ++ [v]), rest)
          | _ => None
          end
      | None => None
      end
  end
with parse_members (fuel : nat) (s : string) (acc : list (string * JSON))
  : option (JSON * string) :=
  match fuel with
  | O => None
  | S fuel' =>
      match opens_string (skip_ws s) with
      | Some r =>
          match parse_chars r with
          | Some (k, r1) =>
              match skip_ws r1 with
              | String ":" r2 =>
                  match parse_value fuel' r2 with
                  | Some (v, r3) =>
                      match skip_ws r3 with
                      | String "," rest => parse_members fuel' rest (set_prop k v acc)
                      | String "}" rest => Some (JObj (set_prop k v acc), rest)
                      | _ => None
                      end
                  | None => None
                  end
              | _ => None
              end
          | None => None
          end
      | None => None
      end
  end.

(** [JSON.parse(text)]: one value, white space around it, nothing else.
    Every step of the descent that spends fuel was preceded by a consumed
    character at most one step earlier, so twice the length is enough. *)
Definition parse (text : string) : Result JSON :=
  match parse_value (2 * String.length text + 2) text with
  | Some (v, rest) =>
      match skip_ws rest with
      | EmptyString => Ok v
      | _ => Throw (SyntaxError "Unexpected non-whitespace character after JSON")
      end
  | None => Throw (SyntaxError "Unexpected token or end of JSON input")
  end.

End JSValue.

(** ** The transport client (mcp-client.ts) *)

Module MCPClient.
Import JSValue.

(** A promise is named by the order of its creation. *)
Definition promise := nat.

Inductive Settlement :=
| Resolved (v : option JSON)
| Rejected (e : Thrown).

(** The request envelope: [{jsonrpc: '2.0', id, method, params?}]. *)
Record Request := {
  id : Z;
  method : string;
  params : option JSON
}.

(** The callback armed by [setTimeout] in [sendRequest]: it closes over the
    request id and over the [reject] of the promise of that call. *)
Record Timer := {
  deadline : Z;
  timer_id : Z;
  timer_promise : promise
}.

(** What [spawn] returned: whether the child has the two pipes. *)
Record ChildProcess := {
  stdin : bool;
  stdout : bool
}.

Inductive LogEntry :=
| FailedToParse (line : string) (e : Thrown)
| ServerStderr (text : string)
| ProcessError (e : Thrown)
| ProcessExited (code : option Z).

(** The four fields of the object, then the runtime it lives in: clock
    (milliseconds), armed timers in arming order, the log of every
    [resolve] / [reject] call, the frames written to the child, the console,
    the children whose handlers were installed (named by the promise of the
    [connect] call that spawned them) and the [then] / [catch] reactions
    [connect] attached to its handshake request. *)
Record Client := {
  process : option ChildProcess;
  messageId : Z;
  pendingRequests : gmap Z promise;
  connected : bool;
  now : Z;
  timers : list Timer;
  settled : list (promise * Settlement);
  next_promise : promise;
  written : list Request;
  console : list LogEntry;
  children : list promise;
  handshakes : list (promise * promise)
}.

(** [new MCPClient(config)] at time [t]. *)
Definition create (t : Z) : Client := {|
  process := None;
  messageId := 0;
  pendingRequests := ∅;
  connected := false;
  now := t;
  timers := [];
  settled := [];
  next_promise := O;
  written := [];
  console := [];
  children := [];
  handshakes := []
|}.

Definition with_process (x : option ChildProcess) (c : Client) : Client :=
  {| process := x; messageId := messageId c;
     pendingRequests := pendingRequests c; connected := connected c;
     now := now c; timers := timers c; settled := settled c;
     next_promise := next_promise c; written := written c;
     console := console c; children := children c;
     handshakes := handshakes c |}.

Definition with_messageId (x : Z) (c : Client) : Client :=
  {| process := process c; messageId := x;
     pendingRequests := pendingRequests c; connected := connected c;
     now := now c; timers := timers c; settled := settled c;
     next_promise := next_promise c; written := written c;
     console := console c; children := children c;
     handshakes := handshakes c |}.

Definition with_pendingRequests (x : gmap Z promise) (c : Client) : Client :=
  {| process := process c; messageId := messageId c;
     pendingRequests := x; connected := connected c;
     now := now c; timers := timers c; settled := settled c;
     next_promise := next_promise c; written := written c;
     console := console c; children := children c;
     handshakes := handshakes c |}.

Definition with_connected (x : bool) (c : Client) : Client :=
  {| process := process c; messageId := messageId c;
     pendingRequests := pendingRequests c; connected := x;
     now := now c; timers := timers c; settled := settled c;
     next_promise := next_promise c; written := written c;
     console := console c; children := children c;
     handshakes := handshakes c |}.

Definition with_clock (t : Z) (ts : list Timer) (c : Client) : Client :=
  {| process := process c; messageId := messageId c;
     pendingRequests := pendingRequests c; connected := connected c;
     now := t; timers := ts; settled := settled c;
     next_promise := next_promise c; written := written c;
     console := console c; children := children c;
     handshakes := handshakes c |}.

Definition with_written (x : list Request) (c : Client) : Client :=
  {| process := process c; messageId := messageId c;
     pendingRequests := pendingRequests c; connected := connected c;
     now := now c; timers := timers c; settled := settled c;
     next_promise := next_promise c; written := x;
     console := console c; children := children c;
     handshakes := handshakes c |}.

Definition with_children (x : list promise) (c : Client) : Client :=
  {| process := process c; messageId := messageId c;
     pendingRequests := pendingRequests c; connected := connected c;
     now := now c; timers := timers c; settled := settled c;
     next_promise := next_promise c; written := written c;
     console := console c; children := x;
     handshakes := handshakes c |}.

Definition with_handshakes (x : list (promise * promise)) (c : Client) : Client :=
  {| process := process c; messageId := messageId c;
     pendingRequests := pendingRequests c; connected := connected c;
     now := now c; timers := timers c; settled := settled c;
     next_promise := next_promise c; written := written c;
     console := console c; children := children c;
     handshakes := x |}.

(** [console.error(...)] / [console.log(...)]. *)
Definition log (e : LogEntry) (c : Client) : Client :=
  {| process := process c; messageId := messageId c;
     pendingRequests := pendingRequests c; connected := connected c;
     now := now c; timers := timers c; settled := settled c;
     next_promise := next_promise c; written := written c;
     console := console c ++ [e]; children := children c;
     handshakes := handshakes c |}.

(** One call of the [resolve] or of the [reject] of promise [p]. *)
Definition settle (p : promise) (s : Settlement) (c : Client) : Client :=
  {| process := process c; messageId := messageId c;
     pendingRequests := pendingRequests c; connected := connected c;
     now := now c; timers := timers c; settled := settled c ++ [(p, s)];
     next_promise := next_promise c; written := written c;
     console := console c; children := children c;
     handshakes := handshakes c |}.

(** [new Promise(...)]. *)
Definition new_promise (c : Client) : Client * promise :=
  ({| process := process c; messageId := messageId c;
      pendingRequests := pendingRequests c; connected := connected c;
      now := now c; timers := timers c; settled := settled c;
      next_promise := S (next_promise c); written := written c;
      console := console c; children := children c;
      handshakes := handshakes c |}, next_promise c).

(** Every call made on promise [p], oldest first, and the one that counts:
    a promise keeps its first settlement. *)
Definition settlements (p : promise) (c : Client) : list Settlement :=
  map snd (List.filter (fun e => Nat.eqb (fst e) p) (settled c)).

Definition outcome (p : promise) (c : Client) : option Settlement :=
  head (settlements p c).

(** [n + 1] on a JavaScript number holding a non-negative integer: exact
    below 2^53, where the sum is rounded back to 2^53. *)
Definition js_succ (n : Z) : Z := if n <? 2 ^ 53 then n + 1 else n.

(** [getNextId()]: [++this.messageId]. *)
Definition getNextId (c : Client) : Client * Z :=
  let n := js_succ (messageId c) in (with_messageId n c, n).

Definition timeout_ms : Z := 30000.

Definition has_stdin (c : Client) : bool :=
  match process c with
  | Some child => stdin child
  | None => false
  end.

(** [sendRequest(request)]. *)
Definition sendRequest (request : Request) (c : Client) : Client * promise :=
  let '(c, p) := new_promise c in
  if has_stdin c then
    let c := with_pendingRequests (<[id request := p]> (pendingRequests c)) c in
    let c := with_written (written c ++ [request]) c in
    let c := with_clock (now c)
               (timers c ++ [{| deadline := now c + timeout_ms;
                                timer_id := id request;
                                timer_promise := p |}]) c in
    (c, p)
  else
    (settle p (Rejected (Error "MCP server not connected")) c, p).

(** The body of the [setTimeout] callback. *)
Definition fire (tm : Timer) (c : Client) : Client :=
  match pendingRequests c !! timer_id tm with
  | Some _ =>
      settle (timer_promise tm)
        (Rejected (Error ("Request " +:+ JSText.decimal (timer_id tm) +:+ " timed out")))
        (with_pendingRequests (delete (timer_id tm) (pendingRequests c)) c)
  | None => c
  end.

(** [this.pendingRequests.get(message.id)], for any [message.id]. *)
Definition pending_for (v : option JSON) (c : Client) : option promise :=
  match number_key v with
  | Some k => pendingRequests c !! k
  | None => None
  end.

Definition delete_for (v : option JSON) (c : Client) : Client :=
  match number_key v with
  | Some k => with_pendingRequests (delete k (pendingRequests c)) c
  | None => c
  end.

(** The two branches of [handleMessage]: which function of the pending
    entry is called, and with what. [new Error(x)] stores [ToString x]. *)
Definition reply (message : JSON) : Result Settlement :=
  match get (Some message) "error" with
  | Throw e => Throw e
  | Ok err =>
      if truthy err then
        match get err "message" with
        | Throw e => Throw e
        | Ok msg =>
            match or_else msg (Some (JStr "Unknown error")) with
            | Some text => Ok (Rejected (Error (ToString text)))
            | None => Ok (Rejected (Error ""))
            end
        end
      else
        match get (Some message) "result" with
        | Throw e => Throw e
        | Ok result => Ok (Resolved result)
        end
  end.

(** [handleMessage(message)]. *)
Definition handleMessage (message : JSON) (c : Client) : Result Client :=
  match get (Some message) "id" with
  | Throw e => Throw e
  | Ok mid =>
      match (if truthy mid then pending_for mid c else None) with
      | Some request =>
          let c := delete_for mid c in
          match reply message with
          | Throw e => Throw e
          | Ok s => Ok (settle request s c)
          end
      | None => Ok c
      end
  end.

(** The body of the loop of the ['data'] handler, for one line. *)
Definition on_line (line : string) (c : Client) : Client :=
  match parse line with
  | Ok message =>
      match handleMessage message c with
      | Ok c' => c'
      | Throw e => log (FailedToParse line e) c
      end
  | Throw e => log (FailedToParse line e) c
  end.

(** [data.toString().split('\n').filter(line => line.trim())]. *)
Definition lines_of (chunk : string) : list string :=
  List.filter (fun line => JSText.truthy (JSText.trim line))
         (JSText.split JSText.LF chunk).

(** The ['data'] handler of the child's stdout. *)
Definition on_data (chunk : string) (c : Client) : Client :=
  fold_left (fun c line => on_line line c) (lines_of chunk) c.

(** The ['error'] handler installed by the [connect] call of promise [cp]. *)
Definition on_error (cp : promise) (error : Thrown) (c : Client) : Client :=
  let c := log (ProcessError error) c in
  if negb (connected c) then settle cp (Rejected error) c else c.

(** The ['exit'] handler. *)
Definition on_exit (code : option Z) (c : Client) : Client :=
  with_connected false (log (ProcessExited code) c).

Definition initialize_params : JSON :=
  JObj [("protocolVersion", JStr "2024-11-05");
        ("capabilities", JObj [("tools", JObj [])]);
        ("clientInfo", JObj [("name", JStr "mcp-framework");
                             ("version", JStr "0.1.0")])].

(** [connect()], given what [spawn] returns. The reactions
    [.then(() => { this.connected = true; resolve() }).catch(reject)] are
    queued on the handshake promise and run by [run_reactions]. *)
Definition connect (spawned : ChildProcess) (c : Client) : Client * promise :=
  let '(c, cp) := new_promise c in
  let c := with_process (Some spawned) c in
  if negb (stdin spawned) || negb (stdout spawned) then
    (settle cp (Rejected (Error "Failed to create MCP server process")) c, cp)
  else
    let c := with_children (children c ++ [cp]) c in
    let '(c, n) := getNextId c in
    let '(c, ip) :=
      sendRequest {| id := n; method := "initialize";
                     params := Some initialize_params |} c in
    (with_handshakes (handshakes c ++ [(ip, cp)]) c, cp).

(** [disconnect()]. *)
Definition disconnect (c : Client) : Client :=
  with_connected false (with_process None c).

(** The request of [listTools()] and of [callTool(name, arguments_)]; what
    [callTool] does with the response once it is there is [callTool_result]. *)
Definition listTools (c : Client) : Client * promise :=
  let '(c, n) := getNextId c in
  sendRequest {| id := n; method := "tools/list"; params := None |} c.

Definition callTool (name : string) (arguments_ : option JSON) (c : Client)
  : Client * promise :=
  let '(c, n) := getNextId c in
  sendRequest
    {| id := n; method := "tools/call";
       params := Some (JObj (("name", JStr name) ::
                             match arguments_ with
                             | Some a => [("arguments", a)]
                             | None => []
                             end)) |} c.

(** [MCPToolResult]: [{content: response.content || [], isError:
    response.isError || false}]. *)
Record MCPToolResult := {
  content : option JSON;
  isError : option JSON
}.

(** The rest of [callTool] after its [await]. *)
Definition callTool_result (s : Settlement) : Result MCPToolResult :=
  match s with
  | Rejected e => Throw e
  | Resolved response =>
      match get response "content" with
      | Throw e => Throw e
      | Ok c =>
          match get response "isError" with
          | Throw e => Throw e
          | Ok b =>
              Ok {| content := or_else c (Some (JArr []));
                    isError := or_else b (Some (JBool false)) |}
          end
      end
  end.

(** The promise reactions that became runnable: the handshake of a
    [connect] call was settled. *)
Fixpoint run_reactions (queue : list (promise * promise)) (c : Client) : Client :=
  match queue with
  | [] => with_handshakes [] c
  | (ip, cp) :: rest =>
      match outcome ip c with
      | Some (Resolved _) =>
          run_reactions rest (settle cp (Resolved None) (with_connected true c))
      | Some (Rejected e) =>
          run_reactions rest (settle cp (Rejected e) c)
      | None =>
          let c' := run_reactions rest c in
          with_handshakes ((ip, cp) :: handshakes c') c'
      end
  end.

(** One timer callback, and the reactions it enabled. *)
Definition expire (c : Client) (tm : Timer) : Client :=
  let c := fire tm c in run_reactions (handshakes c) c.

(** The clock reaches [t]: every timer that is due runs, oldest first (all
    delays are equal, so arming order is deadline order). *)
Definition is_due (t : Z) (tm : Timer) : bool := deadline tm <=? t.

Definition advance (t : Z) (c : Client) : Client :=
  let due := List.filter (is_due t) (timers c) in
  let rest := List.filter (fun tm => negb (is_due t tm)) (timers c) in
  fold_left expire due (with_clock (Z.max (now c) t) rest c).

(** What can happen to a client: a call of its interface, or a callback of
    the runtime. A child is named by the promise of its [connect] call, and
    only a child whose handlers were installed emits anything. *)
Inductive Event :=
| Connect (spawned : ChildProcess)
| Disconnect
| ListTools
| CallTool (name : string) (arguments_ : option JSON)
| Stdout (child : promise) (chunk : string)
| Stderr (child : promise) (text : string)
| ProcError (child : promise) (error : Thrown)
| ProcExit (child : promise) (code : option Z)
| Clock (t : Z).

Definition installed (child : promise) (c : Client) : bool :=
  existsb (Nat.eqb child) (children c).

Definition task (ev : Event) (c : Client) : Client :=
  match ev with
  | Connect spawned => fst (connect spawned c)
  | Disconnect => disconnect c
  | ListTools => fst (listTools c)
  | CallTool name a => fst (callTool name a c)
  | Stdout child chunk => if installed child c then on_data chunk c else c
  | Stderr child text => if installed child c then log (ServerStderr text) c else c
  | ProcError child e => if installed child c then on_error child e c else c
  | ProcExit child code => if installed child c then on_exit code c else c
  | Clock t => advance t c
  end.

(** One turn of the event loop: the task, then the reactions it enabled. *)
Definition step (c : Client) (ev : Event) : Client :=
  let c := task ev c in run_reactions (handshakes c) c.

Definition run (evs : list Event) (c : Client) : Client := fold_left step evs c.

(** *** Vocabulary of the properties *)

(** The request a message answers: its [id], when that is an integer. *)
Definition response_id (message : JSON) : option Z :=
  match get (Some message) "id" with
  | Ok v => number_key v
  | Throw _ => None
  end.


(** Lines handed to the loop of the ['data'] handler one after the other,
    whatever the reads they came in. *)
Definition receive (lines : list string) (c : Client) : Client :=
  fold_left (fun c line => on_line line c) lines c.

(** Several [callTool] invocations issued before any response is read: the
    id and the promise of each. *)
Fixpoint callTools (reqs : list (string * option JSON)) (c : Client)
  : Client * list (Z * promise) :=
  match reqs with
  | [] => (c, [])
  | (name, a) :: rest =>
      let '(c1, p) := callTool name a c in
      let '(c2, calls) := callTools rest c1 in
      (c2, (messageId c1, p) :: calls)
  end.

(** What holds of every client reached from [create]: the counter is a
    non-negative integer a JavaScript number holds exactly, ids in use were
    handed out by it, and promise handles in use were allocated. *)
Record wf (c : Client) : Prop := {
  wf_counter : 0 <= messageId c <= 2 ^ 53;
  wf_pending : forall k p, pendingRequests c !! k = Some p ->
    (p < next_promise c)%nat /\ 1 <= k <= messageId c;
  wf_settled : forall p s, In (p, s) (settled c) -> (p < next_promise c)%nat;
  wf_timers : forall tm, In tm (timers c) ->
    (timer_promise tm < next_promise c)%nat /\ timer_id tm <= messageId c;
  wf_children : forall cp, In cp (children c) -> (cp < next_promise c)%nat;
  wf_handshakes : forall ip cp, In (ip, cp) (handshakes c) ->
    (ip < next_promise c)%nat /\ (cp < next_promise c)%nat
}.



End MCPClient.

(** ** A session used by the examples *)

Module Session.
Import JSValue MCPClient.

Definition pipes : ChildProcess := {| stdin := true; stdout := true |}.

(** A client that connected at time 0 and got its handshake answered. *)
Definition connected_client : Client :=
  run [Connect pipes;
       Stdout 0%nat (JSText.wire "{'jsonrpc':'2.0','id':1,'result':{}}")]
      (create 0).

Definition two_calls : list (string * option JSON) :=
  [("echo", Some (JObj [("message", JStr "hi")])); ("add", None)].

(** The answers to [two_calls], the second call answered first. *)
Definition answers_reversed : list string :=
  [JSText.wire "{'jsonrpc':'2.0','id':3,'result':{'content':[]}}";
   JSText.wire "{'jsonrpc':'2.0','id':2,'error':{'code':-32601,'message':'Unknown tool'}}"].


End Session.

(** ** Vocabulary of the timeout property *)

Module Timeout.
Import JSValue MCPClient.

(** The error of the [setTimeout] callback for request [k]. *)
Definition timed_out (k : Z) : Settlement :=
  Rejected (Error ("Request " +:+ JSText.decimal k +:+ " timed out")).







End Timeout.

(** ** A frame cut in two by the pipe *)

Module SplitFrame.
Import JSValue MCPClient.

(** The client with one [callTool] outstanding, of id 2 and promise 2. *)
Definition waiting_client : Client :=
  fst (callTool "echo" None Session.connected_client).

(** The response to it, as one frame and as the two reads it arrives in. *)
Definition frame : string :=
  JSText.wire "{'jsonrpc':'2.0','id':2,'result':{}}" +:+ String JSText.LF "".
Definition first_read : string := JSText.wire "{'jsonrpc':'2.0','id':2,".
Definition second_read : string :=
  JSText.wire "'result':{}}" +:+ String JSText.LF "".

End SplitFrame.

(** ** A child that exits *)

Module ChildExit.
Import JSValue MCPClient.



End ChildExit.

(** ** The tool registry and bridge (model-bridge.ts) *)

Module ModelBridge.
Import JSValue.

(** [MCPTool]. *)
Record MCPTool := {
  name : string;
  description : string;
  inputSchema : option JSON
}.

(** [ToolUsageInfo]: the three fields of the tool, and what was read from
    the answer of the model. *)
Record ToolUsageInfo := {
  usage_name : string;
  usage_description : string;
  usage_inputSchema : option JSON;
  examples : option JSON;
  relatedTools : option JSON;
  category : option JSON
}.

(** [ToolExecutionRequest]. *)
Record ToolExecutionRequest := {
  toolName : string;
  parameters : option JSON;
  context : option string;
  userIntent : option string
}.

(** [ToolExecutionResult]. *)
Record ToolExecutionResult := {
  success : bool;
  result : option MCPClient.MCPToolResult;
  error : option string;
  suggestions : option (list string)
}.

Inductive Feedback := positive | negative | neutral.

Definition Feedback_eqb (a b : Feedback) : bool :=
  match a, b with
  | positive, positive | negative, negative | neutral, neutral => true
  | _, _ => false
  end.

(** [TrainingData]; [timestamp] is the clock reading of [new Date()]. *)
Record TrainingData := {
  training_userIntent : string;
  toolCall : ToolExecutionRequest;
  training_result : ToolExecutionResult;
  feedback : Feedback;
  timestamp : Z
}.

(** The two prompts, by the values printed into their templates. *)
Inductive Prompt :=
| UsagePrompt (tool_name tool_description : string) (schema : option JSON)
| OptimizePrompt (tool : string) (intent : string)
    (current : option JSON) (schema : option JSON)
    (past : list (option JSON)).

(** The fields of the bridge that change ([trainingData], [toolCache],
    [usageExamples]), and what it asked of its two collaborators: the
    prompts given to the model and the [callTool] invocations made on the
    transport client, oldest first. What the bridge prints on the console
    is left out. *)
Record Bridge := {
  trainingData : list TrainingData;
  toolCache : list (string * MCPTool);
  usageExamples : gmap string ToolUsageInfo;
  prompts : list Prompt;
  toolCalls : list (string * option JSON)
}.

(** [new ModelBridge(...)]. *)
Definition create : Bridge := {|
  trainingData := [];
  toolCache := [];
  usageExamples := ∅;
  prompts := [];
  toolCalls := []
|}.

Definition with_trainingData (x : list TrainingData) (b : Bridge) : Bridge :=
  {| trainingData := x; toolCache := toolCache b;
     usageExamples := usageExamples b; prompts := prompts b;
     toolCalls := toolCalls b |}.

Definition with_toolCache (x : list (string * MCPTool)) (b : Bridge) : Bridge :=
  {| trainingData := trainingData b; toolCache := x;
     usageExamples := usageExamples b; prompts := prompts b;
     toolCalls := toolCalls b |}.

Definition with_usageExamples (x : gmap string ToolUsageInfo) (b : Bridge) : Bridge :=
  {| trainingData := trainingData b; toolCache := toolCache b;
     usageExamples := x; prompts := prompts b;
     toolCalls := toolCalls b |}.

Definition with_prompts (x : list Prompt) (b : Bridge) : Bridge :=
  {| trainingData := trainingData b; toolCache := toolCache b;
     usageExamples := usageExamples b; prompts := x;
     toolCalls := toolCalls b |}.

Definition with_toolCalls (x : list (string * option JSON)) (b : Bridge) : Bridge :=
  {| trainingData := trainingData b; toolCache := toolCache b;
     usageExamples := usageExamples b; prompts := prompts b;
     toolCalls := x |}.

(** *** A [Map] that is iterated: entries in insertion order *)

Fixpoint cache_get (k : string) (m : list (string * MCPTool)) : option MCPTool :=
  match m with
  | [] => None
  | (k', v) :: rest => if String.eqb k k' then Some v else cache_get k rest
  end.

(** [m.set(k, v)]: a known key keeps its place. *)
Fixpoint cache_set (k : string) (v : MCPTool) (m : list (string * MCPTool))
  : list (string * MCPTool) :=
  match m with
  | [] => [(k, v)]
  | (k', v') :: rest =>
      if String.eqb k k' then (k, v) :: rest else (k', v') :: cache_set k v rest
  end.

(** [Array.from(m.values())]. *)
Definition cache_values (m : list (string * MCPTool)) : list MCPTool := map snd m.

(** [set.add(x)] on a [Set] that is read back in insertion order. *)
Fixpoint set_add (x : string) (s : list string) : list string :=
  match s with
  | [] => [x]
  | y :: rest => if String.eqb x y then s else y :: set_add x rest
  end.

(** [xs.slice(-n)] and [xs.slice(0, n)]. *)
Definition slice_last {A} (n : nat) (xs : list A) : list A :=
  skipn (length xs - n) xs.

Definition slice_first {A} (n : nat) (xs : list A) : list A := firstn n xs.

Section WithModel.

(** The model provider: [generateResponse(prompt)] returns text or throws.
    Its answer may differ from one call to the next, so it is given the
    number of calls made before. *)
Variable generateResponse : nat -> Prompt -> Result string.

(** [await this.modelProvider.generateResponse(prompt)]. *)
Definition ask (prompt : Prompt) (b : Bridge) : Bridge * Result string :=
  (with_prompts (prompts b ++ [prompt]) b,
   generateResponse (length (prompts b)) prompt).

(** [cacheAvailableTools()], given what [await this.mcpClient.listTools()]
    yields (its [tools], at their declared type) or throws. *)
Definition cacheAvailableTools (listed : Result (list MCPTool)) (b : Bridge)
  : Bridge * Result unit :=
  match listed with
  | Throw e => (b, Throw e)
  | Ok tools =>
      (with_toolCache
         (fold_left (fun m tool => cache_set (name tool) tool m) tools []) b,
       Ok tt)
  end.

(** The body of the [try] of [generateToolUsageInfo]. *)
Definition usage_of_response (tool : MCPTool) (response : string)
  : Result ToolUsageInfo :=
  match parse response with
  | Throw e => Throw e
  | Ok parsed =>
      match get (Some parsed) "examples" with
      | Throw e => Throw e
      | Ok ex =>
          match get (Some parsed) "relatedTools" with
          | Throw e => Throw e
          | Ok rel =>
              match get (Some parsed) "category" with
              | Throw e => Throw e
              | Ok cat =>
                  Ok {| usage_name := name tool;
                        usage_description := description tool;
                        usage_inputSchema := inputSchema tool;
                        examples := or_else ex (Some (JArr []));
                        relatedTools := or_else rel (Some (JArr []));
                        category := or_else cat (Some (JStr "Utility")) |}
              end
          end
      end
  end.

Definition fallback_usage (tool : MCPTool) : ToolUsageInfo :=
  {| usage_name := name tool;
     usage_description := description tool;
     usage_inputSchema := inputSchema tool;
     examples := Some (JArr []);
     relatedTools := Some (JArr []);
     category := Some (JStr "Utility") |}.

(** [generateToolUsageInfo(tool)]: the call of the model is outside the
    [try], the parsing inside. *)
Definition generateToolUsageInfo (tool : MCPTool) (b : Bridge)
  : Bridge * Result ToolUsageInfo :=
  let '(b, response) :=
    ask (UsagePrompt (name tool) (description tool) (inputSchema tool)) b in
  match response with
  | Throw e => (b, Throw e)
  | Ok text =>
      match usage_of_response tool text with
      | Ok info => (b, Ok info)
      | Throw _ => (b, Ok (fallback_usage tool))
      end
  end.

(** [generateToolUsageExamples()]: the loop over the entries of the cache. *)
Fixpoint generateToolUsageExamples_loop (entries : list (string * MCPTool))
  (b : Bridge) : Bridge * Result unit :=
  match entries with
  | [] => (b, Ok tt)
  | (toolName, tool) :: rest =>
      match usageExamples b !! toolName with
      | Some _ => generateToolUsageExamples_loop rest b
      | None =>
          match generateToolUsageInfo tool b with
          | (b, Throw e) => (b, Throw e)
          | (b, Ok info) =>
              generateToolUsageExamples_loop rest
                (with_usageExamples (<[toolName := info]> (usageExamples b)) b)
          end
      end
  end.

Definition generateToolUsageExamples (b : Bridge) : Bridge * Result unit :=
  generateToolUsageExamples_loop (toolCache b) b.

(** [initialize()], given how [await this.mcpClient.connect()] ends and
    what [listTools()] yields. *)
Definition initialize (connected : Result unit) (listed : Result (list MCPTool))
  (b : Bridge) : Bridge * Result unit :=
  match connected with
  | Throw e => (b, Throw e)
  | Ok _ =>
      match cacheAvailableTools listed b with
      | (b, Throw e) => (b, Throw e)
      | (b, Ok _) => generateToolUsageExamples b
      end
  end.

(** The chain of tests in the loop of [categorizeTools], for one tool. *)
Definition category_of (tool : MCPTool) : string :=
  let name := JSText.toLowerCase (name tool) in
  let desc := JSText.toLowerCase (description tool) in
  if JSText.includes name "file" || JSText.includes desc "file"
  then "File Operations"
  else if JSText.includes name "git" || JSText.includes desc "git"
  then "Version Control"
  else if JSText.includes name "search" || JSText.includes desc "search"
  then "Search"
  else if JSText.includes name "fetch" || JSText.includes name "http"
          || JSText.includes desc "web"
  then "Network"
  else if JSText.includes name "memory" || JSText.includes desc "memory"
  then "Data Storage"
  else "Utility".

(** [categorizeTools(tools)]. *)
Definition categorizeTools (tools : list MCPTool) : list string :=
  fold_left (fun categories tool => set_add (category_of tool) categories) tools [].

(** [ToolDiscoveryResult]. *)
Record ToolDiscoveryResult := {
  tools : list MCPTool;
  totalCount : nat;
  categories : option (list string)
}.

(** [discoverTools()]; [listed] is consulted only when the cache is empty. *)
Definition discoverTools (listed : Result (list MCPTool)) (b : Bridge)
  : Bridge * Result ToolDiscoveryResult :=
  let refreshed :=
    match toolCache b with
    | [] => cacheAvailableTools listed b
    | _ :: _ => (b, Ok tt)
    end in
  match refreshed with
  | (b, Throw e) => (b, Throw e)
  | (b, Ok _) =>
      let tools := cache_values (toolCache b) in
      (b, Ok {| tools := tools;
                totalCount := length tools;
                categories := Some (categorizeTools tools) |})
  end.

Definition tool_not_found (toolName : string) : Thrown :=
  Error ("Tool '" +:+ toolName +:+ "' not found").

(** [getToolUsage(toolName)]. *)
Definition getToolUsage (toolName : string) (b : Bridge)
  : Bridge * Result ToolUsageInfo :=
  match usageExamples b !! toolName with
  | Some cachedUsage => (b, Ok cachedUsage)
  | None =>
      match cache_get toolName (toolCache b) with
      | None => (b, Throw (tool_not_found toolName))
      | Some tool =>
          match generateToolUsageInfo tool b with
          | (b, Throw e) => (b, Throw e)
          | (b, Ok usageInfo) =>
              (with_usageExamples (<[toolName := usageInfo]> (usageExamples b)) b,
               Ok usageInfo)
          end
      end
  end.

(** The records [optimizeToolRequest] hands to the model as precedents. *)
Definition relevantTraining (request : ToolExecutionRequest) (b : Bridge)
  : list TrainingData :=
  slice_last 5
    (List.filter (fun data => Feedback_eqb (feedback data) positive)
       (List.filter (fun data => String.eqb (toolName (toolCall data)) (toolName request))
          (trainingData b))).

Definition with_parameters (x : option JSON) (r : ToolExecutionRequest)
  : ToolExecutionRequest :=
  {| toolName := toolName r; parameters := x;
     context := context r; userIntent := userIntent r |}.

(** [request.userIntent || 'Not specified']. *)
Definition intent_text (request : ToolExecutionRequest) : string :=
  match userIntent request with
  | Some intent => if JSText.truthy intent then intent else "Not specified"
  | None => "Not specified"
  end.

(** The prompt of [optimizeToolRequest], given the precedents. *)
Definition optimize_prompt (request : ToolExecutionRequest) (tool : MCPTool)
  (precedents : list TrainingData) : Prompt :=
  OptimizePrompt (toolName request) (intent_text request)
    (parameters request) (inputSchema tool)
    (map (fun t => parameters (toolCall t)) precedents).

(** [optimizeToolRequest(request)]. *)
Definition optimizeToolRequest (request : ToolExecutionRequest) (b : Bridge)
  : Bridge * ToolExecutionRequest :=
  match cache_get (toolName request) (toolCache b) with
  | None => (b, request)
  | Some tool =>
      let prompt := optimize_prompt request tool (relevantTraining request b) in
      let '(b, response) := ask prompt b in
      match response with
      | Throw _ => (b, request)
      | Ok text =>
          match parse text with
          | Throw _ => (b, request)
          | Ok optimizedParams => (b, with_parameters (Some optimizedParams) request)
          end
      end
  end.

(** [generateSuggestions(request, result)]. *)
Definition generateSuggestions (request : ToolExecutionRequest) (b : Bridge)
  : list string :=
  map (fun tool =>
         "Consider using '" +:+ name tool +:+ "' for " +:+ description tool)
      (slice_first 3
         (List.filter (fun tool => negb (String.eqb (name tool) (toolName request)))
            (cache_values (toolCache b)))).

(** [generateErrorSuggestions(request, error)]. *)
Definition generateErrorSuggestions (request : ToolExecutionRequest) : list string :=
  ["Check if the parameters match the expected schema for '"
     +:+ toolName request +:+ "'";
   "Verify that all required fields are provided";
   "Try using the how_tool command to get usage examples"].

(** [!result.isError]. *)
Definition succeeded (r : MCPClient.MCPToolResult) : bool :=
  negb (truthy (MCPClient.isError r)).

(** [executeToolCall(request)]; [transport] is how the transport client
    settles the request of [callTool(name, arguments)]. *)
Definition executeToolCall
  (transport : string -> option JSON -> MCPClient.Settlement)
  (request : ToolExecutionRequest) (b : Bridge)
  : Bridge * Result ToolExecutionResult :=
  let '(b, optimizedRequest) := optimizeToolRequest request b in
  let b := with_toolCalls
             (toolCalls b ++ [(toolName optimizedRequest, parameters optimizedRequest)])
             b in
  match MCPClient.callTool_result
          (transport (toolName optimizedRequest) (parameters optimizedRequest)) with
  | Ok result =>
      (b, Ok {| success := succeeded result;
                result := Some result;
                error := None;
                suggestions := Some (generateSuggestions request b) |})
  | Throw error =>
      (b, Ok {| success := false;
                result := None;
                error := Some (message_or error "Unknown error occurred");
                suggestions := Some (generateErrorSuggestions request) |})
  end.

(** [trainOnInteraction(userIntent, toolCall, result, userFeedback)] at
    clock reading [now]; an omitted [userFeedback] is ['neutral']. *)
Definition trainOnInteraction (userIntent : string)
  (toolCall : ToolExecutionRequest) (result : ToolExecutionResult)
  (userFeedback : option Feedback) (now : Z) (b : Bridge) : Bridge :=
  let trainingEntry :=
    {| training_userIntent := userIntent;
       toolCall := toolCall;
       training_result := result;
       feedback := match userFeedback with Some f => f | None => neutral end;
       timestamp := now |} in
  let data := trainingData b ++ [trainingEntry] in
  with_trainingData
    (if Nat.ltb 1000 (length data) then slice_last 1000 data else data) b.

End WithModel.

(** [createModelProvider()]: the mock, which answers every prompt with
    [JSON.stringify({examples: [], relatedTools: [], category: 'Utility'})]. *)
Definition createModelProvider : nat -> Prompt -> Result string :=
  fun _ _ => Ok (JSText.wire "{'examples':[],'relatedTools':[],'category':'Utility'}").

End ModelBridge.

(** ** The front surface (simplified-server.ts) *)

Module SimplifiedMCPServer.
Import JSValue ModelBridge.

(** The validated arguments of [what_tools]. *)
Record WhatToolsArgs := {
  arg_category : option string;
  arg_search : option string
}.

(** The [response] object of the [what_tools] handler. *)
Record WhatToolsResponse := {
  response_tools : list MCPTool;
  response_totalCount : nat;
  response_categories : option (list string);
  summary : string
}.

(** [if (x)] on an optional string: present and not empty. *)
Definition given (x : option string) : option string :=
  match x with
  | Some s => if JSText.truthy s then Some s else None
  | None => None
  end.

(** [result.categories?.includes(category)]. *)
Definition categories_include (r : ToolDiscoveryResult) (category : string) : bool :=
  match categories r with
  | Some cs => existsb (String.eqb category) cs
  | None => false
  end.

(** The two filters of the [what_tools] handler. *)
Definition filter_tools (args : WhatToolsArgs) (r : ToolDiscoveryResult)
  : list MCPTool :=
  let filteredTools := tools r in
  let filteredTools :=
    match given (arg_category args) with
    | Some category =>
        List.filter (fun _tool => categories_include r category) filteredTools
    | None => filteredTools
    end in
  match given (arg_search args) with
  | Some search =>
      let searchTerm := JSText.toLowerCase search in
      List.filter
        (fun tool =>
           JSText.includes (JSText.toLowerCase (name tool)) searchTerm
           || JSText.includes (JSText.toLowerCase (description tool)) searchTerm)
        filteredTools
  | None => filteredTools
  end.

Definition quoted (s : string) : string :=
  String JSText.DQUOTE s +:+ String JSText.DQUOTE "".

Section WithModel.
Variable generateResponse : nat -> Prompt -> Result string.

(** The [what_tools] branch of the request handler, up to its [response]. *)
Definition what_tools (args : WhatToolsArgs) (listed : Result (list MCPTool))
  (b : Bridge) : Bridge * Result WhatToolsResponse :=
  match discoverTools listed b with
  | (b, Throw e) => (b, Throw e)
  | (b, Ok r) =>
      let filteredTools := filter_tools args r in
      (b, Ok {| response_tools := filteredTools;
                response_totalCount := length filteredTools;
                response_categories := categories r;
                summary :=
                  "Found " +:+ JSText.decimal (Z.of_nat (length filteredTools))
                  +:+ " tools"
                  +:+ match given (arg_category args) with
                      | Some category => " in category " +:+ quoted category
                      | None => ""
                      end
                  +:+ match given (arg_search args) with
                      | Some search => " matching " +:+ quoted search
                      | None => ""
                      end |})
  end.

(** [useTool(toolName, parameters, context)] at clock reading [now]. *)
Definition useTool
  (transport : string -> option JSON -> MCPClient.Settlement)
  (toolName : string) (parameters : option JSON) (context : option string)
  (now : Z) (b : Bridge) : Bridge * Result ToolExecutionResult :=
  let request :=
    {| toolName := toolName; parameters := parameters;
       context := context; userIntent := context |} in
  match executeToolCall generateResponse transport request b with
  | (b, Throw e) => (b, Throw e)
  | (b, Ok result) =>
      let trainingRequest :=
        {| toolName := toolName; parameters := parameters;
           context := context; userIntent := None |} in
      (trainOnInteraction
         (match given context with
          | Some intent => intent
          | None => "Execute " +:+ toolName
          end)
         trainingRequest result None now b,
       Ok result)
  end.

(** What a caller can do through the front surface. *)
Inductive Call :=
| Initialize (connected : Result unit) (listed : Result (list MCPTool))
| WhatTools (args : WhatToolsArgs) (listed : Result (list MCPTool))
| HowTool (toolName : string)
| UseTool (transport : string -> option JSON -> MCPClient.Settlement)
    (toolName : string) (parameters : option JSON) (context : option string)
    (now : Z).

Definition serve (b : Bridge) (call : Call) : Bridge :=
  match call with
  | Initialize connected listed => fst (initialize generateResponse connected listed b)
  | WhatTools args listed => fst (what_tools args listed b)
  | HowTool toolName => fst (getToolUsage generateResponse toolName b)
  | UseTool transport toolName parameters context now =>
      fst (useTool transport toolName parameters context now b)
  end.

Definition serve_all (calls : list Call) (b : Bridge) : Bridge :=
  fold_left serve calls b.

End WithModel.

End SimplifiedMCPServer.

(** ** Vocabulary of the bridge properties *)

Module BridgeSpec.
Import JSValue ModelBridge.

(** [s] contains [term], ignoring case: some run of [s] lower-cases to the
    lower-cased [term]. *)
Definition contains_ignoring_case (s term : string) : Prop :=
  exists before run after,
    s = before +:+ run +:+ after /\
    JSText.toLowerCase run = JSText.toLowerCase term.


(** One [record] operation: the arguments of [trainOnInteraction]. *)
Record Interaction := {
  its_intent : string;
  its_call : ToolExecutionRequest;
  its_result : ToolExecutionResult;
  its_feedback : option Feedback;
  its_time : Z
}.

Definition record (b : Bridge) (i : Interaction) : Bridge :=
  trainOnInteraction (its_intent i) (its_call i) (its_result i)
    (its_feedback i) (its_time i) b.

(** The entry a [record] operation appends. *)
Definition entry_of (i : Interaction) : TrainingData :=
  {| training_userIntent := its_intent i;
     toolCall := its_call i;
     training_result := its_result i;
     feedback := match its_feedback i with Some f => f | None => neutral end;
     timestamp := its_time i |}.

(** Every record of the history has feedback [neutral]. *)
Definition all_neutral (b : Bridge) : Prop :=
  Forall (fun d => feedback d = neutral) (trainingData b).

(** What can be done to a bridge through its interface. *)
Inductive Op :=
| OpInitialize (connected : Result unit) (listed : Result (list MCPTool))
| OpDiscover (listed : Result (list MCPTool))
| OpUsage (toolName : string)
| OpExecute (transport : string -> option JSON -> MCPClient.Settlement)
    (request : ToolExecutionRequest)
| OpRecord (i : Interaction).

Definition perform (generateResponse : nat -> Prompt -> Result string)
  (b : Bridge) (op : Op) : Bridge :=
  match op with
  | OpInitialize connected listed => fst (initialize generateResponse connected listed b)
  | OpDiscover listed => fst (discoverTools listed b)
  | OpUsage toolName => fst (getToolUsage generateResponse toolName b)
  | OpExecute transport request =>
      fst (executeToolCall generateResponse transport request b)
  | OpRecord i => record b i
  end.

Definition perform_all (generateResponse : nat -> Prompt -> Result string)
  (ops : list Op) (b : Bridge) : Bridge :=
  fold_left (perform generateResponse) ops b.

End BridgeSpec.

(** ** Fixtures of the bridge examples *)

Module BridgeFixtures.
Import JSValue ModelBridge BridgeSpec.

Definition echo_request : ToolExecutionRequest :=
  {| toolName := "echo";
     parameters := Some (JObj [("message", JStr "hi")]);
     context := None;
     userIntent := None |}.

Definition echo_result : ToolExecutionResult :=
  {| success := true;
     result := Some {| MCPClient.content :=
                         Some (JArr [JObj [("type", JStr "text");
                                           ("text", JStr "Echo: hi")]]);
                       MCPClient.isError := Some (JBool false) |};
     error := None;
     suggestions := Some [] |}.

(** The interaction recorded at clock reading [n]. *)
Definition interaction_at (fb : option Feedback) (n : nat) : Interaction :=
  {| its_intent := "say hi";
     its_call := echo_request;
     its_result := echo_result;
     its_feedback := fb;
     its_time := Z.of_nat n |}.

(** The interactions of clock readings 1 to 1000. *)
Definition thousand_more : list Interaction :=
  map (interaction_at (Some positive)) (seq 1 1000).

(** A remote process that answers every call with the RPC error
    [{code: -32601, message: 'Unknown tool'}], as [handleMessage] turns it
    into a rejection. *)
Definition unknown_tool_response : JSON :=
  JObj [("jsonrpc", JStr "2.0"); ("id", JNum 2 0);
        ("error", JObj [("code", JNum (-32601) 0);
                        ("message", JStr "Unknown tool")])].

Definition rejecting_transport (_ : string) (_ : option JSON) : MCPClient.Settlement :=
  match MCPClient.reply unknown_tool_response with
  | Ok s => s
  | Throw e => MCPClient.Rejected e
  end.

Definition echo_tool : MCPTool :=
  {| name := "echo"; description := "Echo a message";
     inputSchema := Some (JObj [("type", JStr "object")]) |}.

Definition search_tool : MCPTool :=
  {| name := "search_docs"; description := "Find documents by keyword";
     inputSchema := Some (JObj [("type", JStr "object")]) |}.

(** A model that answers in prose, which is no JSON. *)
Definition chatty_model : nat -> Prompt -> Result string :=
  fun _ _ => Ok "Sure, here are the parameters you asked for.".

(** A bridge that knows [echo] and recorded seven positive interactions
    with it, at clock readings 1 to 7. *)
Definition practised_bridge : Bridge :=
  perform_all chatty_model
    (OpInitialize (Ok tt) (Ok [echo_tool])
     :: map (fun n => OpRecord (interaction_at (Some positive) n)) (seq 1 7))
    create.

(** A bridge initialized twice: the remote process first reported [echo],
    then [search_docs] only. *)
Definition rediscovered_bridge : Bridge :=
  perform_all createModelProvider
    [OpInitialize (Ok tt) (Ok [echo_tool]);
     OpInitialize (Ok tt) (Ok [search_tool])]
    create.

(** The arguments of [what_tools] with a category filter only. *)
Definition in_category (category : string) : SimplifiedMCPServer.WhatToolsArgs :=
  {| SimplifiedMCPServer.arg_category := Some category;
     SimplifiedMCPServer.arg_search := None |}.

(** What the remote process of the discovery examples reports. *)
Definition two_tools : Result (list MCPTool) := Ok [search_tool; echo_tool].

Definition missing_tool_request : ToolExecutionRequest :=
  {| toolName := "missing_tool";
     parameters := Some (JObj []);
     context := None;
     userIntent := None |}.

End BridgeFixtures.

(** ** The tool listing of the transport client (mcp-client.ts) *)

Module ToolListing.
Import JSValue.

(** A tool as [listTools] hands it on: the three properties its callback
    copies from the item of the wire, whatever they hold. Like the property
    names of [get], none of [tools], [name], [description] and [inputSchema]
    exists on a primitive or on an array. *)
Record ListedTool := {
  listed_name : option JSON;
  listed_description : option JSON;
  listed_inputSchema : option JSON
}.

(** The object [listTools] returns; [categories] is always set. *)
Record Listing := {
  listing_tools : list ListedTool;
  listing_totalCount : nat;
  listing_categories : option (list string)
}.

(** [tool.name.toLowerCase()]: only a string has the method. *)
Definition lower_name (v : option JSON) : Result string :=
  match v with
  | Some (JStr s) => Ok (JSText.toLowerCase s)
  | None =>
      Throw (TypeError "Cannot read properties of undefined (reading 'toLowerCase')")
  | Some JNull =>
      Throw (TypeError "Cannot read properties of null (reading 'toLowerCase')")
  | Some _ => Throw (TypeError "tool.name.toLowerCase is not a function")
  end.

(** The chain of tests in the loop of [extractCategories], on the
    lower-cased name. *)
Definition pattern_category (name : string) : string :=
  if JSText.includes name "file" || JSText.includes name "read"
     || JSText.includes name "write"
  then "File Operations"
  else if JSText.includes name "git" || JSText.includes name "repo"
  then "Version Control"
  else if JSText.includes name "search" || JSText.includes name "find"
  then "Search"
  else if JSText.includes name "fetch" || JSText.includes name "http"
          || JSText.includes name "api"
  then "Network"
  else if JSText.includes name "memory" || JSText.includes name "store"
  then "Data Storage"
  else "Utility".

(** The loop of [extractCategories], from the categories added so far. *)
Fixpoint extractCategories_loop (tools : list ListedTool) (categories : list string)
  : Result (list string) :=
  match tools with
  | [] => Ok categories
  | tool :: rest =>
      match lower_name (listed_name tool) with
      | Throw e => Throw e
      | Ok name =>
          extractCategories_loop rest
            (ModelBridge.set_add (pattern_category name) categories)
      end
  end.

(** [extractCategories(tools)]. *)
Definition extractCategories (tools : list ListedTool) : Result (list string) :=
  extractCategories_loop tools [].

(** The callback of [response.tools.map]. *)
Definition listed_tool (tool : JSON) : Result ListedTool :=
  match get (Some tool) "name" with
  | Throw e => Throw e
  | Ok n =>
      match get (Some tool) "description" with
      | Throw e => Throw e
      | Ok d =>
          match get (Some tool) "inputSchema" with
          | Throw e => Throw e
          | Ok s =>
              Ok {| listed_name := n;
                    listed_description := d;
                    listed_inputSchema := s |}
          end
      end
  end.

(** [items.map(callback)]: the first throw of the callback ends it. *)
Fixpoint map_tools (items : list JSON) : Result (list ListedTool) :=
  match items with
  | [] => Ok []
  | item :: rest =>
      match listed_tool item with
      | Throw e => Throw e
      | Ok tool =>
          match map_tools rest with
          | Throw e => Throw e
          | Ok tools => Ok (tool :: tools)
          end
      end
  end.

(** The rest of [listTools] after its [await]. *)
Definition listTools_result (s : MCPClient.Settlement) : Result Listing :=
  match s with
  | MCPClient.Rejected e => Throw e
  | MCPClient.Resolved response =>
      match get response "tools" with
      | Throw e => Throw e
      | Ok (Some (JArr items)) =>
          match map_tools items with
          | Throw e => Throw e
          | Ok tools =>
              match extractCategories tools with
              | Throw e => Throw e
              | Ok categories =>
                  Ok {| listing_tools := tools;
                        listing_totalCount := length tools;
                        listing_categories := Some categories |}
              end
          end
      | Ok None =>
          Throw (TypeError "Cannot read properties of undefined (reading 'map')")
      | Ok (Some JNull) =>
          Throw (TypeError "Cannot read properties of null (reading 'map')")
      | Ok (Some _) => Throw (TypeError "response.tools.map is not a function")
      end
  end.

(** The labels the two chains of keyword tests can give. *)
Definition labels : list string :=
  ["File Operations"; "Version Control"; "Search"; "Network"; "Data Storage";
   "Utility"].

(** An item of the wire that [listTools] accepts: an object whose [name]
    is a string. *)
Definition named_item (item : JSON) : Prop :=
  exists n, get (Some item) "name" = Ok (Some (JStr n)).

End ToolListing.

(** ** Vocabulary of the invariants of the client *)

Module Table.
Import JSValue MCPClient.

(** The pending table, the promises and the timers [ts] agree: a request in
    the table has not been settled, is the only entry of its promise and has
    its own timer among [ts]; a timer of [ts] can only remove the entry of
    its own request; the promise of a [connect] call is not in the table; and
    every armed timer is due after now, within the delay. *)
Record consistent (ts : list Timer) (c : Client) : Prop := {
  co_unsettled : forall k p,
    pendingRequests c !! k = Some p -> settlements p c = [];
  co_unique : forall k k' p,
    pendingRequests c !! k = Some p -> pendingRequests c !! k' = Some p -> k' = k;
  co_armed : forall k p,
    pendingRequests c !! k = Some p ->
    exists tm, In tm ts /\ timer_id tm = k /\ timer_promise tm = p;
  co_timers : forall tm k,
    In tm ts -> pendingRequests c !! k = Some (timer_promise tm) -> k = timer_id tm;
  co_children : forall cp k,
    In cp (children c) -> pendingRequests c !! k <> Some cp;
  co_handshakes : forall ip cp k,
    In (ip, cp) (handshakes c) -> pendingRequests c !! k <> Some cp;
  co_deadline : forall tm,
    In tm (timers c) -> now c < deadline tm <= now c + timeout_ms
}.

(** An event that is no output of a child. *)
Definition silent (ev : Event) : bool :=
  match ev with
  | Stdout _ _ => false
  | _ => true
  end.

(** The ids of the requests written to the child, oldest first. *)
Definition written_ids (c : Client) : list Z := map id (written c).


(** The text of a read that holds whole frames: each line, then a newline. *)
Fixpoint frames (lines : list string) : string :=
  match lines with
  | [] => EmptyString
  | line :: rest => line +:+ String JSText.LF (frames rest)
  end.

(** A line the ['data'] handler keeps as it is: no newline inside, and not
    blank. *)
Definition whole_line (line : string) : Prop :=
  JSText.has_unit JSText.LF line = false /\
  JSText.truthy (JSText.trim line) = true.

(** Every call made on a promise so far was a [reject]. *)
Definition only_rejections (c : Client) : Prop :=
  forall p s, In (p, s) (settled c) -> exists e, s = Rejected e.

(** The response to the handshake of a new client, and a notification. *)
Definition handshake_answer : string :=
  JSText.wire "{'jsonrpc':'2.0','id':1,'result':{}}".

Definition progress_note : string :=
  JSText.wire "{'jsonrpc':'2.0','method':'notifications/progress'}".

(** A session: connect, get the handshake answered, call a tool. *)
Definition calling : list Event :=
  [Connect Session.pipes; Stdout 0%nat handshake_answer; CallTool "echo" None].




(** A session in which the child never writes: the handshake times out and
    the child exits. *)
Definition mute : list Event :=
  [Connect Session.pipes; Clock 30000; ProcExit 0%nat (Some 1); ListTools].

End Table.

(** ** Vocabulary of the properties of the tool cache *)

Module Registry.
Import JSValue ModelBridge BridgeSpec.

(** The entries of a tool cache have distinct keys, and each key is the
    name of its tool. *)
Definition keyed_by_name (m : list (string * MCPTool)) : Prop :=
  List.NoDup (map fst m) /\ Forall (fun e => name (snd e) = fst e) m.

(** The two caches of a bridge agree with the names: the tool cache is
    keyed by name, and so is the usage information. *)
Definition registry_ok (b : Bridge) : Prop :=
  keyed_by_name (toolCache b) /\
  forall k u, usageExamples b !! k = Some u -> usage_name u = k.


(** The suggestion text for one tool. *)
Definition suggestion_for (tool : MCPTool) : string :=
  "Consider using '" +:+ name tool +:+ "' for " +:+ description tool.

(** The last tool of that name in a listing. *)
Definition last_named (k : string) (tools : list MCPTool) : option MCPTool :=
  List.find (fun tool => String.eqb k (name tool)) (rev tools).

(** What the provider of the code answers to every prompt, parsed. *)
Definition mock_answer : JSON :=
  JObj [("examples", JArr []); ("relatedTools", JArr []);
        ("category", JStr "Utility")].

(** A listing in which [echo] comes twice. *)
Definition echo_again : MCPTool :=
  {| name := "echo"; description := "Echo, second edition"; inputSchema := None |}.

Definition repeated_listing : list MCPTool :=
  [BridgeFixtures.echo_tool; BridgeFixtures.search_tool; echo_again].

(** What a remote process answers to [tools/list]: a tool with all three
    properties, and one with a name only. *)
Definition listing_response : option JSON :=
  Some (JObj [("tools",
               JArr [JObj [("name", JStr "read_file");
                           ("description", JStr "Read a file");
                           ("inputSchema", JObj [("type", JStr "object")])];
                     JObj [("name", JStr "Git_Log")]])]).

(** The same with a tool that has no name. *)
Definition nameless_response : option JSON :=
  Some (JObj [("tools", JArr [JObj [("description", JStr "no name")]])]).

(** A transport on which every call succeeds with one text item. *)
Definition echoing_transport (_ : string) (_ : option JSON) : MCPClient.Settlement :=
  MCPClient.Resolved
    (Some (JObj [("content", JArr [JObj [("type", JStr "text");
                                         ("text", JStr "Echo: hi")]])])).

End Registry.

(* ================================================================== *)
(** * Properties *)

Import JSValue Session.

Example trim_blank : JSText.trim "   " = "".
Proof. reflexivity. Qed.

Example trim_inner : JSText.trim "  a b  " = "a b".
Proof. reflexivity. Qed.

Example split_trailing :
  JSText.split JSText.LF (String "a" (String JSText.LF "")) = ["a"; ""].
Proof. reflexivity. Qed.

Example lower_mixed : JSText.toLowerCase "Search_Docs" = "search_docs".
Proof. reflexivity. Qed.

Example includes_mid : JSText.includes "list_files" "file" = true.
Proof. reflexivity. Qed.

Example decimal_12345 : JSText.decimal 12345 = "12345".
Proof. reflexivity. Qed.

Example decimal_0 : JSText.decimal 0 = "0".
Proof. reflexivity. Qed.

Example parse_response :
  parse (JSText.wire "{'jsonrpc':'2.0','id':1,'result':{'tools':[]}}")
  = Ok (JObj [("jsonrpc", JStr "2.0"); ("id", JNum 1 0);
              ("result", JObj [("tools", JArr [])])]).
Proof. vm_compute. reflexivity. Qed.

Example parse_numbers :
  parse (JSText.wire " [ -12.50e1 , 0 , true , null , 'a\nA' ] ")
  = Ok (JArr [JNum (-1250) (-1); JNum 0 0; JBool true; JNull;
              JStr (String "a" (String JSText.LF "A"))]).
Proof. vm_compute. reflexivity. Qed.

Example parse_truncated :
  exists e, parse (JSText.wire "{'jsonrpc':'2.0','id':1,") = Throw e.
Proof. eexists. vm_compute. reflexivity. Qed.

Example parse_tail : exists e, parse (JSText.wire "'result':{}}") = Throw e.
Proof. eexists. vm_compute. reflexivity. Qed.

Example tostring_number : ToString (JNum (-1250) (-1)) = "-125".
Proof. vm_compute. reflexivity. Qed.

Example tostring_fraction : ToString (JArr [JNum 1205 (-3); JNull; JStr "x"]) = "1.205,,x".
Proof. vm_compute. reflexivity. Qed.

(** ** Correlation of responses with pending calls *)

Section Correlation.
Import MCPClient.

Lemma settlements_settle p q s c :
  settlements p (settle q s c)
  = settlements p c ++ (if Nat.eqb q p then [s] else []).
Proof.
  unfold settlements, settle; simpl.
  rewrite List.filter_app, List.map_app. f_equal. simpl.
  destruct (Nat.eqb q p); reflexivity.
Qed.



(** Once the [id] of a message was read, no other read of it throws. *)
Lemma reply_total message v :
  get (Some message) "id" = Ok v -> exists s, reply message = Ok s.
Proof.
  unfold reply. intros Hid.
  destruct message; simpl in *; try discriminate;
    try (eexists; reflexivity).
  destruct (assoc "error" props) as [[|b|m e|str|items|eprops]|]; simpl;
    try (eexists; reflexivity).
  - destruct b; eexists; reflexivity.
  - destruct (negb (m =? 0)); eexists; reflexivity.
  - destruct (JSText.truthy str); eexists; reflexivity.
  - destruct (or_else (assoc "message" eprops) (Some (JStr "Unknown error")));
      eexists; reflexivity.
Qed.

(** [handleMessage] does one of three things. *)
Lemma handleMessage_cases message c :
  (exists e, handleMessage message c = Throw e) \/
  handleMessage message c = Ok c \/
  (exists k q s,
      response_id message = Some k /\
      pendingRequests c !! k = Some q /\
      reply message = Ok s /\
      handleMessage message c
      = Ok (settle q s (with_pendingRequests (delete k (pendingRequests c)) c))).
Proof.
  unfold handleMessage, response_id.
  destruct (get (Some message) "id") as [mid|e] eqn:Hid; [|left; eauto].
  destruct (truthy mid); [|right; left; reflexivity].
  unfold pending_for, delete_for.
  destruct (number_key mid) as [k|] eqn:Hk; [|right; left; reflexivity].
  destruct (pendingRequests c !! k) as [q|] eqn:Hq; [|right; left; reflexivity].
  destruct (reply_total _ _ Hid) as [s Hs]. rewrite Hs.
  right; right. exists k, q, s. auto.
Qed.








Lemma sendRequest_sent request c :
  has_stdin c = true ->
  let c1 := fst (sendRequest request c) in
  snd (sendRequest request c) = next_promise c /\
  next_promise c1 = S (next_promise c) /\
  messageId c1 = messageId c /\
  pendingRequests c1 = <[id request := next_promise c]> (pendingRequests c) /\
  settled c1 = settled c /\
  process c1 = process c /\
  connected c1 = connected c /\
  now c1 = now c /\
  timers c1 = timers c ++ [{| deadline := now c + timeout_ms;
                              timer_id := id request;
                              timer_promise := next_promise c |}] /\
  children c1 = children c /\
  handshakes c1 = handshakes c.
Proof.
  intros H. unfold sendRequest, new_promise, has_stdin in *. simpl.
  rewrite H. simpl. repeat split; reflexivity.
Qed.

Lemma callTool_sent name a c :
  has_stdin c = true ->
  let c1 := fst (callTool name a c) in
  snd (callTool name a c) = next_promise c /\
  next_promise c1 = S (next_promise c) /\
  messageId c1 = js_succ (messageId c) /\
  pendingRequests c1 = <[js_succ (messageId c) := next_promise c]> (pendingRequests c) /\
  settled c1 = settled c /\
  has_stdin c1 = true.
Proof.
  intros H. unfold callTool, getNextId.
  match goal with
  | |- context [sendRequest ?r ?c'] =>
      destruct (sendRequest_sent r c' H)
        as (H1 & H2 & H3 & H4 & H5 & H6 & _)
  end.
  cbv zeta. rewrite H1, H2, H3, H4, H5. unfold has_stdin in *. rewrite H6.
  simpl. repeat split; auto.
Qed.

Lemma js_succ_range n : 0 <= n <= 2 ^ 53 -> 1 <= js_succ n <= 2 ^ 53 /\ n <= js_succ n.
Proof.
  unfold js_succ. intros H. destruct (n <? 2 ^ 53) eqn:E.
  - apply Z.ltb_lt in E. lia.
  - apply Z.ltb_ge in E. lia.
Qed.



(** Below 2^53 the counter hands out a new id each time: the ids of a
    batch are distinct. *)
Lemma callTools_ids_distinct reqs : forall c c1 calls,
  0 <= messageId c ->
  has_stdin c = true ->
  messageId c + Z.of_nat (length reqs) <= 2 ^ 53 ->
  callTools reqs c = (c1, calls) ->
  (forall k, In k (map fst calls) -> messageId c < k) /\
  List.NoDup (map fst calls).
Proof.
  induction reqs as [|[name a] reqs IH]; intros c c1 calls Hm Hs Hb Hc;
    simpl in Hc.
  - inversion Hc; subst. simpl. split; [contradiction|constructor].
  - destruct (callTool name a c) as [c' p0] eqn:Hct.
    destruct (callTools reqs c') as [c2 calls'] eqn:Hrest.
    inversion Hc; subst c2 calls; clear Hc.
    pose proof (callTool_sent name a c Hs) as Hsent. rewrite Hct in Hsent.
    simpl in Hsent. destruct Hsent as (_ & _ & Hid & _ & _ & Hs').
    simpl length in Hb. rewrite Nat2Z.inj_succ in Hb.
    assert (messageId c' = messageId c + 1) as Hid'.
    { rewrite Hid. unfold js_succ.
      destruct (messageId c <? 2 ^ 53) eqn:E; [reflexivity|].
      apply Z.ltb_ge in E. lia. }
    destruct (IH c' c1 calls') as [Hlt Hnd]; try assumption; try lia.
    simpl. split.
    + intros k [<-|Hin]; [lia|]. pose proof (Hlt k Hin). lia.
    + constructor; [|assumption].
      intros Hin. pose proof (Hlt _ Hin). lia.
Qed.



End Correlation.

(** ** States a client can reach *)

Section Reachable.
Import MCPClient.

Local Ltac frame H :=
  destruct H as [Hc Hp Hs Ht Hch Hh]; constructor; simpl; auto.

Lemma wf_create t : wf (create t).
Proof.
  constructor; simpl; try contradiction; try lia.
  intros k p H. rewrite lookup_empty in H. discriminate.
Qed.

Lemma wf_log e c : wf c -> wf (log e c).
Proof. intros H. frame H. Qed.

Lemma wf_with_connected b c : wf c -> wf (with_connected b c).
Proof. intros H. frame H. Qed.

Lemma wf_with_process x c : wf c -> wf (with_process x c).
Proof. intros H. frame H. Qed.

Lemma wf_settle p s c :
  wf c -> (p < next_promise c)%nat -> wf (settle p s c).
Proof.
  intros H Hlt. frame H.
  intros q s' Hin. apply in_app_or in Hin. destruct Hin as [Hin|[Heq|[]]].
  - eauto.
  - inversion Heq; subst. assumption.
Qed.

Lemma wf_delete k c :
  wf c -> wf (with_pendingRequests (delete k (pendingRequests c)) c).
Proof.
  intros H. frame H.
  intros k' p Hl. apply lookup_delete_Some in Hl. destruct Hl. auto.
Qed.

Lemma wf_new_promise c :
  wf c -> wf (fst (new_promise c)) /\
          (snd (new_promise c) < next_promise (fst (new_promise c)))%nat.
Proof.
  intros H. split; [|simpl; lia].
  destruct H as [Hc Hp Hs Ht Hch Hh]; constructor; simpl; auto.
  - intros k p Hl. destruct (Hp k p Hl). split; [lia|assumption].
  - intros p s Hin. pose proof (Hs p s Hin). lia.
  - intros tm Hin. destruct (Ht tm Hin). split; [lia|assumption].
  - intros cp Hin. pose proof (Hch cp Hin). lia.
  - intros ip cp Hin. destruct (Hh ip cp Hin). split; lia.
Qed.

Lemma wf_getNextId c :
  wf c ->
  wf (fst (getNextId c)) /\
  1 <= snd (getNextId c) <= messageId (fst (getNextId c)).
Proof.
  intros H. unfold getNextId. simpl.
  destruct (js_succ_range _ (wf_counter c H)) as [Hr Hle].
  split; [|lia].
  destruct H as [Hc Hp Hs Ht Hch Hh]; constructor; simpl; auto.
  - lia.
  - intros k p Hl. destruct (Hp k p Hl). split; [assumption|lia].
  - intros tm Hin. destruct (Ht tm Hin). split; [assumption|lia].
Qed.

Lemma wf_sendRequest request c :
  wf c -> 1 <= id request <= messageId c ->
  wf (fst (sendRequest request c)).
Proof.
  intros H Hid. unfold sendRequest.
  destruct (wf_new_promise c H) as [H' Hlt].
  destruct (new_promise c) as [c' p] eqn:Hn. simpl in H', Hlt.
  assert (messageId c' = messageId c) as Hm
    by (unfold new_promise in Hn; inversion Hn; reflexivity).
  destruct (has_stdin c').
  - simpl. destruct H' as [Hc Hp Hs Ht Hch Hh]; constructor; simpl; auto.
    + intros k q Hl. destruct (decide (id request = k)) as [<-|Hne].
      * rewrite lookup_insert_eq in Hl. inversion Hl; subst. split; [assumption|lia].
      * rewrite lookup_insert_ne in Hl by assumption. auto.
    + intros tm Hin. apply in_app_or in Hin. destruct Hin as [Hin|[<-|[]]].
      * auto.
      * simpl. split; [assumption|lia].
  - simpl. apply wf_settle; assumption.
Qed.

Lemma wf_fire tm c :
  wf c -> (timer_promise tm < next_promise c)%nat -> wf (fire tm c).
Proof.
  intros H Hlt. unfold fire.
  destruct (pendingRequests c !! timer_id tm); [|assumption].
  apply wf_settle; [apply wf_delete; assumption|assumption].
Qed.

(** The three shapes of the state after one line. *)
Lemma on_line_shape line c :
  on_line line c = c \/
  (exists e, on_line line c = log (FailedToParse line e) c) \/
  (exists k q s,
      pendingRequests c !! k = Some q /\
      on_line line c
      = settle q s (with_pendingRequests (delete k (pendingRequests c)) c)).
Proof.
  unfold on_line.
  destruct (parse line) as [message|e]; [|right; left; eauto].
  destruct (handleMessage_cases message c)
    as [[e H]|[H|(k & q & s & H1 & H2 & H3 & H)]]; rewrite H.
  - right; left; eauto.
  - left; reflexivity.
  - right; right. exists k, q, s. auto.
Qed.

Lemma wf_on_line line c : wf c -> wf (on_line line c).
Proof.
  intros H.
  destruct (on_line_shape line c) as [E|[[e E]|(k & q & s & Hq & E)]]; rewrite E.
  - assumption.
  - apply wf_log; assumption.
  - apply wf_settle; [apply wf_delete; assumption|].
    simpl. exact (proj1 (wf_pending c H k q Hq)).
Qed.

Lemma wf_receive lines c : wf c -> wf (receive lines c).
Proof.
  revert c. induction lines as [|l ls IH]; intros c H; simpl; [assumption|].
  apply IH, wf_on_line, H.
Qed.

Lemma wf_on_data chunk c : wf c -> wf (on_data chunk c).
Proof. apply wf_receive. Qed.

Lemma wf_on_error cp e c : wf c -> In cp (children c) -> wf (on_error cp e c).
Proof.
  intros H Hin. unfold on_error.
  destruct (negb (connected (log (ProcessError e) c))).
  - apply wf_settle; [apply wf_log; assumption|].
    simpl. exact (wf_children c H cp Hin).
  - apply wf_log; assumption.
Qed.

Lemma wf_on_exit code c : wf c -> wf (on_exit code c).
Proof. intros H. apply wf_with_connected, wf_log, H. Qed.

Lemma wf_disconnect c : wf c -> wf (disconnect c).
Proof. intros H. apply wf_with_connected, wf_with_process, H. Qed.

Lemma wf_listTools c : wf c -> wf (fst (listTools c)).
Proof.
  intros H. unfold listTools.
  destruct (wf_getNextId c H) as [H' Hid].
  destruct (getNextId c) as [c' n]. simpl in *.
  apply wf_sendRequest; assumption.
Qed.

Lemma wf_callTool name a c : wf c -> wf (fst (callTool name a c)).
Proof.
  intros H. unfold callTool.
  destruct (wf_getNextId c H) as [H' Hid].
  destruct (getNextId c) as [c' n]. simpl in *.
  apply wf_sendRequest; assumption.
Qed.

Lemma wf_connect spawned c : wf c -> wf (fst (connect spawned c)).
Proof.
  intros H. unfold connect.
  destruct (wf_new_promise c H) as [H' Hlt].
  destruct (new_promise c) as [c' cp]. simpl in H', Hlt.
  destruct (negb (stdin spawned) || negb (stdout spawned)).
  - simpl. apply wf_settle; [apply wf_with_process; assumption|assumption].
  - assert (wf (with_children (children (with_process (Some spawned) c') ++ [cp])
                  (with_process (Some spawned) c'))) as H1.
    { destruct H' as [Hc Hp Hs Ht Hch Hh]; constructor; simpl; auto.
      intros q Hin. apply in_app_or in Hin. destruct Hin as [Hin|[<-|[]]]; auto. }
    destruct (wf_getNextId _ H1) as [H2 Hid].
    assert (next_promise c'
            <= next_promise (fst (getNextId
                 (with_children (children (with_process (Some spawned) c') ++ [cp])
                    (with_process (Some spawned) c')))))%nat as Hmono
      by (simpl; lia).
    destruct (getNextId _) as [c2 n]. simpl in H2, Hid, Hmono.
    pose proof (wf_sendRequest {| id := n; method := "initialize";
                                  params := Some initialize_params |} c2 H2 Hid) as H3.
    assert (snd (sendRequest {| id := n; method := "initialize";
                                params := Some initialize_params |} c2)
            < next_promise (fst (sendRequest {| id := n; method := "initialize";
                                params := Some initialize_params |} c2)) /\
            next_promise c2
            <= next_promise (fst (sendRequest {| id := n; method := "initialize";
                                params := Some initialize_params |} c2)))%nat as Hip.
    { unfold sendRequest, new_promise. simpl.
      destruct (has_stdin _); simpl; lia. }
    destruct (sendRequest _ c2) as [c3 ip]. simpl in *.
    destruct H3 as [Hc Hp Hs Ht Hch Hh]; constructor; simpl; auto.
    intros ip' cp' Hin. apply in_app_or in Hin.
    destruct Hin as [Hin|[Heq|[]]]; [auto|].
    inversion Heq; subst. split; lia.
Qed.

Lemma wf_run_reactions queue : forall c,
  wf c ->
  (forall ip cp, In (ip, cp) queue ->
     (ip < next_promise c)%nat /\ (cp < next_promise c)%nat) ->
  wf (run_reactions queue c) /\
  next_promise (run_reactions queue c) = next_promise c.
Proof.
  induction queue as [|[ip cp] queue IH]; intros c H Hq; simpl.
  - split; [|reflexivity].
    destruct H as [Hc Hp Hs Ht Hch Hh]; constructor; simpl; auto.
  - assert (cp < next_promise c)%nat as Hcp
      by (apply (Hq ip cp); left; reflexivity).
    assert (forall ip' cp', In (ip', cp') queue ->
              (ip' < next_promise c)%nat /\ (cp' < next_promise c)%nat) as Hq'
      by (intros; apply Hq; right; assumption).
    destruct (outcome ip c) as [[v|e]|].
    + apply (IH (settle cp (Resolved None) (with_connected true c))); [|exact Hq'].
      apply wf_settle; [apply wf_with_connected; assumption|assumption].
    + apply (IH (settle cp (Rejected e) c)); [|exact Hq'].
      apply wf_settle; assumption.
    + destruct (IH c H Hq') as [H' Hnp]. split; [|simpl; assumption].
      destruct H' as [Hc Hp Hs Ht Hch Hh]; constructor; simpl; auto.
      intros ip' cp' [Heq|Hin]; [|auto].
      inversion Heq; subst. rewrite Hnp. apply (Hq ip' cp'). left; reflexivity.
Qed.

Lemma fire_next_promise tm c : next_promise (fire tm c) = next_promise c.
Proof. unfold fire. destruct (pendingRequests c !! timer_id tm); reflexivity. Qed.

Lemma wf_expire tm c :
  wf c -> (timer_promise tm < next_promise c)%nat ->
  wf (expire c tm) /\ next_promise (expire c tm) = next_promise c.
Proof.
  intros H Hlt. unfold expire.
  pose proof (wf_fire tm c H Hlt) as Hf.
  destruct (wf_run_reactions (handshakes (fire tm c)) (fire tm c) Hf
              (wf_handshakes _ Hf)) as [Hw Hn].
  split; [assumption|]. rewrite Hn. apply fire_next_promise.
Qed.

Lemma wf_fires due : forall c,
  wf c ->
  (forall tm, In tm due -> (timer_promise tm < next_promise c)%nat) ->
  wf (fold_left expire due c).
Proof.
  induction due as [|tm due IH]; intros c H Hd; simpl; [assumption|].
  destruct (wf_expire tm c H (Hd tm (or_introl eq_refl))) as [Hw Hn].
  apply IH; [assumption|].
  intros tm' Hin. rewrite Hn. apply Hd. right; assumption.
Qed.

Lemma wf_advance t c : wf c -> wf (advance t c).
Proof.
  intros H. unfold advance. apply wf_fires.
  - destruct H as [Hc Hp Hs Ht Hch Hh]; constructor; simpl; auto.
    intros tm Hin. apply List.filter_In in Hin. destruct Hin. auto.
  - simpl. intros tm Hin. apply List.filter_In in Hin. destruct Hin as [Hin _].
    exact (proj1 (wf_timers c H tm Hin)).
Qed.

Lemma installed_In child c : installed child c = true -> In child (children c).
Proof.
  unfold installed. intros H. apply existsb_exists in H.
  destruct H as (x & Hin & Heq). apply Nat.eqb_eq in Heq. subst. assumption.
Qed.

Lemma wf_task ev c : wf c -> wf (task ev c).
Proof.
  intros H. destruct ev; simpl.
  - apply wf_connect, H.
  - apply wf_disconnect, H.
  - apply wf_listTools, H.
  - apply wf_callTool, H.
  - destruct (installed child c); [apply wf_on_data|]; assumption.
  - destruct (installed child c); [apply wf_log|]; assumption.
  - destruct (installed child c) eqn:E; [|assumption].
    apply wf_on_error; [assumption|]. apply installed_In, E.
  - destruct (installed child c); [apply wf_on_exit|]; assumption.
  - apply wf_advance, H.
Qed.

Lemma wf_step c ev : wf c -> wf (step c ev).
Proof.
  intros H. unfold step.
  apply wf_run_reactions; [apply wf_task, H|].
  exact (wf_handshakes _ (wf_task ev c H)).
Qed.

(** Every client reached from a fresh one is well formed. *)
Lemma wf_run evs : forall c, wf c -> wf (run evs c).
Proof.
  induction evs as [|ev evs IH]; intros c H; simpl; [assumption|].
  apply IH, wf_step, H.
Qed.

End Reachable.

(** ** The session of the examples *)

Section SessionExamples.
Import MCPClient.

Example connected_client_is_connected :
  connected connected_client = true /\
  outcome 0%nat connected_client = Some (Resolved None) /\
  pendingRequests connected_client = ∅.
Proof. vm_compute. auto. Qed.


Example two_calls_settled :
  let c := receive answers_reversed (fst (callTools two_calls connected_client)) in
  settlements 2%nat c = [Rejected (Error "Unknown tool")] /\
  settlements 3%nat c = [Resolved (Some (JObj [("content", JArr [])]))] /\
  pendingRequests c = ∅.
Proof. vm_compute. auto. Qed.

Lemma connected_client_wf : wf connected_client.
Proof. apply wf_run, wf_create. Qed.

End SessionExamples.


(** ** Timeouts *)

Section Timeouts.
Import MCPClient Timeout.

Variables (k : Z) (p : promise) (d : Z).

Local Ltac keep H :=
  destruct H as [Hch Hh Hu Hid Hp Ht]; constructor; simpl; auto.
































End Timeouts.

Section Expiry.
Import MCPClient Timeout.

Variables (k : Z) (p : promise) (d : Z).












End Expiry.


(** The request of [callTool('echo')] on the connected client: the counter
    gives it id 2. *)
Local Abbreviation echo_sent :=
  (MCPClient.sendRequest
     {| MCPClient.id := 2; MCPClient.method := "tools/call";
        MCPClient.params := Some (JObj [("name", JStr "echo")]) |}
     (fst (MCPClient.getNextId connected_client))).


Example echo_sent_is_callTool :
  echo_sent = MCPClient.callTool "echo" None connected_client.
Proof. vm_compute. reflexivity. Qed.

Example timed_out_request_text :
  Timeout.timed_out 2 = MCPClient.Rejected (Error "Request 2 timed out").
Proof. reflexivity. Qed.

Example late_response_dropped :
  let c := MCPClient.run
             [MCPClient.CallTool "echo" None; MCPClient.Clock 30000]
             connected_client in
  MCPClient.on_line (JSText.wire "{'jsonrpc':'2.0','id':2,'result':{}}") c = c /\
  MCPClient.settlements 2%nat c = [MCPClient.Rejected (Error "Request 2 timed out")].
Proof. vm_compute. auto. Qed.

(** ** Reads and lines *)

Section Framing.
Import MCPClient SplitFrame.

Lemma split_nonempty sep s : JSText.split sep s <> [].
Proof.
  destruct s as [|c r]; simpl; [discriminate|].
  destruct (Ascii.eqb c sep); [discriminate|].
  destruct (JSText.split sep r); discriminate.
Qed.

(** Splitting distributes over a separator. *)
Lemma split_at_separator sep a b :
  JSText.split sep (a +:+ String sep b) = JSText.split sep a ++ JSText.split sep b.
Proof.
  induction a as [|c a IH]; simpl.
  - rewrite Ascii.eqb_refl. reflexivity.
  - destruct (Ascii.eqb c sep).
    + rewrite IH. reflexivity.
    + rewrite IH. pose proof (split_nonempty sep a) as Hne.
      destruct (JSText.split sep a); [contradiction|reflexivity].
Qed.

Lemma split_without_separator sep s :
  JSText.has_unit sep s = false -> JSText.split sep s = [s].
Proof.
  induction s as [|c r IH]; simpl; intros H; [reflexivity|].
  apply orb_false_iff in H. destruct H as [Hc Hr].
  rewrite Hc, (IH Hr). reflexivity.
Qed.

Lemma lines_of_at_newline a b :
  lines_of (a +:+ String JSText.LF b) = lines_of a ++ lines_of b.
Proof.
  unfold lines_of. rewrite split_at_separator. apply List.filter_app.
Qed.

Lemma lines_of_line line :
  JSText.has_unit JSText.LF line = false ->
  JSText.truthy (JSText.trim line) = true ->
  lines_of (line +:+ String JSText.LF "") = [line].
Proof.
  intros Hn Ht. rewrite lines_of_at_newline. unfold lines_of.
  rewrite (split_without_separator _ _ Hn). simpl. rewrite Ht. reflexivity.
Qed.

Lemma on_data_receive chunk c : on_data chunk c = receive (lines_of chunk) c.
Proof. reflexivity. Qed.

Lemma receive_app l1 l2 c : receive (l1 ++ l2) c = receive l2 (receive l1 c).
Proof. unfold receive. apply fold_left_app. Qed.

(** C3, as the code has it. Each read is split on line boundaries by itself
    and each of its non-blank lines is parsed as one message; nothing is
    kept from one read to the next. So two reads process the lines of the
    first and then the lines of the second; when the first read ends at a
    line boundary that is what one read of the whole text processes; and a
    frame that arrives whole in a read is processed as exactly one
    message. *)
Theorem reads_are_split_independently :
  forall (c : Client) (chunk1 chunk2 line : string),
    on_data chunk2 (on_data chunk1 c)
    = receive (lines_of chunk1 ++ lines_of chunk2) c /\
    on_data chunk2 (on_data (chunk1 +:+ String JSText.LF "") c)
    = on_data (chunk1 +:+ String JSText.LF chunk2) c /\
    (JSText.has_unit JSText.LF line = false ->
     JSText.truthy (JSText.trim line) = true ->
     on_data (line +:+ String JSText.LF "") c = on_line line c).
Proof.
  intros c chunk1 chunk2 line. split; [|split].
  - rewrite receive_app. reflexivity.
  - rewrite !on_data_receive, !lines_of_at_newline, !receive_app.
    reflexivity.
  - intros Hn Ht. rewrite on_data_receive, (lines_of_line _ Hn Ht). reflexivity.
Qed.

(** The response of [SplitFrame], read whole, is one message: it settles
    the call. *)
Lemma reads_are_split_witness :
  JSText.has_unit JSText.LF (JSText.wire "{'jsonrpc':'2.0','id':2,'result':{}}") = false /\
  JSText.truthy (JSText.trim (JSText.wire "{'jsonrpc':'2.0','id':2,'result':{}}")) = true /\
  on_data frame waiting_client
  = on_line (JSText.wire "{'jsonrpc':'2.0','id':2,'result':{}}") waiting_client.
Proof.
  assert (JSText.has_unit JSText.LF
            (JSText.wire "{'jsonrpc':'2.0','id':2,'result':{}}") = false) as Hn
    by (vm_compute; reflexivity).
  assert (JSText.truthy
            (JSText.trim (JSText.wire "{'jsonrpc':'2.0','id':2,'result':{}}")) = true)
    as Ht by (vm_compute; reflexivity).
  split; [exact Hn|]. split; [exact Ht|].
  exact (proj2 (proj2 (reads_are_split_independently waiting_client
                         EmptyString EmptyString
                         (JSText.wire "{'jsonrpc':'2.0','id':2,'result':{}}")))
               Hn Ht).
Defined.

(** C3 as stated fails. The frame of [SplitFrame] cut into two reads is
    not put together again: each read is parsed by itself, both fail, the
    call stays pending and unsettled; the same bytes in one read settle
    it. *)
Lemma split_frame_is_not_reassembled :
  first_read +:+ second_read = frame /\
  pendingRequests waiting_client !! 2 = Some 2%nat /\
  settlements 2%nat (on_data frame waiting_client)
  = [Resolved (Some (JObj []))] /\
  pendingRequests (on_data frame waiting_client) !! 2 = None /\
  settlements 2%nat (on_data second_read (on_data first_read waiting_client)) = [] /\
  pendingRequests (on_data second_read (on_data first_read waiting_client)) !! 2
  = Some 2%nat /\
  exists e1 e2,
    console (on_data second_read (on_data first_read waiting_client))
    = [FailedToParse first_read e1;
       FailedToParse (JSText.wire "'result':{}}") e2].
Proof.
  split; [vm_compute; reflexivity|]. split; [vm_compute; reflexivity|].
  split; [vm_compute; reflexivity|]. split; [vm_compute; reflexivity|].
  split; [vm_compute; reflexivity|]. split; [vm_compute; reflexivity|].
  eexists. eexists. vm_compute. reflexivity.
Qed.

End Framing.

(** ** The child process exits or fails *)

Section ProcessEvents.
Import MCPClient SplitFrame ChildExit.




End ProcessEvents.

(** ** The interaction history *)

Section History.
Import ModelBridge BridgeSpec.

Variable generateResponse : nat -> Prompt -> Result string.

Lemma slice_last_length {A} n (xs : list A) :
  length (slice_last n xs) = Nat.min n (length xs).
Proof. unfold slice_last. rewrite List.length_skipn. lia. Qed.

Lemma slice_last_all {A} n (xs : list A) :
  (length xs <= n)%nat -> slice_last n xs = xs.
Proof.
  intros H. unfold slice_last.
  replace (length xs - n)%nat with O by lia. reflexivity.
Qed.

(** Cutting to the last [n], adding, and cutting again is cutting once. *)
Lemma slice_last_app {A} n (xs ys : list A) :
  slice_last n (slice_last n xs ++ ys) = slice_last n (xs ++ ys).
Proof.
  unfold slice_last.
  assert (skipn (length xs - n) xs ++ ys = skipn (length xs - n) (xs ++ ys)) as E.
  { rewrite List.skipn_app.
    replace (length xs - n - length xs)%nat with O by lia. reflexivity. }
  rewrite E, List.skipn_skipn. f_equal.
  rewrite List.length_skipn, !List.length_app. lia.
Qed.

Lemma slice_last_suffix {A} n (xs : list A) :
  exists older, xs = older ++ slice_last n xs.
Proof.
  exists (firstn (length xs - n) xs). unfold slice_last.
  symmetry. apply List.firstn_skipn.
Qed.

Lemma trainOnInteraction_data intent call res fb now b :
  trainingData (trainOnInteraction intent call res fb now b)
  = slice_last 1000
      (trainingData b ++
       [entry_of {| its_intent := intent; its_call := call; its_result := res;
                    its_feedback := fb; its_time := now |}]).
Proof.
  unfold trainOnInteraction. simpl.
  match goal with |- context [Nat.ltb 1000 (length ?l)] =>
    destruct (Nat.ltb 1000 (length l)) eqn:E end.
  - reflexivity.
  - apply Nat.ltb_ge in E. symmetry. apply slice_last_all. exact E.
Qed.

Lemma record_data b i :
  trainingData (record b i) = slice_last 1000 (trainingData b ++ [entry_of i]).
Proof. destruct i. apply trainOnInteraction_data. Qed.

Lemma record_bounded b i : (length (trainingData (record b i)) <= 1000)%nat.
Proof. rewrite record_data, slice_last_length. lia. Qed.

Lemma record_all_data xs : forall b,
  (length (trainingData b) <= 1000)%nat ->
  trainingData (fold_left record xs b)
  = slice_last 1000 (trainingData b ++ map entry_of xs).
Proof.
  induction xs as [|i xs IH]; intros b Hb; simpl.
  - rewrite app_nil_r. symmetry. apply slice_last_all, Hb.
  - rewrite IH by apply record_bounded.
    rewrite record_data, slice_last_app, <- app_assoc. reflexivity.
Qed.

(** Nothing but [trainOnInteraction] writes the history. *)
Lemma ask_data prompt b : trainingData (fst (ask generateResponse prompt b)) = trainingData b.
Proof. reflexivity. Qed.

Lemma generateToolUsageInfo_data tool b :
  trainingData (fst (generateToolUsageInfo generateResponse tool b)) = trainingData b.
Proof.
  unfold generateToolUsageInfo, ask. simpl.
  destruct (generateResponse _ _) as [text|e]; [|reflexivity].
  destruct (usage_of_response tool text); reflexivity.
Qed.

Lemma generateToolUsageExamples_loop_data entries : forall b,
  trainingData (fst (generateToolUsageExamples_loop generateResponse entries b))
  = trainingData b.
Proof.
  induction entries as [|[toolName tool] rest IH]; intros b; simpl; [reflexivity|].
  destruct (usageExamples b !! toolName); [apply IH|].
  pose proof (generateToolUsageInfo_data tool b) as H.
  destruct (generateToolUsageInfo generateResponse tool b) as [b' [info|e]];
    simpl in *; [|assumption].
  rewrite IH. simpl. assumption.
Qed.

Lemma cacheAvailableTools_data listed b :
  trainingData (fst (cacheAvailableTools listed b)) = trainingData b.
Proof. destruct listed; reflexivity. Qed.

Lemma initialize_data connected listed b :
  trainingData (fst (initialize generateResponse connected listed b)) = trainingData b.
Proof.
  unfold initialize. destruct connected; [|reflexivity].
  pose proof (cacheAvailableTools_data listed b) as H.
  destruct (cacheAvailableTools listed b) as [b' [u|e]]; simpl in *; [|assumption].
  unfold generateToolUsageExamples.
  rewrite generateToolUsageExamples_loop_data. assumption.
Qed.

Lemma discoverTools_data listed b :
  trainingData (fst (discoverTools listed b)) = trainingData b.
Proof.
  unfold discoverTools. destruct (toolCache b); [|reflexivity].
  pose proof (cacheAvailableTools_data listed b) as H.
  destruct (cacheAvailableTools listed b) as [b' [u|e]]; simpl in *; assumption.
Qed.

Lemma getToolUsage_data toolName b :
  trainingData (fst (getToolUsage generateResponse toolName b)) = trainingData b.
Proof.
  unfold getToolUsage. destruct (usageExamples b !! toolName); [reflexivity|].
  destruct (cache_get toolName (toolCache b)) as [tool|]; [|reflexivity].
  pose proof (generateToolUsageInfo_data tool b) as H.
  destruct (generateToolUsageInfo generateResponse tool b) as [b' [info|e]];
    simpl in *; assumption.
Qed.

Lemma optimizeToolRequest_data request b :
  trainingData (fst (optimizeToolRequest generateResponse request b)) = trainingData b.
Proof.
  unfold optimizeToolRequest, ask.
  destruct (cache_get (toolName request) (toolCache b)); [|reflexivity].
  simpl. destruct (generateResponse _ _) as [text|e]; [|reflexivity].
  destruct (parse text); reflexivity.
Qed.

Lemma executeToolCall_data transport request b :
  trainingData (fst (executeToolCall generateResponse transport request b))
  = trainingData b.
Proof.
  unfold executeToolCall.
  pose proof (optimizeToolRequest_data request b) as H.
  destruct (optimizeToolRequest generateResponse request b) as [b' r]. simpl in H.
  destruct (MCPClient.callTool_result _); simpl; assumption.
Qed.

Lemma perform_bounded b op :
  (length (trainingData b) <= 1000)%nat ->
  (length (trainingData (perform generateResponse b op)) <= 1000)%nat.
Proof.
  intros H. destruct op; simpl.
  - rewrite initialize_data. assumption.
  - rewrite discoverTools_data. assumption.
  - rewrite getToolUsage_data. assumption.
  - rewrite executeToolCall_data. assumption.
  - apply record_bounded.
Qed.

Lemma perform_all_bounded ops : forall b,
  (length (trainingData b) <= 1000)%nat ->
  (length (trainingData (perform_all generateResponse ops b)) <= 1000)%nat.
Proof.
  induction ops as [|op ops IH]; intros b H; simpl; [assumption|].
  apply IH, perform_bounded, H.
Qed.

End History.

(** C9. Whatever is done to a bridge, its history holds at most 1000
    records; the history after any sequence of [record] operations on a new
    bridge is the last 1000 entries, in insertion order; and after 1001 of
    them the history is the other 1000, in insertion order, without the
    first entry (which is absent from it unless a later entry equals it). *)
Theorem history_is_bounded_fifo :
  forall (generateResponse : nat -> ModelBridge.Prompt -> Result string)
         (ops : list BridgeSpec.Op)
         (first : BridgeSpec.Interaction) (others : list BridgeSpec.Interaction),
    length others = 1000%nat ->
    (length (ModelBridge.trainingData
               (BridgeSpec.perform_all generateResponse ops ModelBridge.create))
     <= 1000)%nat /\
    (forall xs,
       ModelBridge.trainingData (fold_left BridgeSpec.record xs ModelBridge.create)
       = ModelBridge.slice_last 1000 (map BridgeSpec.entry_of xs)) /\
    ModelBridge.trainingData
      (fold_left BridgeSpec.record (first :: others) ModelBridge.create)
    = map BridgeSpec.entry_of others /\
    (~ In (BridgeSpec.entry_of first) (map BridgeSpec.entry_of others) ->
     ~ In (BridgeSpec.entry_of first)
          (ModelBridge.trainingData
             (fold_left BridgeSpec.record (first :: others) ModelBridge.create))).
Proof.
  intros gen ops first others Hlen.
  assert (forall xs,
            ModelBridge.trainingData (fold_left BridgeSpec.record xs ModelBridge.create)
            = ModelBridge.slice_last 1000 (map BridgeSpec.entry_of xs)) as Hall.
  { intros xs. rewrite record_all_data by (simpl; lia). reflexivity. }
  assert (ModelBridge.trainingData
            (fold_left BridgeSpec.record (first :: others) ModelBridge.create)
          = map BridgeSpec.entry_of others) as Hlast.
  { rewrite Hall. unfold ModelBridge.slice_last. simpl length.
    rewrite List.length_map, Hlen. reflexivity. }
  split; [apply perform_all_bounded; simpl; lia|].
  split; [exact Hall|].
  split; [exact Hlast|].
  rewrite Hlast. auto.
Qed.

(** 1001 interactions recorded at clock readings 0 to 1000: the one of
    reading 0 is evicted. *)
Lemma history_is_bounded_witness :
  length BridgeFixtures.thousand_more = 1000%nat /\
  ModelBridge.trainingData
    (fold_left BridgeSpec.record
       (BridgeFixtures.interaction_at None 0 :: BridgeFixtures.thousand_more)
       ModelBridge.create)
  = map BridgeSpec.entry_of BridgeFixtures.thousand_more.
Proof.
  assert (length BridgeFixtures.thousand_more = 1000%nat) as Hlen
    by (vm_compute; reflexivity).
  split; [exact Hlen|].
  exact (proj1 (proj2 (proj2 (history_is_bounded_fifo
                                ModelBridge.createModelProvider []
                                (BridgeFixtures.interaction_at None 0)
                                BridgeFixtures.thousand_more Hlen)))).
Defined.

Example evicted_record_is_absent :
  existsb (fun d => ModelBridge.timestamp d =? 0)
    (ModelBridge.trainingData
       (fold_left BridgeSpec.record
          (BridgeFixtures.interaction_at None 0 :: BridgeFixtures.thousand_more)
          ModelBridge.create))
  = false.
Proof. vm_compute. reflexivity. Qed.

(** ** Execution *)

Section Execution.
Import ModelBridge BridgeSpec.

Variable generateResponse : nat -> Prompt -> Result string.

(** [executeToolCall] has no path that throws. *)
Lemma executeToolCall_returns transport request b :
  exists r, snd (executeToolCall generateResponse transport request b) = Ok r.
Proof.
  unfold executeToolCall.
  destruct (optimizeToolRequest generateResponse request b) as [b1 opt].
  destruct (MCPClient.callTool_result _); eexists; reflexivity.
Qed.

(** C5. [executeToolCall] returns a result record for every request,
    whatever the model and the transport do; the record holds suggestions
    and either a result payload or an error message; and when the call of
    the tool throws, [success] is false, [error] is the message of what was
    thrown (or "Unknown error occurred" for something that is no [Error])
    and the suggestions are the three fixed ones. *)
Theorem execute_never_raises :
  forall (transport : string -> option JSON -> MCPClient.Settlement)
         (request : ToolExecutionRequest) (b : Bridge),
    let optimized := snd (optimizeToolRequest generateResponse request b) in
    let called :=
      MCPClient.callTool_result
        (transport (toolName optimized) (parameters optimized)) in
    exists r,
      snd (executeToolCall generateResponse transport request b) = Ok r /\
      (exists l, suggestions r = Some l) /\
      ((exists payload, result r = Some payload /\ error r = None) \/
       (exists msg, error r = Some msg /\ result r = None)) /\
      (forall e, called = Throw e ->
         success r = false /\
         error r = Some (message_or e "Unknown error occurred") /\
         suggestions r = Some (generateErrorSuggestions request) /\
         length (generateErrorSuggestions request) = 3%nat) /\
      (forall kind msg, called = Throw (ErrorObject kind msg) ->
         error r = Some msg).
Proof.
  intros transport request b optimized called.
  unfold executeToolCall. subst called optimized.
  destruct (optimizeToolRequest generateResponse request b) as [b1 opt]. simpl.
  destruct (MCPClient.callTool_result
              (transport (toolName opt) (parameters opt))) as [res|err].
  - eexists. split; [reflexivity|]. simpl.
    split; [eauto|]. split; [left; eauto|].
    split; intros; discriminate.
  - eexists. split; [reflexivity|]. simpl.
    split; [eauto|]. split; [right; eauto|].
    split.
    + intros e He. inversion He; subst. auto.
    + intros kind msg He. inversion He; subst. reflexivity.
Qed.

End Execution.

(** A call of a tool the remote process does not know: the RPC error comes
    back as a result record with [success] false, the message of the error
    and the three suggestions. *)
Lemma execute_never_raises_witness :
  MCPClient.callTool_result
    (BridgeFixtures.rejecting_transport "missing_tool" (Some (JObj [])))
  = Throw (Error "Unknown tool") /\
  snd (ModelBridge.executeToolCall ModelBridge.createModelProvider
         BridgeFixtures.rejecting_transport BridgeFixtures.missing_tool_request
         ModelBridge.create)
  = Ok {| ModelBridge.success := false;
          ModelBridge.result := None;
          ModelBridge.error := Some "Unknown tool";
          ModelBridge.suggestions :=
            Some ["Check if the parameters match the expected schema for 'missing_tool'";
                  "Verify that all required fields are provided";
                  "Try using the how_tool command to get usage examples"] |}.
Proof.
  assert (MCPClient.callTool_result
            (BridgeFixtures.rejecting_transport "missing_tool" (Some (JObj [])))
          = Throw (Error "Unknown tool")) as Hc by (vm_compute; reflexivity).
  split; [exact Hc|].
  destruct (execute_never_raises ModelBridge.createModelProvider
              BridgeFixtures.rejecting_transport
              BridgeFixtures.missing_tool_request ModelBridge.create)
    as (r & Hr & _ & Hpay & Herr & _).
  destruct (Herr (Error "Unknown tool") Hc) as (H1 & H2 & H3 & _).
  rewrite Hr. f_equal.
  destruct r as [s res err sug]. simpl in H1, H2, H3, Hpay.
  destruct Hpay as [(payload & _ & Hn)|(msg & _ & Hres)]; [congruence|].
  subst. reflexivity.
Defined.

(** ** What [use_tool] records *)

Section UseTool.
Import ModelBridge BridgeSpec SimplifiedMCPServer.

Variable generateResponse : nat -> Prompt -> Result string.

Lemma slice_last_Forall {A} (P : A -> Prop) n (xs : list A) :
  Forall P xs -> Forall P (slice_last n xs).
Proof.
  intros H. destruct (slice_last_suffix n xs) as [older E].
  rewrite E in H. apply Forall_app in H. tauto.
Qed.

(** What [useTool] leaves in the history: the entry of this call, with the
    feedback of an omitted argument. *)
Lemma useTool_data transport tool params ctx now b :
  exists e,
    trainingData (fst (useTool generateResponse transport tool params ctx now b))
    = slice_last 1000 (trainingData b ++ [e]) /\
    feedback e = neutral /\
    toolName (toolCall e) = tool /\
    timestamp e = now.
Proof.
  unfold useTool.
  match goal with
  | |- context [executeToolCall generateResponse transport ?r b] =>
      pose proof (executeToolCall_data generateResponse transport r b) as Hd;
      destruct (executeToolCall_returns generateResponse transport r b) as [res Hr];
      destruct (executeToolCall generateResponse transport r b) as [b1 out]
  end.
  simpl in Hd, Hr. subst out. cbv beta iota delta [fst].
  eexists. rewrite trainOnInteraction_data, Hd.
  split; [reflexivity|]. repeat split.
Qed.

Lemma what_tools_data args listed b :
  trainingData (fst (what_tools args listed b)) = trainingData b.
Proof.
  unfold what_tools.
  pose proof (discoverTools_data listed b) as H.
  destruct (discoverTools listed b) as [b' [r|e]]; simpl in *; assumption.
Qed.

Lemma serve_neutral b call :
  all_neutral b -> all_neutral (serve generateResponse b call).
Proof.
  unfold all_neutral. intros H.
  destruct call as [connected listed|args listed|tool|transport tool params ctx now];
    simpl.
  - rewrite initialize_data. assumption.
  - rewrite what_tools_data. assumption.
  - rewrite getToolUsage_data. assumption.
  - destruct (useTool_data transport tool params ctx now b)
      as (e & -> & He & _).
    apply slice_last_Forall, Forall_app. split; [assumption|].
    constructor; [assumption|constructor].
Qed.

Lemma serve_all_neutral calls : forall b,
  all_neutral b -> all_neutral (serve_all generateResponse calls b).
Proof.
  induction calls as [|call calls IH]; intros b H; simpl; [assumption|].
  apply IH, serve_neutral, H.
Qed.

Lemma neutral_no_precedent request b :
  all_neutral b -> relevantTraining request b = [].
Proof.
  unfold all_neutral, relevantTraining. intros H.
  assert (List.filter (fun data => Feedback_eqb (feedback data) positive)
            (List.filter
               (fun data => String.eqb (toolName (toolCall data)) (toolName request))
               (trainingData b)) = []) as E.
  { induction (trainingData b) as [|d l IH]; simpl; [reflexivity|].
    inversion H as [|? ? Hd Hl]; subst.
    destruct (String.eqb _ _); simpl; [rewrite Hd; simpl|]; auto. }
  rewrite E. reflexivity.
Qed.

(** C10. [useTool] records its interaction with feedback [neutral]; so in
    a bridge driven through the front surface alone every record is
    neutral, and the precedents [optimizeToolRequest] selects, which must be
    positive, are none. *)
Theorem useTool_records_neutral_feedback :
  forall (calls : list Call) (request : ToolExecutionRequest)
         (transport : string -> option JSON -> MCPClient.Settlement)
         (tool : string) (params : option JSON) (ctx : option string)
         (now : Z) (b : Bridge),
    (exists e,
       trainingData (fst (useTool generateResponse transport tool params ctx now b))
       = slice_last 1000 (trainingData b ++ [e]) /\
       feedback e = neutral /\
       toolName (toolCall e) = tool /\
       timestamp e = now) /\
    Forall (fun d => feedback d = neutral)
      (trainingData (serve_all generateResponse calls create)) /\
    relevantTraining request (serve_all generateResponse calls create) = [].
Proof.
  intros calls request transport tool params ctx now b.
  assert (all_neutral (serve_all generateResponse calls create)) as H
    by (apply serve_all_neutral; constructor).
  split; [apply useTool_data|]. split; [exact H|].
  apply neutral_no_precedent, H.
Qed.

End UseTool.

(** ** Optimization *)

Section Optimization.
Import ModelBridge BridgeSpec.

Variable generateResponse : nat -> Prompt -> Result string.




End Optimization.


(** ** Usage information *)

Section Usage.
Import ModelBridge BridgeSpec.

Variable generateResponse : nat -> Prompt -> Result string.

(** C6, as the code has it. [getToolUsage] throws the error
    "Tool '<name>' not found", and changes nothing, for every name that is
    neither memoized in [usageExamples] nor a key of [toolCache]; what it
    returns is either the memoized entry of the name or was made from the
    tool the cache holds under that name; and after a call that returned,
    a second call returns the same value and leaves the bridge as it is:
    the model is not asked again. *)
Theorem usage_needs_known_or_memoized_tool :
  forall (toolName : string) (b : Bridge),
    (usageExamples b !! toolName = None ->
     cache_get toolName (toolCache b) = None ->
     getToolUsage generateResponse toolName b = (b, Throw (tool_not_found toolName))) /\
    (forall b' info,
       getToolUsage generateResponse toolName b = (b', Ok info) ->
       (usageExamples b !! toolName = Some info \/
        (usageExamples b !! toolName = None /\
         exists tool, cache_get toolName (toolCache b) = Some tool)) /\
       getToolUsage generateResponse toolName b' = (b', Ok info) /\
       prompts (fst (getToolUsage generateResponse toolName b')) = prompts b').
Proof.
  intros toolName b. split.
  - intros Hu Hc. unfold getToolUsage. rewrite Hu, Hc. reflexivity.
  - intros b' info H. unfold getToolUsage in H.
    destruct (usageExamples b !! toolName) as [cached|] eqn:Hu.
    + inversion H; subst.
      assert (getToolUsage generateResponse toolName b' = (b', Ok info)) as H2
        by (unfold getToolUsage; rewrite Hu; reflexivity).
      split; [left; reflexivity|]. split; [exact H2|]. rewrite H2. reflexivity.
    + destruct (cache_get toolName (toolCache b)) as [tool|] eqn:Hc;
        [|discriminate].
      destruct (generateToolUsageInfo generateResponse tool b) as [b1 [u|e]];
        [|discriminate].
      inversion H; subst.
      assert (getToolUsage generateResponse toolName
                (with_usageExamples (<[toolName := info]> (usageExamples b1)) b1)
              = (with_usageExamples (<[toolName := info]> (usageExamples b1)) b1,
                 Ok info)) as H2.
      { unfold getToolUsage. simpl. rewrite lookup_insert_eq. reflexivity. }
      split; [right; eauto|]. split; [exact H2|]. rewrite H2. reflexivity.
Qed.

End Usage.

(** On a new bridge [echo] is unknown: the call throws. Once the remote
    process has reported it, the call returns, and returns the same again. *)
Lemma usage_needs_known_witness :
  ModelBridge.usageExamples ModelBridge.create !! "echo" = None /\
  ModelBridge.cache_get "echo" (ModelBridge.toolCache ModelBridge.create) = None /\
  ModelBridge.getToolUsage ModelBridge.createModelProvider "echo" ModelBridge.create
  = (ModelBridge.create, Throw (Error "Tool 'echo' not found")).
Proof.
  assert (ModelBridge.usageExamples ModelBridge.create !! "echo" = None) as Hu
    by reflexivity.
  assert (ModelBridge.cache_get "echo" (ModelBridge.toolCache ModelBridge.create)
          = None) as Hc by reflexivity.
  split; [exact Hu|]. split; [exact Hc|].
  exact (proj1 (usage_needs_known_or_memoized_tool
                  ModelBridge.createModelProvider "echo" ModelBridge.create)
               Hu Hc).
Defined.

(** C6 as stated fails. After a second discovery that no longer reports
    [echo], the tool cache has no [echo], and [getToolUsage] still returns
    the usage information memoized for it. *)
Lemma usage_survives_rediscovery :
  ModelBridge.cache_get "echo"
    (ModelBridge.toolCache BridgeFixtures.rediscovered_bridge) = None /\
  map fst (ModelBridge.toolCache BridgeFixtures.rediscovered_bridge)
  = ["search_docs"] /\
  snd (ModelBridge.getToolUsage ModelBridge.createModelProvider "echo"
         BridgeFixtures.rediscovered_bridge)
  = Ok (ModelBridge.fallback_usage BridgeFixtures.echo_tool).
Proof.
  split; [vm_compute; reflexivity|]. split; [vm_compute; reflexivity|].
  vm_compute. reflexivity.
Qed.

(** ** Discovery filters *)

Section Discovery.
Import ModelBridge BridgeSpec SimplifiedMCPServer.

Lemma startsWith_prefix s p :
  JSText.startsWith s p = true <-> exists after, s = p +:+ after.
Proof.
  revert s. induction p as [|a p IH]; intros s.
  - split; [intros _; exists s; reflexivity|].
    intros _. destruct s; reflexivity.
  - destruct s as [|b s]; simpl.
    + split; [discriminate|intros [after H]; discriminate].
    + split.
      * intros H. apply andb_true_iff in H. destruct H as [Hab Hs].
        apply Ascii.eqb_eq in Hab. subst b.
        apply IH in Hs. destruct Hs as [after ->]. exists after. reflexivity.
      * intros [after H]. inversion H; subst.
        rewrite Ascii.eqb_refl. simpl. apply IH. exists after. reflexivity.
Qed.

Lemma includes_run s sub :
  JSText.includes s sub = true <-> exists before after, s = before +:+ sub +:+ after.
Proof.
  induction s as [|c s IH].
  - change (JSText.includes EmptyString sub)
      with (JSText.startsWith EmptyString sub || false).
    rewrite orb_false_r, startsWith_prefix. split.
    + intros [after H]. exists EmptyString, after. exact H.
    + intros (before & after & H). destruct before as [|x before]; simpl in H.
      * exists after. exact H.
      * discriminate.
  - change (JSText.includes (String c s) sub)
      with (JSText.startsWith (String c s) sub || JSText.includes s sub).
    rewrite orb_true_iff, startsWith_prefix, IH. split.
    + intros [[after H]|(before & after & H)].
      * exists EmptyString, after. exact H.
      * exists (String c before), after. simpl. rewrite H. reflexivity.
    + intros (before & after & H). destruct before as [|x before]; simpl in H.
      * left. exists after. exact H.
      * right. inversion H; subst. exists before, after. reflexivity.
Qed.

Lemma toLowerCase_append a b :
  JSText.toLowerCase (a +:+ b) = JSText.toLowerCase a +:+ JSText.toLowerCase b.
Proof. induction a as [|x a IH]; simpl; [reflexivity|]. rewrite IH. reflexivity. Qed.

(** Lower-casing goes unit by unit, so a cut of the lower-cased text is a
    cut of the text. *)
Lemma toLowerCase_cut s : forall a b,
  JSText.toLowerCase s = a +:+ b ->
  exists s1 s2, s = s1 +:+ s2 /\
                JSText.toLowerCase s1 = a /\ JSText.toLowerCase s2 = b.
Proof.
  induction s as [|c s IH]; intros a b H.
  - destruct a as [|x a]; [|discriminate].
    exists EmptyString, EmptyString. repeat split. exact H.
  - destruct a as [|x a].
    + exists EmptyString, (String c s). repeat split. exact H.
    + change (String (JSText.lower_unit c) (JSText.toLowerCase s)
              = String x (a +:+ b)) in H.
      inversion H as [[Hx Hs]].
      destruct (IH _ _ Hs) as (s1 & s2 & E & H1 & H2).
      exists (String c s1), s2. rewrite E. repeat split.
      * simpl. rewrite H1. reflexivity.
      * exact H2.
Qed.

(** What the search filter tests is containment ignoring case. *)
Lemma includes_ignoring_case s term :
  JSText.includes (JSText.toLowerCase s) (JSText.toLowerCase term) = true
  <-> contains_ignoring_case s term.
Proof.
  rewrite includes_run. unfold contains_ignoring_case. split.
  - intros (before & after & H).
    destruct (toLowerCase_cut _ _ _ H) as (s1 & s23 & -> & H1 & H23).
    destruct (toLowerCase_cut _ _ _ H23) as (s2 & s3 & -> & H2 & H3).
    exists s1, s2, s3. auto.
  - intros (before & run & after & -> & H).
    exists (JSText.toLowerCase before), (JSText.toLowerCase after).
    rewrite !toLowerCase_append, H. reflexivity.
Qed.

(** The search filter of [what_tools] does what C8 says of it: under a
    search term alone, a tool is returned if and only if it is one of the
    discovered tools and its name or its description contains the term,
    ignoring case. *)
Lemma search_filter_ignores_case (term : string) (r : ToolDiscoveryResult)
  (tool : MCPTool) :
  JSText.truthy term = true ->
  In tool (filter_tools {| arg_category := None; arg_search := Some term |} r)
  <-> In tool (tools r) /\
      (contains_ignoring_case (name tool) term \/
       contains_ignoring_case (description tool) term).
Proof.
  intros Ht. unfold filter_tools, given. simpl. rewrite Ht.
  rewrite List.filter_In, orb_true_iff, !includes_ignoring_case. reflexivity.
Qed.

(** Under a category filter alone the handler returns every discovered
    tool or none: the test does not look at the tool. *)
Lemma category_filter_all_or_none (category : string) (r : ToolDiscoveryResult) :
  filter_tools {| arg_category := Some category; arg_search := None |} r = tools r \/
  filter_tools {| arg_category := Some category; arg_search := None |} r = [].
Proof.
  unfold filter_tools, given. simpl.
  destruct (JSText.truthy category); [|left; reflexivity].
  destruct (categories_include r category).
  - left. induction (tools r) as [|t l IH]; simpl; [reflexivity|].
    rewrite IH. reflexivity.
  - right. induction (tools r) as [|t l IH]; simpl; [reflexivity|exact IH].
Qed.

(** C8, the category filter at a failing input. The remote process
    reports [search_docs] and [echo]; their categories are "Search" and
    "Utility". Asked for the category "Search", [what_tools] returns both
    tools, [echo] included, under the summary that announces two tools in
    category "Search"; asked for "search", it returns none, although
    [search_docs] is in that category up to case. *)
Theorem category_filter_keeps_all_or_none :
  category_of BridgeFixtures.search_tool = "Search" /\
  category_of BridgeFixtures.echo_tool = "Utility" /\
  snd (what_tools (BridgeFixtures.in_category "Search") BridgeFixtures.two_tools create)
  = Ok {| response_tools := [BridgeFixtures.search_tool; BridgeFixtures.echo_tool];
          response_totalCount := 2;
          response_categories := Some ["Search"; "Utility"];
          summary := "Found 2 tools in category " +:+ quoted "Search" |} /\
  snd (what_tools (BridgeFixtures.in_category "search") BridgeFixtures.two_tools create)
  = Ok {| response_tools := [];
          response_totalCount := 0;
          response_categories := Some ["Search"; "Utility"];
          summary := "Found 0 tools in category " +:+ quoted "search" |}.
Proof. vm_compute. repeat split. Qed.

End Discovery.

(* ================================================================== *)
(** * Further properties of the client, the bridge and the front surface *)

(** ** The pending table in every state a client can reach *)

Section TableInvariant.
Import MCPClient Table.

Local Ltac same H :=
  destruct H as [Hu Hq Ha Ht Hc Hh Hd]; constructor;
  unfold settlements in *; simpl in *; auto.

Lemma consistent_create t : consistent [] (create t).
Proof.
  constructor; simpl; try contradiction;
    intros; rewrite lookup_empty in *; discriminate.
Qed.

Lemma consistent_log ts e c : consistent ts c -> consistent ts (log e c).
Proof. intros H. same H. Qed.

Lemma consistent_with_connected ts b c :
  consistent ts c -> consistent ts (with_connected b c).
Proof. intros H. same H. Qed.

Lemma consistent_with_process ts x c :
  consistent ts c -> consistent ts (with_process x c).
Proof. intros H. same H. Qed.

Lemma consistent_with_messageId ts x c :
  consistent ts c -> consistent ts (with_messageId x c).
Proof. intros H. same H. Qed.

Lemma consistent_new_promise ts c :
  consistent ts c -> consistent ts (fst (new_promise c)).
Proof. intros H. same H. Qed.

(** A call on a promise that is not in the table. *)
Lemma consistent_settle ts q s c :
  consistent ts c -> (forall k, pendingRequests c !! k <> Some q) ->
  consistent ts (settle q s c).
Proof.
  intros H Hq. destruct H as [Hu Hi Ha Ht Hc Hh Hd]; constructor; simpl; auto.
  intros k p Hl. rewrite settlements_settle.
  destruct (Nat.eqb q p) eqn:E.
  - apply Nat.eqb_eq in E. subst. exfalso. exact (Hq k Hl).
  - rewrite app_nil_r. eauto.
Qed.

Lemma consistent_delete ts k c :
  consistent ts c ->
  consistent ts (with_pendingRequests (delete k (pendingRequests c)) c).
Proof.
  intros H. destruct H as [Hu Hi Ha Ht Hc Hh Hd]; constructor; simpl; auto.
  - intros k0 p Hl. apply lookup_delete_Some in Hl. destruct Hl as [_ Hl].
    exact (Hu k0 p Hl).
  - intros k0 k' p Hl Hl'. apply lookup_delete_Some in Hl, Hl'.
    destruct Hl, Hl'. eauto.
  - intros k0 p Hl. apply lookup_delete_Some in Hl. destruct Hl. eauto.
  - intros tm k0 Hin Hl. apply lookup_delete_Some in Hl. destruct Hl. eauto.
  - intros cp k0 Hin Hl. apply lookup_delete_Some in Hl. destruct Hl as [_ Hl].
    exact (Hc cp k0 Hin Hl).
  - intros ip cp k0 Hin Hl. apply lookup_delete_Some in Hl. destruct Hl as [_ Hl].
    exact (Hh ip cp k0 Hin Hl).
Qed.

(** The entry and the promise of an answered request leave together. *)
Lemma consistent_answer ts k q s c :
  consistent ts c -> pendingRequests c !! k = Some q ->
  consistent ts (settle q s (with_pendingRequests (delete k (pendingRequests c)) c)).
Proof.
  intros H Hq. apply consistent_settle; [apply consistent_delete, H|].
  simpl. intros k' Hl. apply lookup_delete_Some in Hl. destruct Hl as [Hne Hl].
  apply Hne. symmetry. exact (co_unique ts c H k k' q Hq Hl).
Qed.

Lemma consistent_on_line ts line c : consistent ts c -> consistent ts (on_line line c).
Proof.
  intros H.
  destruct (on_line_shape line c) as [E|[[e E]|(k & q & s & Hq & E)]]; rewrite E.
  - assumption.
  - apply consistent_log, H.
  - apply consistent_answer; assumption.
Qed.

Lemma consistent_receive ts lines : forall c,
  consistent ts c -> consistent ts (receive lines c).
Proof.
  induction lines as [|l ls IH]; intros c H; simpl; [assumption|].
  apply IH, consistent_on_line, H.
Qed.

Lemma consistent_on_error ts cp e c :
  consistent ts c -> In cp (children c) -> consistent ts (on_error cp e c).
Proof.
  intros H Hin. unfold on_error.
  destruct (negb (connected (log (ProcessError e) c))).
  - apply consistent_settle; [apply consistent_log, H|]. simpl.
    intros k. exact (co_children ts c H cp k Hin).
  - apply consistent_log, H.
Qed.

(** What the reactions leave alone. *)
Lemma run_reactions_same queue : forall c,
  let c' := run_reactions queue c in
  process c' = process c /\ messageId c' = messageId c /\
  pendingRequests c' = pendingRequests c /\ now c' = now c /\
  timers c' = timers c /\ next_promise c' = next_promise c /\
  written c' = written c /\ children c' = children c /\
  console c' = console c.
Proof.
  induction queue as [|[ip cp] queue IH]; intros c; simpl.
  - repeat split.
  - destruct (outcome ip c) as [[v|e]|]; simpl.
    + destruct (IH (settle cp (Resolved None) (with_connected true c)))
        as (H1 & H2 & H3 & H4 & H5 & H6 & H7 & H8 & H9). simpl in *.
      repeat split; assumption.
    + destruct (IH (settle cp (Rejected e) c))
        as (H1 & H2 & H3 & H4 & H5 & H6 & H7 & H8 & H9). simpl in *.
      repeat split; assumption.
    + destruct (IH c) as (H1 & H2 & H3 & H4 & H5 & H6 & H7 & H8 & H9).
      repeat split; assumption.
Qed.

Lemma consistent_run_reactions ts queue : forall c,
  consistent ts c ->
  (forall ip cp k, In (ip, cp) queue -> pendingRequests c !! k <> Some cp) ->
  consistent ts (run_reactions queue c).
Proof.
  induction queue as [|[ip cp] queue IH]; intros c H Hq; simpl.
  - destruct H as [Hu Hi Ha Ht Hc Hh Hd]; constructor; simpl; auto.
  - assert (forall k, pendingRequests c !! k <> Some cp) as Hcp
      by (intros k; apply (Hq ip cp k); left; reflexivity).
    assert (forall ip' cp' k, In (ip', cp') queue ->
              pendingRequests c !! k <> Some cp') as Hq'
      by (intros ip' cp' k Hin; apply (Hq ip' cp' k); right; assumption).
    destruct (outcome ip c) as [[v|e]|].
    + apply IH; [|exact Hq'].
      apply consistent_settle; [apply consistent_with_connected, H|exact Hcp].
    + apply IH; [|exact Hq']. apply consistent_settle; assumption.
    + pose proof (IH c H Hq') as H'.
      destruct (run_reactions_same queue c) as (_ & _ & Hp & _).
      destruct H' as [Hu Hi Ha Ht Hc Hh Hd]; constructor; simpl; auto.
      intros ip' cp' k [Heq|Hin]; [|eauto].
      inversion Heq; subst. rewrite Hp. apply Hcp.
Qed.

Lemma consistent_reactions ts c :
  consistent ts c -> consistent ts (run_reactions (handshakes c) c).
Proof.
  intros H. apply consistent_run_reactions; [assumption|].
  intros ip cp k Hin. exact (co_handshakes ts c H ip cp k Hin).
Qed.

(** A request goes out: its entry and its timer come together. *)
Lemma consistent_sendRequest request c :
  wf c -> consistent (timers c) c ->
  consistent (timers (fst (sendRequest request c))) (fst (sendRequest request c)).
Proof.
  intros Hwf H. unfold sendRequest, new_promise, has_stdin. simpl.
  destruct (match process c with Some child => stdin child | None => false end);
    simpl.
  - destruct H as [Hu Hi Ha Ht Hc Hh Hd]; constructor; simpl.
    + intros k p Hl. destruct (decide (id request = k)) as [<-|Hne].
      * rewrite lookup_insert_eq in Hl. inversion Hl; subst.
        unfold settlements. simpl.
        destruct (List.filter (fun e => Nat.eqb (fst e) (next_promise c)) (settled c))
          as [|[q s] l] eqn:Hf; [reflexivity|].
        assert (In (q, s) (List.filter (fun e => Nat.eqb (fst e) (next_promise c))
                             (settled c))) as Hq by (rewrite Hf; left; reflexivity).
        apply List.filter_In in Hq. destruct Hq as [Hq Hqp]. simpl in Hqp.
        apply Nat.eqb_eq in Hqp. subst q.
        pose proof (wf_settled c Hwf _ s Hq). lia.
      * rewrite lookup_insert_ne in Hl by assumption. exact (Hu k p Hl).
    + intros k k' p Hl Hl'.
      destruct (decide (id request = k)) as [<-|Hne];
        destruct (decide (id request = k')) as [<-|Hne']; [reflexivity| | |].
      * rewrite lookup_insert_eq in Hl. inversion Hl; subst.
        rewrite lookup_insert_ne in Hl' by assumption.
        destruct (wf_pending c Hwf _ _ Hl'). lia.
      * rewrite lookup_insert_eq in Hl'. inversion Hl'; subst.
        rewrite lookup_insert_ne in Hl by assumption.
        destruct (wf_pending c Hwf _ _ Hl). lia.
      * rewrite lookup_insert_ne in Hl, Hl' by assumption. eauto.
    + intros k p Hl. destruct (decide (id request = k)) as [<-|Hne].
      * rewrite lookup_insert_eq in Hl. inversion Hl; subst.
        eexists. split; [apply in_or_app; right; left; reflexivity|].
        split; reflexivity.
      * rewrite lookup_insert_ne in Hl by assumption.
        destruct (Ha k p Hl) as (tm & Hin & Hk & Hp).
        exists tm. split; [apply in_or_app; left; assumption|]. auto.
    + intros tm k Hin Hl. apply in_app_or in Hin.
      destruct (decide (id request = k)) as [<-|Hne].
      * rewrite lookup_insert_eq in Hl. inversion Hl as [Hp].
        destruct Hin as [Hin|[<-|[]]]; [|reflexivity].
        destruct (wf_timers c Hwf tm Hin). lia.
      * rewrite lookup_insert_ne in Hl by assumption.
        destruct Hin as [Hin|[<-|[]]]; [eauto|].
        simpl in Hl. destruct (wf_pending c Hwf _ _ Hl). lia.
    + intros cp k Hin Hl. destruct (decide (id request = k)) as [<-|Hne].
      * rewrite lookup_insert_eq in Hl. inversion Hl; subst.
        pose proof (wf_children c Hwf _ Hin). lia.
      * rewrite lookup_insert_ne in Hl by assumption. exact (Hc cp k Hin Hl).
    + intros ip cp k Hin Hl. destruct (decide (id request = k)) as [<-|Hne].
      * rewrite lookup_insert_eq in Hl. inversion Hl; subst.
        destruct (wf_handshakes c Hwf _ _ Hin). lia.
      * rewrite lookup_insert_ne in Hl by assumption. exact (Hh ip cp k Hin Hl).
    + intros tm Hin. apply in_app_or in Hin. destruct Hin as [Hin|[<-|[]]].
      * auto.
      * simpl. unfold timeout_ms. lia.
  - apply consistent_settle.
    + destruct H as [Hu Hi Ha Ht Hc Hh Hd]; constructor;
        unfold settlements in *; simpl in *; auto.
    + simpl. intros k Hl. destruct (wf_pending c Hwf _ _ Hl). lia.
Qed.

Lemma consistent_with_children ts cp c :
  consistent ts c -> (forall k, pendingRequests c !! k <> Some cp) ->
  consistent ts (with_children (children c ++ [cp]) c).
Proof.
  intros H Hcp. destruct H as [Hu Hi Ha Ht Hc Hh Hd]; constructor;
    unfold settlements in *; simpl in *; auto.
  intros q k Hin. apply in_app_or in Hin. destruct Hin as [Hin|[<-|[]]]; auto.
Qed.

Lemma consistent_with_handshakes ts ip cp c :
  consistent ts c -> (forall k, pendingRequests c !! k <> Some cp) ->
  consistent ts (with_handshakes (handshakes c ++ [(ip, cp)]) c).
Proof.
  intros H Hcp. destruct H as [Hu Hi Ha Ht Hc Hh Hd]; constructor;
    unfold settlements in *; simpl in *; auto.
  intros ip' cp' k Hin. apply in_app_or in Hin.
  destruct Hin as [Hin|[Heq|[]]]; [eauto|]. inversion Heq; subst. auto.
Qed.

Lemma sendRequest_children request c :
  children (fst (sendRequest request c)) = children c.
Proof.
  unfold sendRequest, new_promise. simpl. destruct (has_stdin _); reflexivity.
Qed.

Lemma consistent_connect spawned c :
  wf c -> consistent (timers c) c ->
  consistent (timers (fst (connect spawned c))) (fst (connect spawned c)).
Proof.
  intros Hwf H. unfold connect.
  destruct (wf_new_promise c Hwf) as [Hwf' Hlt].
  pose proof (consistent_new_promise _ c H) as H'.
  assert (forall k, pendingRequests c !! k <> Some (next_promise c)) as Hfresh.
  { intros k Hl. destruct (wf_pending c Hwf _ _ Hl). lia. }
  destruct (new_promise c) as [c' cp] eqn:Hn.
  assert (cp = next_promise c /\ pendingRequests c' = pendingRequests c /\
          timers c' = timers c) as (-> & Hp' & Ht')
    by (unfold new_promise in Hn; inversion Hn; auto).
  simpl in Hwf', Hlt, H'.
  destruct (negb (stdin spawned) || negb (stdout spawned)).
  - simpl. rewrite Ht'. apply consistent_settle.
    + apply consistent_with_process, H'.
    + simpl. rewrite Hp'. exact Hfresh.
  - set (c1 := with_children (children (with_process (Some spawned) c')
                              ++ [next_promise c])
                 (with_process (Some spawned) c')).
    assert (wf c1) as Hwf1.
    { destruct Hwf' as [Hc Hp Hs Ht Hch Hh]; constructor; simpl; auto.
      intros q Hin. apply in_app_or in Hin. destruct Hin as [Hin|[<-|[]]]; auto. }
    assert (consistent (timers c1) c1) as H1.
    { apply (consistent_with_children _ _ (with_process (Some spawned) c')).
      - simpl. rewrite Ht'. apply consistent_with_process, H'.
      - simpl. rewrite Hp'. exact Hfresh. }
    assert (In (next_promise c) (children c1)) as Hchild
      by (simpl; apply in_or_app; right; left; reflexivity).
    destruct (wf_getNextId c1 Hwf1) as [Hwf2 _].
    pose proof (consistent_with_messageId _ (js_succ (messageId c1)) c1 H1) as H2.
    unfold getNextId.
    set (c2 := with_messageId (js_succ (messageId c1)) c1) in *.
    cbv zeta.
    change (fst (with_messageId (js_succ (messageId c1)) c1,
                 js_succ (messageId c1))) with c2 in Hwf2.
    set (r := {| id := js_succ (messageId c1); method := "initialize";
                 params := Some initialize_params |}).
    pose proof (consistent_sendRequest r c2 Hwf2 H2) as H3.
    pose proof (sendRequest_children r c2) as Hch3.
    destruct (sendRequest r c2) as [c3 ip]. simpl in H3, Hch3. simpl.
    apply consistent_with_handshakes; [exact H3|].
    intros k. apply (co_children _ _ H3). rewrite Hch3. exact Hchild.
Qed.

(** A timer whose request has no entry can be forgotten. *)
Lemma consistent_drop tm ts c :
  consistent (tm :: ts) c -> pendingRequests c !! timer_id tm = None ->
  consistent ts c.
Proof.
  intros H Hnone. destruct H as [Hu Hi Ha Ht Hc Hh Hd]; constructor; auto.
  - intros k p Hl. destruct (Ha k p Hl) as (tm' & [<-|Hin] & Hk & Hp).
    + rewrite Hk in Hnone. congruence.
    + eauto.
  - intros tm' k Hin. apply Ht. right; assumption.
Qed.

Lemma consistent_fire tm ts c :
  consistent (tm :: ts) c -> consistent ts (fire tm c).
Proof.
  intros H. unfold fire.
  destruct (pendingRequests c !! timer_id tm) as [q|] eqn:E.
  - pose proof (consistent_delete _ (timer_id tm) c H) as H1.
    apply consistent_settle.
    + apply (consistent_drop tm); [exact H1|]. simpl. apply lookup_delete_eq.
    + simpl. intros k Hl.
      pose proof (co_timers _ _ H1 tm k (or_introl eq_refl) Hl) as Hk. subst k.
      simpl in Hl. rewrite lookup_delete_eq in Hl. discriminate.
  - apply (consistent_drop tm); assumption.
Qed.

Lemma consistent_expire tm ts c :
  consistent (tm :: ts) c -> consistent ts (expire c tm).
Proof. intros H. unfold expire. apply consistent_reactions, consistent_fire, H. Qed.

Lemma consistent_fires rest due : forall c,
  consistent (due ++ rest) c -> consistent rest (fold_left expire due c).
Proof.
  induction due as [|tm due IH]; intros c H; simpl; [assumption|].
  apply IH, consistent_expire, H.
Qed.

Lemma expire_same tm c :
  timers (expire c tm) = timers c /\ now (expire c tm) = now c /\
  messageId (expire c tm) = messageId c /\ written (expire c tm) = written c.
Proof.
  unfold expire.
  destruct (run_reactions_same (handshakes (fire tm c)) (fire tm c))
    as (_ & H2 & _ & H4 & H5 & _ & H7 & _).
  rewrite H2, H4, H5, H7. unfold fire.
  destruct (pendingRequests c !! timer_id tm); repeat split.
Qed.

Lemma fires_same due : forall c,
  timers (fold_left expire due c) = timers c /\
  now (fold_left expire due c) = now c /\
  messageId (fold_left expire due c) = messageId c /\
  written (fold_left expire due c) = written c.
Proof.
  induction due as [|tm due IH]; intros c; simpl; [repeat split|].
  destruct (IH (expire c tm)) as (H1 & H2 & H3 & H4).
  destruct (expire_same tm c) as (E1 & E2 & E3 & E4).
  rewrite H1, H2, H3, H4. auto.
Qed.

Lemma filter_partition_In {A} (f : A -> bool) (l : list A) x :
  In x l <-> In x (List.filter f l ++ List.filter (fun y => negb (f y)) l).
Proof.
  rewrite in_app_iff, !List.filter_In. destruct (f x); simpl; intuition congruence.
Qed.

Lemma consistent_advance t c :
  consistent (timers c) c -> consistent (timers (advance t c)) (advance t c).
Proof.
  intros H. unfold advance.
  set (due := List.filter (is_due t) (timers c)).
  set (rest := List.filter (fun tm => negb (is_due t tm)) (timers c)).
  set (c0 := with_clock (Z.max (now c) t) rest c).
  destruct (fires_same due c0) as (Ht & _). rewrite Ht. simpl.
  apply consistent_fires.
  destruct H as [Hu Hi Ha Htm Hc Hh Hd]; constructor;
    unfold settlements in *; simpl in *; auto.
  - intros k p Hl. destruct (Ha k p Hl) as (tm & Hin & Hk).
    exists tm. split; [|assumption]. apply filter_partition_In. assumption.
  - intros tm k Hin. apply Htm. apply (filter_partition_In (is_due t)). assumption.
  - intros tm Hin. apply List.filter_In in Hin. destruct Hin as [Hin Hdue].
    pose proof (Hd tm Hin). unfold is_due in Hdue.
    apply negb_true_iff, Z.leb_gt in Hdue. unfold timeout_ms in *. lia.
Qed.

Lemma on_line_same line c :
  timers (on_line line c) = timers c /\ now (on_line line c) = now c /\
  messageId (on_line line c) = messageId c /\
  written (on_line line c) = written c /\
  connected (on_line line c) = connected c.
Proof.
  destruct (on_line_shape line c) as [E|[[e E]|(k' & q & s & Hq & E)]];
    rewrite E; repeat split.
Qed.

Lemma receive_same lines : forall c,
  timers (receive lines c) = timers c /\ now (receive lines c) = now c /\
  messageId (receive lines c) = messageId c /\
  written (receive lines c) = written c /\
  connected (receive lines c) = connected c.
Proof.
  induction lines as [|l ls IH]; intros c; simpl; [repeat split|].
  destruct (IH (on_line l c)) as (H1 & H2 & H3 & H4 & H5).
  destruct (on_line_same l c) as (E1 & E2 & E3 & E4 & E5).
  rewrite H1, H2, H3, H4, H5. auto.
Qed.

Lemma consistent_task ev c :
  wf c -> consistent (timers c) c ->
  consistent (timers (task ev c)) (task ev c).
Proof.
  intros Hwf H. destruct ev; simpl.
  - apply consistent_connect; assumption.
  - apply consistent_with_connected, consistent_with_process, H.
  - unfold listTools, getNextId. cbv zeta.
    apply consistent_sendRequest.
    + exact (proj1 (wf_getNextId c Hwf)).
    + apply consistent_with_messageId, H.
  - unfold callTool, getNextId. cbv zeta.
    apply consistent_sendRequest.
    + exact (proj1 (wf_getNextId c Hwf)).
    + apply consistent_with_messageId, H.
  - destruct (installed child c); [|assumption].
    unfold on_data. fold (receive (lines_of chunk) c).
    rewrite (proj1 (receive_same _ c)). apply consistent_receive, H.
  - destruct (installed child c); [apply consistent_log|]; assumption.
  - destruct (installed child c) eqn:E; [|assumption].
    replace (timers (on_error child error c)) with (timers c)
      by (unfold on_error; destruct (negb _); reflexivity).
    apply consistent_on_error; [assumption|]. apply installed_In, E.
  - destruct (installed child c); [|assumption].
    apply consistent_with_connected, consistent_log, H.
  - apply consistent_advance, H.
Qed.

Lemma consistent_step c ev :
  wf c -> consistent (timers c) c ->
  consistent (timers (step c ev)) (step c ev).
Proof.
  intros Hwf H. unfold step.
  destruct (run_reactions_same (handshakes (task ev c)) (task ev c))
    as (_ & _ & _ & _ & Ht & _).
  rewrite Ht. apply consistent_reactions, consistent_task; assumption.
Qed.

(** In every state reached from a new client the table, the promises and
    the timers agree. *)
Lemma consistent_run evs : forall c,
  wf c -> consistent (timers c) c ->
  consistent (timers (run evs c)) (run evs c).
Proof.
  induction evs as [|ev evs IH]; intros c Hwf H; simpl; [assumption|].
  apply IH; [apply wf_step, Hwf|apply consistent_step; assumption].
Qed.

(** X5. In every state a client can reach, whatever the calls, the outputs
    of the child and the clock readings that led to it, every request in the
    pending table has its own timer armed: a timer for its id and its
    promise, due after now and at most 30000 ms from now. No entry is in
    the table without the timer that is to remove it. *)
Theorem pending_request_has_armed_timer :
  forall (t : Z) (evs : list Event) (k : Z) (p : promise),
    pendingRequests (run evs (create t)) !! k = Some p ->
    exists tm,
      In tm (timers (run evs (create t))) /\
      timer_id tm = k /\ timer_promise tm = p /\
      now (run evs (create t)) < deadline tm <= now (run evs (create t)) + 30000.
Proof.
  intros t evs k p Hl.
  pose proof (consistent_run evs (create t) (wf_create t) (consistent_create t))
    as H.
  destruct (co_armed _ _ H k p Hl) as (tm & Hin & Hk & Hp).
  exists tm. split; [assumption|]. split; [assumption|]. split; [assumption|].
  exact (co_deadline _ _ H tm Hin).
Qed.

(** X6. In every state a client can reach, a request in the pending table
    has not been settled: neither the [resolve] nor the [reject] of its
    promise has been called; and no other entry of the table holds its
    promise. *)
Theorem pending_request_is_unsettled :
  forall (t : Z) (evs : list Event) (k : Z) (p : promise),
    pendingRequests (run evs (create t)) !! k = Some p ->
    settlements p (run evs (create t)) = [] /\
    outcome p (run evs (create t)) = None /\
    forall k', pendingRequests (run evs (create t)) !! k' = Some p -> k' = k.
Proof.
  intros t evs k p Hl.
  pose proof (consistent_run evs (create t) (wf_create t) (consistent_create t))
    as H.
  pose proof (co_unsettled _ _ H k p Hl) as Hs.
  split; [exact Hs|]. split; [unfold outcome; rewrite Hs; reflexivity|].
  intros k' Hl'. exact (co_unique _ _ H k k' p Hl Hl').
Qed.

End TableInvariant.

(** In the session [calling] the call of [echo] is request 2 of promise 2:
    it is in the table with its timer, armed at time 0 for 30000. *)
Lemma pending_request_timer_witness :
  MCPClient.pendingRequests (MCPClient.run Table.calling (MCPClient.create 0)) !! 2
  = Some 2%nat /\
  exists tm,
    In tm (MCPClient.timers (MCPClient.run Table.calling (MCPClient.create 0))) /\
    MCPClient.timer_id tm = 2 /\ MCPClient.timer_promise tm = 2%nat /\
    MCPClient.now (MCPClient.run Table.calling (MCPClient.create 0))
    < MCPClient.deadline tm
    <= MCPClient.now (MCPClient.run Table.calling (MCPClient.create 0)) + 30000.
Proof.
  assert (MCPClient.pendingRequests
            (MCPClient.run Table.calling (MCPClient.create 0)) !! 2
          = Some 2%nat) as H by (vm_compute; reflexivity).
  split; [exact H|].
  exact (pending_request_has_armed_timer 0 Table.calling 2 2%nat H).
Defined.

(** The same request has not been settled. *)
Lemma pending_request_unsettled_witness :
  MCPClient.pendingRequests (MCPClient.run Table.calling (MCPClient.create 0)) !! 2
  = Some 2%nat /\
  MCPClient.settlements 2%nat (MCPClient.run Table.calling (MCPClient.create 0)) = [].
Proof.
  assert (MCPClient.pendingRequests
            (MCPClient.run Table.calling (MCPClient.create 0)) !! 2
          = Some 2%nat) as H by (vm_compute; reflexivity).
  split; [exact H|].
  exact (proj1 (pending_request_is_unsettled 0 Table.calling 2 2%nat H)).
Defined.

(** ** The requests on the wire *)

Section Wire.
Import MCPClient Table.

Lemma sendRequest_written request c :
  messageId (fst (sendRequest request c)) = messageId c /\
  (written (fst (sendRequest request c)) = written c \/
   written (fst (sendRequest request c)) = written c ++ [request]).
Proof.
  unfold sendRequest, new_promise. simpl.
  destruct (has_stdin _); simpl; auto.
Qed.

(** A task sends at most one request, under the id the counter has after
    it. *)
Lemma task_written ev c :
  (messageId (task ev c) = messageId c /\ written (task ev c) = written c) \/
  (messageId (task ev c) = js_succ (messageId c) /\
   (written (task ev c) = written c \/
    exists r, written (task ev c) = written c ++ [r] /\
              id r = js_succ (messageId c))).
Proof.
  destruct ev; simpl.
  - unfold connect, getNextId. simpl.
    destruct (negb (stdin spawned) || negb (stdout spawned)); simpl; [left; auto|].
    match goal with
    | |- context [sendRequest ?r ?c'] =>
        destruct (sendRequest_written r c') as [Hm Hw];
        destruct (sendRequest r c') as [c3 ip]
    end.
    simpl in *. right. split; [assumption|].
    destruct Hw as [Hw|Hw]; [left; assumption|right; eexists; split; [exact Hw|reflexivity]].
  - left; auto.
  - unfold listTools, getNextId. cbv zeta.
    match goal with
    | |- context [sendRequest ?r ?c'] =>
        destruct (sendRequest_written r c') as [Hm Hw]
    end.
    right. split; [assumption|].
    destruct Hw as [Hw|Hw]; [left; assumption|right; eexists; split; [exact Hw|reflexivity]].
  - unfold callTool, getNextId. cbv zeta.
    match goal with
    | |- context [sendRequest ?r ?c'] =>
        destruct (sendRequest_written r c') as [Hm Hw]
    end.
    right. split; [assumption|].
    destruct Hw as [Hw|Hw]; [left; assumption|right; eexists; split; [exact Hw|reflexivity]].
  - left. destruct (installed child c); [|auto].
    unfold on_data. fold (receive (lines_of chunk) c).
    destruct (receive_same (lines_of chunk) c) as (_ & _ & H3 & H4 & _). auto.
  - left. destruct (installed child c); auto.
  - left. destruct (installed child c); [|auto].
    unfold on_error. destruct (negb _); auto.
  - left. destruct (installed child c); auto.
  - left. unfold advance.
    match goal with
    | |- context [fold_left expire ?due ?c0] =>
        destruct (fires_same due c0) as (_ & _ & H3 & H4)
    end.
    rewrite H3, H4. auto.
Qed.

Lemma step_written ev c :
  messageId (step c ev) = messageId (task ev c) /\
  written (step c ev) = written (task ev c).
Proof.
  unfold step.
  destruct (run_reactions_same (handshakes (task ev c)) (task ev c))
    as (_ & H2 & _ & _ & _ & _ & H7 & _).
  auto.
Qed.

Lemma StronglySorted_snoc (l : list Z) x :
  StronglySorted Z.lt l -> Forall (fun y => y < x) l ->
  StronglySorted Z.lt (l ++ [x]).
Proof.
  induction l as [|a l IH]; intros Hs Hf; simpl.
  - repeat constructor.
  - inversion Hs; subst. inversion Hf; subst.
    constructor; [apply IH; assumption|].
    apply Forall_app. split; [assumption|]. repeat constructor. assumption.
Qed.

(** While the counter is below 2^53, the ids written so far are in
    strictly increasing order and were all handed out by the counter. *)
Lemma written_ids_run evs : forall c,
  wf c ->
  (messageId c < 2 ^ 53 ->
   StronglySorted Z.lt (written_ids c) /\
   Forall (fun k => 1 <= k <= messageId c) (written_ids c)) ->
  messageId (run evs c) < 2 ^ 53 ->
  StronglySorted Z.lt (written_ids (run evs c)) /\
  Forall (fun k => 1 <= k <= messageId (run evs c)) (written_ids (run evs c)).
Proof.
  induction evs as [|ev evs IH]; intros c Hwf H Hlt; simpl in *; [auto|].
  apply IH; [apply wf_step, Hwf| |assumption].
  destruct (step_written ev c) as [Em Ew]. unfold written_ids. rewrite Em, Ew.
  pose proof (wf_counter c Hwf) as Hc.
  destruct (js_succ_range _ Hc) as [Hr Hle].
  intros Hlt'.
  destruct (task_written ev c) as [[Hm Hw]|[Hm Hw]]; rewrite Hm in *.
  - rewrite Hw. apply H. assumption.
  - assert (messageId c < 2 ^ 53) as Hb by lia.
    assert (js_succ (messageId c) = messageId c + 1) as Hj.
    { unfold js_succ. apply Z.ltb_lt in Hb. rewrite Hb. reflexivity. }
    destruct (H Hb) as [Hs Hf]. unfold written_ids in *.
    assert (Forall (fun k : Z => 1 <= k <= js_succ (messageId c))
              (map id (written c))) as Hf'.
    { eapply List.Forall_impl; [|exact Hf]. simpl. intros; lia. }
    destruct Hw as [Hw|(r & Hw & Hid)]; rewrite Hw; [auto|].
    rewrite List.map_app. simpl. rewrite Hid. split.
    + apply StronglySorted_snoc; [assumption|].
      eapply List.Forall_impl; [|exact Hf]. simpl. intros; lia.
    + apply Forall_app. split; [assumption|]. repeat constructor; lia.
Qed.

(** X4. As long as the counter of a client is below 2^53, where [++] on a
    JavaScript number still moves it, the requests it has written to the
    child carry strictly increasing ids, whatever calls and events led
    there: each id is at least 1, at most the counter, and larger than
    every id written before it. *)
Theorem written_ids_strictly_increase :
  forall (t : Z) (evs : list Event),
    messageId (run evs (create t)) < 2 ^ 53 ->
    StronglySorted Z.lt (written_ids (run evs (create t))) /\
    Forall (fun k => 1 <= k <= messageId (run evs (create t)))
      (written_ids (run evs (create t))).
Proof.
  intros t evs H. apply written_ids_run; [apply wf_create| |exact H].
  intros _. simpl. split; constructor.
Qed.

End Wire.

(** In the session [calling] the handshake went out under id 1 and the call
    under id 2. *)
Lemma written_ids_witness :
  MCPClient.messageId (MCPClient.run Table.calling (MCPClient.create 0)) < 2 ^ 53 /\
  Table.written_ids (MCPClient.run Table.calling (MCPClient.create 0)) = [1; 2] /\
  StronglySorted Z.lt
    (Table.written_ids (MCPClient.run Table.calling (MCPClient.create 0))).
Proof.
  assert (MCPClient.messageId (MCPClient.run Table.calling (MCPClient.create 0))
          < 2 ^ 53) as H by (vm_compute; reflexivity).
  split; [exact H|]. split; [vm_compute; reflexivity|].
  exact (proj1 (written_ids_strictly_increase 0 Table.calling H)).
Defined.

(** ** Connecting *)

Section Connecting.
Import MCPClient Table.

Lemma outcome_rejection p s c :
  only_rejections c -> outcome p c = Some s -> exists e, s = Rejected e.
Proof.
  unfold only_rejections, outcome, settlements. intros H Ho.
  destruct (List.filter (fun e => Nat.eqb (fst e) p) (settled c))
    as [|[q s'] l] eqn:Hf; [discriminate|].
  simpl in Ho. inversion Ho; subst s'.
  assert (In (q, s) (List.filter (fun e => Nat.eqb (fst e) p) (settled c))) as Hin
    by (rewrite Hf; left; reflexivity).
  apply List.filter_In in Hin. destruct Hin as [Hin _]. eauto.
Qed.

Lemma only_rejections_settle q e c :
  only_rejections c -> only_rejections (settle q (Rejected e) c).
Proof.
  unfold only_rejections. simpl. intros H p s Hin.
  apply in_app_or in Hin. destruct Hin as [Hin|[Heq|[]]]; [eauto|].
  inversion Heq; subst. eauto.
Qed.

(** Without a resolved handshake the reactions mark nothing connected. *)
Lemma unanswered_run_reactions queue : forall c,
  only_rejections c -> connected c = false ->
  only_rejections (run_reactions queue c) /\
  connected (run_reactions queue c) = false.
Proof.
  induction queue as [|[ip cp] queue IH]; intros c H Hc; simpl.
  - auto.
  - destruct (outcome ip c) as [[v|e]|] eqn:Ho.
    + destruct (outcome_rejection _ _ _ H Ho) as [e He]. discriminate.
    + apply IH; [apply only_rejections_settle, H|exact Hc].
    + destruct (IH c H Hc). auto.
Qed.

Lemma unanswered_sendRequest request c :
  only_rejections c ->
  only_rejections (fst (sendRequest request c)) /\
  connected (fst (sendRequest request c)) = connected c.
Proof.
  intros H. unfold sendRequest, new_promise. simpl.
  destruct (has_stdin _); simpl; [auto|].
  split; [|reflexivity].
  apply (only_rejections_settle _ _
           {| process := process c; messageId := messageId c;
              pendingRequests := pendingRequests c; connected := connected c;
              now := now c; timers := timers c; settled := settled c;
              next_promise := S (next_promise c); written := written c;
              console := console c; children := children c;
              handshakes := handshakes c |}).
  exact H.
Qed.

Lemma unanswered_fires due : forall c,
  only_rejections c -> connected c = false ->
  only_rejections (fold_left expire due c) /\
  connected (fold_left expire due c) = false.
Proof.
  induction due as [|tm due IH]; intros c H Hc; simpl; [auto|].
  assert (only_rejections (fire tm c) /\ connected (fire tm c) = false) as [H1 H2].
  { unfold fire. destruct (pendingRequests c !! timer_id tm); [|auto].
    split; [|exact Hc].
    apply (only_rejections_settle _ _
             (with_pendingRequests (delete (timer_id tm) (pendingRequests c)) c)).
    exact H. }
  destruct (unanswered_run_reactions (handshakes (fire tm c)) (fire tm c) H1 H2).
  apply IH; assumption.
Qed.

Lemma unanswered_task ev c :
  silent ev = true -> only_rejections c -> connected c = false ->
  only_rejections (task ev c) /\ connected (task ev c) = false.
Proof.
  intros Hs H Hc. destruct ev; simpl in *; try discriminate.
  - unfold connect, getNextId. simpl.
    destruct (negb (stdin spawned) || negb (stdout spawned)); simpl.
    + split; [|exact Hc].
      apply (only_rejections_settle _ _
               (with_process (Some spawned) (fst (new_promise c)))).
      exact H.
    + match goal with
      | |- context [sendRequest ?r ?c'] =>
          destruct (unanswered_sendRequest r c') as [H1 H2]; [exact H|];
          destruct (sendRequest r c') as [c3 ip]
      end.
      simpl in *. split; [exact H1|]. rewrite H2. exact Hc.
  - auto.
  - unfold listTools, getNextId. cbv zeta.
    match goal with
    | |- context [sendRequest ?r ?c'] =>
        destruct (unanswered_sendRequest r c') as [H1 H2]; [exact H|]
    end.
    split; [exact H1|]. rewrite H2. exact Hc.
  - unfold callTool, getNextId. cbv zeta.
    match goal with
    | |- context [sendRequest ?r ?c'] =>
        destruct (unanswered_sendRequest r c') as [H1 H2]; [exact H|]
    end.
    split; [exact H1|]. rewrite H2. exact Hc.
  - destruct (installed child c); auto.
  - destruct (installed child c); [|auto].
    unfold on_error. simpl. rewrite Hc. simpl. split; [|exact Hc].
    apply (only_rejections_settle _ _ (log (ProcessError error) c)). exact H.
  - destruct (installed child c); auto.
  - unfold advance. apply unanswered_fires; assumption.
Qed.

Lemma unanswered_run evs : forall c,
  forallb silent evs = true -> only_rejections c -> connected c = false ->
  only_rejections (run evs c) /\ connected (run evs c) = false.
Proof.
  induction evs as [|ev evs IH]; intros c Hs H Hc; simpl in *; [auto|].
  apply andb_true_iff in Hs. destruct Hs as [Hev Hs].
  destruct (unanswered_task ev c Hev H Hc) as [H1 H2].
  destruct (unanswered_run_reactions (handshakes (task ev c)) (task ev c) H1 H2).
  apply IH; assumption.
Qed.

(** X7. Whatever is called on a new client and whatever happens to its
    children, as long as no child has written anything to its output: the
    client is not marked connected and no promise has been resolved, that of
    a [connect] call included; every call made on a promise so far was a
    [reject]. *)
Theorem no_connection_without_child_output :
  forall (t : Z) (evs : list Event),
    forallb silent evs = true ->
    connected (run evs (create t)) = false /\
    forall p s, In (p, s) (settled (run evs (create t))) -> exists e, s = Rejected e.
Proof.
  intros t evs Hs.
  destruct (unanswered_run evs (create t) Hs) as [H Hc];
    [intros p s []|reflexivity|].
  split; [exact Hc|exact H].
Qed.

End Connecting.

(** In the session [mute] the handshake times out: the [connect] call is
    rejected and the client is not connected. *)
Lemma no_connection_witness :
  forallb Table.silent Table.mute = true /\
  MCPClient.connected (MCPClient.run Table.mute (MCPClient.create 0)) = false /\
  MCPClient.outcome 0%nat (MCPClient.run Table.mute (MCPClient.create 0))
  = Some (MCPClient.Rejected (Error "Request 1 timed out")).
Proof.
  assert (forallb Table.silent Table.mute = true) as H by (vm_compute; reflexivity).
  split; [exact H|].
  split; [exact (proj1 (no_connection_without_child_output 0 Table.mute H))|].
  vm_compute. reflexivity.
Defined.

(** ** The handshake *)

Section Handshake.
Import MCPClient Table.

Lemma settlements_empty p c :
  (forall s, ~ In (p, s) (settled c)) -> settlements p c = [].
Proof.
  unfold settlements. intros H.
  destruct (List.filter (fun e => Nat.eqb (fst e) p) (settled c))
    as [|[q s] l] eqn:Hf; [reflexivity|].
  assert (In (q, s) (List.filter (fun e => Nat.eqb (fst e) p) (settled c))) as Hq
    by (rewrite Hf; left; reflexivity).
  apply List.filter_In in Hq. destruct Hq as [Hq Hqp]. simpl in Hqp.
  apply Nat.eqb_eq in Hqp. subst q. exfalso. exact (H s Hq).
Qed.

(** A promise not allocated yet has not been settled. *)
Lemma settlements_fresh p c :
  wf c -> (next_promise c <= p)%nat -> settlements p c = [].
Proof.
  intros Hwf Hle. apply settlements_empty. intros s Hin.
  pose proof (wf_settled c Hwf p s Hin). lia.
Qed.











(** X3. On a client without a process, or whose process has no input pipe
    (a new client, or any client after [disconnect]), [callTool] and
    [listTools] fail at once with the error "MCP server not connected":
    the promise they return has been rejected with it, nothing is written,
    nothing enters the pending table and no timer is armed. The call still
    uses up an id. *)
Theorem call_without_pipe_fails_at_once :
  forall (c : Client) (name : string) (arguments_ : option JSON),
    wf c ->
    has_stdin c = false ->
    (let c1 := fst (callTool name arguments_ c) in
     settlements (snd (callTool name arguments_ c)) c1
     = [Rejected (Error "MCP server not connected")] /\
     written c1 = written c /\ pendingRequests c1 = pendingRequests c /\
     timers c1 = timers c /\ messageId c1 = js_succ (messageId c)) /\
    (let c1 := fst (listTools c) in
     settlements (snd (listTools c)) c1
     = [Rejected (Error "MCP server not connected")] /\
     written c1 = written c /\ pendingRequests c1 = pendingRequests c /\
     timers c1 = timers c /\ messageId c1 = js_succ (messageId c)) /\
    has_stdin (disconnect c) = false /\
    forall t, has_stdin (create t) = false.
Proof.
  intros c name a Hwf Hs.
  assert (forall r,
            let c1 := fst (sendRequest r (fst (getNextId c))) in
            settlements (snd (sendRequest r (fst (getNextId c)))) c1
            = [Rejected (Error "MCP server not connected")] /\
            written c1 = written c /\ pendingRequests c1 = pendingRequests c /\
            timers c1 = timers c /\ messageId c1 = js_succ (messageId c)) as H.
  { intros r. unfold sendRequest, getNextId, new_promise, has_stdin in *.
    simpl. rewrite Hs. simpl. split; [|repeat split].
    rewrite settlements_settle, Nat.eqb_refl.
    unfold settlements. simpl. fold (settlements (next_promise c) c).
    rewrite (settlements_fresh _ c Hwf) by lia. reflexivity. }
  split; [apply H|]. split; [apply H|]. split; [reflexivity|].
  intros t. reflexivity.
Qed.

End Handshake.



(** After [disconnect], a call fails at once. *)
Lemma call_without_pipe_witness :
  MCPClient.has_stdin (MCPClient.disconnect connected_client) = false /\
  MCPClient.settlements
    (snd (MCPClient.callTool "echo" None (MCPClient.disconnect connected_client)))
    (fst (MCPClient.callTool "echo" None (MCPClient.disconnect connected_client)))
  = [MCPClient.Rejected (Error "MCP server not connected")].
Proof.
  assert (MCPClient.has_stdin (MCPClient.disconnect connected_client) = false)
    as H by reflexivity.
  split; [exact H|].
  pose proof (call_without_pipe_fails_at_once
                (MCPClient.disconnect connected_client) "echo" None
                (wf_disconnect _ connected_client_wf) H) as Hc.
  cbv zeta in Hc. exact (proj1 (proj1 Hc)).
Defined.

(** ** Output that answers nothing, and whole frames *)

Section Output.
Import MCPClient Table.




Lemma lines_of_whole line :
  whole_line line -> lines_of line = [line].
Proof.
  intros [Hn Ht]. unfold lines_of.
  rewrite (split_without_separator _ _ Hn). simpl. rewrite Ht. reflexivity.
Qed.

Lemma lines_of_frames lines :
  Forall whole_line lines -> lines_of (frames lines) = lines.
Proof.
  induction lines as [|l ls IH]; intros H.
  - reflexivity.
  - inversion H; subst. simpl frames.
    rewrite lines_of_at_newline, lines_of_whole, IH by assumption. reflexivity.
Qed.

(** X1. A read that holds any number of whole frames, each a non-blank
    line without a newline inside and each followed by a newline, is taken
    apart into exactly these lines, and they are handled one after the
    other in the order they were written. *)
Theorem whole_frames_are_handled_in_order :
  forall (c : Client) (lines : list string),
    Forall whole_line lines ->
    lines_of (frames lines) = lines /\
    on_data (frames lines) c = fold_left (fun c line => on_line line c) lines c.
Proof.
  intros c lines H. unfold on_data.
  rewrite (lines_of_frames lines H). auto.
Qed.

End Output.

(** Two frames in one read. *)
Lemma whole_frames_witness :
  Table.whole_line Table.handshake_answer /\
  Table.whole_line Table.progress_note /\
  MCPClient.lines_of (Table.frames [Table.handshake_answer; Table.progress_note])
  = [Table.handshake_answer; Table.progress_note].
Proof.
  assert (Table.whole_line Table.handshake_answer) as H1
    by (split; vm_compute; reflexivity).
  assert (Table.whole_line Table.progress_note) as H2
    by (split; vm_compute; reflexivity).
  assert (Forall Table.whole_line [Table.handshake_answer; Table.progress_note])
    as Hall by (constructor; [exact H1|constructor; [exact H2|constructor]]).
  split; [exact H1|]. split; [exact H2|].
  exact (proj1 (whole_frames_are_handled_in_order (MCPClient.create 0)
                  [Table.handshake_answer; Table.progress_note] Hall)).
Defined.


(** ** What the calls return *)

Section Returns.
Import MCPClient ModelBridge ToolListing.


End Returns.

(** ** Categories *)

Section Categories.
Import MCPClient ModelBridge ToolListing.

Lemma set_add_In x y s : In x (set_add y s) <-> x = y \/ In x s.
Proof.
  induction s as [|z s IH]; simpl.
  - intuition.
  - destruct (String.eqb y z) eqn:E.
    + apply String.eqb_eq in E. subst z. simpl. intuition.
    + simpl. rewrite IH. intuition.
Qed.

Lemma set_add_NoDup y s : List.NoDup s -> List.NoDup (set_add y s).
Proof.
  induction s as [|z s IH]; simpl; intros H.
  - constructor; [intros []|constructor].
  - destruct (String.eqb y z) eqn:E; [assumption|].
    inversion H; subst. constructor; [|auto].
    rewrite set_add_In. intros [->|Hin]; [|contradiction].
    rewrite String.eqb_refl in E. discriminate.
Qed.

(** A set filled by a loop holds what it held, and what the loop added. *)
Lemma set_add_fold {A} (f : A -> string) (l : list A) : forall acc,
  (List.NoDup acc ->
   List.NoDup (fold_left (fun cats a => set_add (f a) cats) l acc)) /\
  forall c, In c (fold_left (fun cats a => set_add (f a) cats) l acc)
            <-> In c acc \/ exists a, In a l /\ f a = c.
Proof.
  induction l as [|a l IH]; intros acc; simpl.
  - split; [auto|]. intros c. split; [auto|]. intros [H|(a & [] & _)]. exact H.
  - destruct (IH (set_add (f a) acc)) as [Hn Hi]. split.
    + intros H. apply Hn, set_add_NoDup, H.
    + intros c. rewrite Hi, set_add_In. split.
      * intros [[->|H]|(b & Hb & Hc)]; eauto.
      * intros [H|(b & [->|Hb] & Hc)]; eauto.
Qed.

Lemma category_of_label tool : In (category_of tool) labels.
Proof.
  unfold category_of, labels.
  repeat match goal with
         | |- context [if ?b then _ else _] => destruct b
         end; simpl; auto 10.
Qed.

Lemma pattern_category_label name : In (pattern_category name) labels.
Proof.
  unfold pattern_category, labels.
  repeat match goal with
         | |- context [if ?b then _ else _] => destruct b
         end; simpl; auto 10.
Qed.

(** X12. The categories [categorizeTools] reports for a list of tools are
    exactly the categories of these tools, each once: a label is reported
    if and only if the chain of keyword tests gives it to at least one of
    the tools. They are among the six labels of the chain, so there are at
    most six, and none for an empty list. *)
Theorem categories_are_those_of_the_tools :
  forall tools : list MCPTool,
    List.NoDup (categorizeTools tools) /\
    (forall c, In c (categorizeTools tools)
               <-> exists tool, In tool tools /\ category_of tool = c) /\
    incl (categorizeTools tools) labels /\
    (length (categorizeTools tools) <= 6)%nat /\
    (tools = [] <-> categorizeTools tools = []).
Proof.
  intros tools. unfold categorizeTools.
  destruct (set_add_fold category_of tools []) as [Hn Hi].
  assert (forall c, In c (fold_left (fun cats a => set_add (category_of a) cats)
                            tools [])
                    <-> exists tool, In tool tools /\ category_of tool = c) as Hi'.
  { intros c. rewrite Hi. simpl. intuition. }
  assert (incl (fold_left (fun cats a => set_add (category_of a) cats) tools [])
            labels) as Hincl.
  { intros c Hc. apply Hi' in Hc. destruct Hc as (tool & _ & <-).
    apply category_of_label. }
  split; [apply Hn; constructor|]. split; [exact Hi'|]. split; [exact Hincl|].
  split.
  - change 6%nat with (length labels).
    apply List.NoDup_incl_length; [apply Hn; constructor|exact Hincl].
  - split.
    + intros ->. reflexivity.
    + intros He. destruct tools as [|tool tools]; [reflexivity|].
      exfalso. assert (In (category_of tool) []) as Hin; [|destruct Hin].
      rewrite <- He. apply Hi'. exists tool. split; [left; reflexivity|reflexivity].
Qed.

Lemma extractCategories_loop_ok tools : forall acc cats,
  extractCategories_loop tools acc = Ok cats ->
  Forall (fun t => exists n, listed_name t = Some (JStr n)) tools /\
  (List.NoDup acc -> List.NoDup cats) /\
  forall c, In c cats
            <-> In c acc \/
                exists t n, In t tools /\ listed_name t = Some (JStr n) /\
                            pattern_category (JSText.toLowerCase n) = c.
Proof.
  induction tools as [|t tools IH]; intros acc cats H; simpl in H.
  - inversion H; subst. split; [constructor|]. split; [auto|].
    intros c. split; [auto|]. intros [Hc|(t & n & [] & _)]. exact Hc.
  - destruct (listed_name t) as [[| | | n | |]|] eqn:En; simpl in H;
      try discriminate.
    destruct (IH _ _ H) as (Hf & Hn & Hi).
    split; [constructor; [eauto|exact Hf]|].
    split; [intros Ha; apply Hn, set_add_NoDup, Ha|].
    intros c. rewrite Hi, set_add_In. split.
    + intros [[->|Hc]|(t' & n' & Ht & Hn' & Hc)]; [right|left; exact Hc|right].
      * exists t, n. split; [left; reflexivity|]. auto.
      * exists t', n'. split; [right; exact Ht|]. auto.
    + intros [Hc|(t' & n' & [->|Ht] & Hn' & Hc)]; [left; right; exact Hc| |].
      * left; left. rewrite En in Hn'. inversion Hn'; subst. reflexivity.
      * right. exists t', n'. auto.
Qed.

Lemma extractCategories_loop_total tools : forall acc,
  Forall (fun t => exists n, listed_name t = Some (JStr n)) tools ->
  exists cats, extractCategories_loop tools acc = Ok cats.
Proof.
  induction tools as [|t tools IH]; intros acc H; simpl.
  - eauto.
  - inversion H as [|? ? [n Hn] Hrest]; subst. rewrite Hn. simpl. apply IH, Hrest.
Qed.

Lemma listed_tool_name item tool :
  listed_tool item = Ok tool -> get (Some item) "name" = Ok (listed_name tool).
Proof.
  unfold listed_tool.
  destruct (get (Some item) "name") as [n|]; [|discriminate].
  destruct (get (Some item) "description") as [d|]; [|discriminate].
  destruct (get (Some item) "inputSchema") as [s|]; [|discriminate].
  intros H. inversion H; subst. reflexivity.
Qed.

Lemma listed_tool_total item n :
  get (Some item) "name" = Ok n -> exists tool, listed_tool item = Ok tool.
Proof.
  unfold listed_tool. destruct item; simpl; try discriminate; eauto.
Qed.

Lemma map_tools_ok items : forall tools,
  map_tools items = Ok tools ->
  List.Forall2 (fun item tool => listed_tool item = Ok tool) items tools.
Proof.
  induction items as [|item items IH]; intros tools H; simpl in H.
  - inversion H; subst. constructor.
  - destruct (listed_tool item) as [tool|] eqn:Et; [|discriminate].
    destruct (map_tools items) as [rest|]; [|discriminate].
    inversion H; subst. constructor; auto.
Qed.

Lemma map_tools_total items :
  Forall named_item items -> exists tools, map_tools items = Ok tools.
Proof.
  induction items as [|item items IH]; intros H; simpl.
  - eauto.
  - inversion H as [|? ? [n Hn] Hrest]; subst.
    destruct (listed_tool_total _ _ Hn) as [tool Ht]. rewrite Ht.
    destruct (IH Hrest) as [tools Hm]. rewrite Hm. eauto.
Qed.

Lemma named_tools items tools :
  List.Forall2 (fun item tool => listed_tool item = Ok tool) items tools ->
  (Forall named_item items
   <-> Forall (fun t => exists n, listed_name t = Some (JStr n)) tools).
Proof.
  induction 1 as [|item tool items tools Ht Hrest IH].
  - split; constructor.
  - pose proof (listed_tool_name _ _ Ht) as Hn. split; intros H';
      inversion H' as [|? ? [n Hx] Hr]; subst; constructor; try tauto.
    + exists n. unfold named_item in *. congruence.
    + exists n. congruence.
Qed.

(** X11. [listTools] returns a listing exactly when the response holds an
    array [tools] whose items all have a string for a [name]; in every
    other case it throws.
    When it returns, the listing holds one tool per item, in the order of
    the response, with the [name], [description] and [inputSchema] of the
    item, whatever the last two are; [totalCount] is their number; and the
    categories are, each once, the labels the keyword tests on the
    lower-cased names give to these tools. *)
Theorem listTools_returns_named_tools :
  forall s : Settlement,
    (forall r, listTools_result s = Ok r ->
       exists response items,
         s = Resolved response /\
         get response "tools" = Ok (Some (JArr items)) /\
         Forall named_item items /\
         List.Forall2 (fun item tool => listed_tool item = Ok tool)
           items (listing_tools r) /\
         listing_totalCount r = length items /\
         exists cats,
           listing_categories r = Some cats /\
           List.NoDup cats /\
           forall c, In c cats
                     <-> exists t n, In t (listing_tools r) /\
                                     listed_name t = Some (JStr n) /\
                                     pattern_category (JSText.toLowerCase n) = c) /\
    (forall response items,
       s = Resolved response ->
       get response "tools" = Ok (Some (JArr items)) ->
       Forall named_item items ->
       exists r, listTools_result s = Ok r).
Proof.
  intros s. split.
  - intros r H. destruct s as [response|e]; simpl in H; [|discriminate].
    destruct (get response "tools") as [[[| | | |items|]|]|] eqn:Eg;
      try discriminate.
    destruct (map_tools items) as [tools|] eqn:Em; [|discriminate].
    destruct (extractCategories tools) as [cats|] eqn:Ec; [|discriminate].
    inversion H; subst r; clear H. simpl.
    pose proof (map_tools_ok _ _ Em) as Hf2.
    destruct (extractCategories_loop_ok _ _ _ Ec) as (Hnames & Hn & Hi).
    exists response, items. split; [reflexivity|]. split; [exact Eg|].
    split; [apply (named_tools _ _ Hf2), Hnames|]. split; [exact Hf2|].
    split; [symmetry; exact (List.Forall2_length Hf2)|].
    exists cats. split; [reflexivity|]. split; [apply Hn; constructor|].
    intros c. rewrite Hi. simpl. intuition.
  - intros response items -> Hg Hnamed. simpl. rewrite Hg.
    destruct (map_tools_total items Hnamed) as [tools Hm]. rewrite Hm.
    pose proof (map_tools_ok _ _ Hm) as Hf2.
    destruct (extractCategories_loop_total tools []
                (proj1 (named_tools _ _ Hf2) Hnamed)) as [cats Hc].
    unfold extractCategories. rewrite Hc. eauto.
Qed.

End Categories.

(** A listing of two tools, the second with a name only; and a listing
    with a tool that has no name, which makes [listTools] throw. *)
Lemma listTools_witness :
  Forall ToolListing.named_item
    [JObj [("name", JStr "read_file"); ("description", JStr "Read a file");
           ("inputSchema", JObj [("type", JStr "object")])];
     JObj [("name", JStr "Git_Log")]] /\
  (exists r, ToolListing.listTools_result
               (MCPClient.Resolved Registry.listing_response) = Ok r) /\
  ToolListing.listTools_result (MCPClient.Resolved Registry.listing_response)
  = Ok {| ToolListing.listing_tools :=
            [{| ToolListing.listed_name := Some (JStr "read_file");
                ToolListing.listed_description := Some (JStr "Read a file");
                ToolListing.listed_inputSchema := Some (JObj [("type", JStr "object")]) |};
             {| ToolListing.listed_name := Some (JStr "Git_Log");
                ToolListing.listed_description := None;
                ToolListing.listed_inputSchema := None |}];
          ToolListing.listing_totalCount := 2;
          ToolListing.listing_categories := Some ["File Operations"; "Version Control"] |} /\
  ToolListing.listTools_result (MCPClient.Resolved Registry.nameless_response)
  = Throw (TypeError "Cannot read properties of undefined (reading 'toLowerCase')").
Proof.
  assert (Forall ToolListing.named_item
            [JObj [("name", JStr "read_file"); ("description", JStr "Read a file");
                   ("inputSchema", JObj [("type", JStr "object")])];
             JObj [("name", JStr "Git_Log")]]) as Hn.
  { constructor; [eexists; reflexivity|].
    constructor; [eexists; reflexivity|constructor]. }
  split; [exact Hn|].
  split; [|split; vm_compute; reflexivity].
  exact (proj2 (listTools_returns_named_tools
                  (MCPClient.Resolved Registry.listing_response))
               Registry.listing_response _ eq_refl eq_refl Hn).
Defined.

(** ** The tool cache *)

Section ToolCache.
Import ModelBridge BridgeSpec Registry.

Variable generateResponse : nat -> Prompt -> Result string.

Lemma cache_get_set k k' v m :
  cache_get k (cache_set k' v m)
  = if String.eqb k k' then Some v else cache_get k m.
Proof.
  induction m as [|[k0 v0] m IH]; simpl.
  - reflexivity.
  - destruct (String.eqb k' k0) eqn:E'; simpl.
    + apply String.eqb_eq in E'. subst k0.
      destruct (String.eqb k k'); reflexivity.
    + destruct (String.eqb k k0) eqn:E0.
      * apply String.eqb_eq in E0. subst k0.
        destruct (String.eqb k k') eqn:E; [|reflexivity].
        apply String.eqb_eq in E. subst k'. rewrite String.eqb_refl in E'.
        discriminate.
      * exact IH.
Qed.

Lemma cache_set_keys k v m x :
  In x (map fst (cache_set k v m)) <-> x = k \/ In x (map fst m).
Proof.
  induction m as [|[k0 v0] m IH]; simpl.
  - intuition.
  - destruct (String.eqb k k0) eqn:E; simpl.
    + apply String.eqb_eq in E. subst k0. intuition.
    + rewrite IH. intuition.
Qed.

Lemma cache_set_keyed tool m :
  keyed_by_name m -> keyed_by_name (cache_set (name tool) tool m).
Proof.
  unfold keyed_by_name. induction m as [|[k0 v0] m IH]; simpl; intros [Hn Hf].
  - split; [constructor; [intros []|constructor]|]. repeat constructor.
  - inversion Hn as [|? ? Hk0 Hn']; subst. inversion Hf as [|? ? Hv0 Hf']; subst.
    destruct (String.eqb (name tool) k0) eqn:E; simpl.
    + apply String.eqb_eq in E. subst k0.
      split; [constructor; assumption|]. constructor; [reflexivity|assumption].
    + destruct (IH (conj Hn' Hf')) as [Hn2 Hf2].
      split; [|constructor; assumption].
      constructor; [|assumption].
      rewrite cache_set_keys. intros [->|Hin]; [|contradiction].
      rewrite String.eqb_refl in E. discriminate.
Qed.

Lemma cache_fold_keyed tools : forall m,
  keyed_by_name m ->
  keyed_by_name (fold_left (fun m tool => cache_set (name tool) tool m) tools m).
Proof.
  induction tools as [|tool tools IH]; intros m H; simpl; [exact H|].
  apply IH, cache_set_keyed, H.
Qed.

Lemma cache_get_In k v m : cache_get k m = Some v -> In (k, v) m.
Proof.
  induction m as [|[k0 v0] m IH]; simpl; [discriminate|].
  destruct (String.eqb k k0) eqn:E.
  - apply String.eqb_eq in E. subst k0. intros H. inversion H; subst. auto.
  - auto.
Qed.

Lemma keyed_names m :
  keyed_by_name m -> map name (cache_values m) = map fst m.
Proof.
  intros [_ Hf]. unfold cache_values. rewrite List.map_map.
  induction Hf as [|e m He Hf IH]; simpl; [reflexivity|].
  rewrite He, IH. reflexivity.
Qed.

Lemma usage_of_response_fields tool text info :
  usage_of_response tool text = Ok info ->
  usage_name info = name tool /\
  usage_description info = description tool /\
  usage_inputSchema info = inputSchema tool.
Proof.
  unfold usage_of_response.
  destruct (parse text) as [parsed|]; [|discriminate].
  destruct (get (Some parsed) "examples"); [|discriminate].
  destruct (get (Some parsed) "relatedTools"); [|discriminate].
  destruct (get (Some parsed) "category"); [|discriminate].
  intros H. inversion H; subst. repeat split.
Qed.

Lemma generateToolUsageInfo_caches tool b :
  let out := generateToolUsageInfo generateResponse tool b in
  toolCache (fst out) = toolCache b /\
  usageExamples (fst out) = usageExamples b /\
  trainingData (fst out) = trainingData b /\
  forall info, snd out = Ok info ->
    usage_name info = name tool /\
    usage_description info = description tool /\
    usage_inputSchema info = inputSchema tool.
Proof.
  unfold generateToolUsageInfo, ask. cbv zeta.
  destruct (generateResponse _ _) as [text|e]; simpl.
  - destruct (usage_of_response tool text) as [u|] eqn:E; simpl;
      (split; [reflexivity|split; [reflexivity|split; [reflexivity|]]]);
      intros info H; inversion H; subst.
    + exact (usage_of_response_fields _ _ _ E).
    + repeat split.
  - split; [reflexivity|split; [reflexivity|split; [reflexivity|]]].
    intros info H; discriminate.
Qed.

Lemma getToolUsage_registry toolName b :
  registry_ok b -> registry_ok (fst (getToolUsage generateResponse toolName b)).
Proof.
  intros [Hk Hu]. unfold getToolUsage.
  destruct (usageExamples b !! toolName) eqn:Eu; [split; assumption|].
  destruct (cache_get toolName (toolCache b)) as [tool|] eqn:Ec;
    [|split; assumption].
  destruct (generateToolUsageInfo_caches tool b) as (H1 & H2 & _ & H4).
  destruct (generateToolUsageInfo generateResponse tool b) as [b1 [info|e]];
    simpl in *.
  - destruct (H4 info eq_refl) as (Hname & _).
    split; [simpl; rewrite H1; exact Hk|]. simpl. intros k u Hl.
    destruct (decide (toolName = k)) as [<-|Hne].
    + rewrite lookup_insert_eq in Hl. inversion Hl; subst u.
      rewrite Hname. apply cache_get_In in Ec.
      destruct Hk as [_ Hf]. rewrite List.Forall_forall in Hf. exact (Hf _ Ec).
    + rewrite lookup_insert_ne in Hl by assumption. rewrite H2 in Hl. auto.
  - split; [simpl; rewrite H1; exact Hk|]. simpl. rewrite H2. exact Hu.
Qed.

(** What the loop of [generateToolUsageExamples] does to the two caches. *)
Lemma generateToolUsageExamples_loop_caches entries : forall b,
  let out := generateToolUsageExamples_loop generateResponse entries b in
  toolCache (fst out) = toolCache b /\
  (forall k u, usageExamples b !! k = Some u ->
               usageExamples (fst out) !! k = Some u) /\
  (Forall (fun e => name (snd e) = fst e) entries ->
   (forall k u, usageExamples b !! k = Some u -> usage_name u = k) ->
   forall k u, usageExamples (fst out) !! k = Some u -> usage_name u = k) /\
  (snd out = Ok tt ->
   forall k tool, In (k, tool) entries ->
                  exists u, usageExamples (fst out) !! k = Some u).
Proof.
  induction entries as [|[toolName tool] entries IH]; intros b; simpl.
  - repeat split; auto. intros _ k tool [].
  - destruct (usageExamples b !! toolName) as [cached|] eqn:Eu.
    + destruct (IH b) as (H1 & H2 & H3 & H4). cbv zeta in *.
      split; [exact H1|]. split; [exact H2|]. split.
      * intros Hf. inversion Hf; subst. apply H3; assumption.
      * intros Hok k t [Heq|Hin]; [|eauto].
        inversion Heq; subst. eauto.
    + destruct (generateToolUsageInfo_caches tool b) as (G1 & G2 & _ & G4).
      destruct (generateToolUsageInfo generateResponse tool b) as [b1 [info|e]];
        simpl in *.
      * destruct (IH (with_usageExamples (<[toolName := info]> (usageExamples b1)) b1))
          as (H1 & H2 & H3 & H4). cbv zeta in *. simpl in *.
        split; [rewrite H1; exact G1|]. split; [|split].
        -- intros k u Hl. apply H2.
           destruct (decide (toolName = k)) as [<-|Hne]; [congruence|].
           rewrite lookup_insert_ne by assumption. rewrite G2. exact Hl.
        -- intros Hf Hu. inversion Hf as [|? ? Hname Hf']; subst. simpl in Hname.
           apply H3; [exact Hf'|]. intros k u Hl.
           destruct (decide (toolName = k)) as [<-|Hne].
           ++ rewrite lookup_insert_eq in Hl. inversion Hl; subst u.
              destruct (G4 info eq_refl) as (Hn & _). congruence.
           ++ rewrite lookup_insert_ne in Hl by assumption.
              rewrite G2 in Hl. auto.
        -- intros Hok k t [Heq|Hin]; [|eauto].
           inversion Heq; subst. eexists. apply H2. apply lookup_insert_eq.
      * split; [exact G1|]. split; [rewrite G2; auto|]. split.
        -- intros _ Hu k u Hl. rewrite G2 in Hl. auto.
        -- discriminate.
Qed.

Lemma cacheAvailableTools_registry listed b :
  registry_ok b -> registry_ok (fst (cacheAvailableTools listed b)).
Proof.
  intros [Hk Hu]. unfold cacheAvailableTools.
  destruct listed as [tools|e]; simpl; [|split; assumption].
  split; [|exact Hu]. simpl. apply cache_fold_keyed.
  split; constructor.
Qed.

Lemma initialize_registry connected listed b :
  registry_ok b -> registry_ok (fst (initialize generateResponse connected listed b)).
Proof.
  intros H. unfold initialize. destruct connected as [[]|e]; [|exact H].
  pose proof (cacheAvailableTools_registry listed b H) as H1.
  destruct (cacheAvailableTools listed b) as [b1 [[]|e]]; simpl in H1; [|exact H1].
  unfold generateToolUsageExamples.
  destruct (generateToolUsageExamples_loop_caches (toolCache b1) b1)
    as (G1 & _ & G3 & _). cbv zeta in *.
  destruct H1 as [Hk Hu]. split; [rewrite G1; exact Hk|].
  apply G3; [exact (proj2 Hk)|exact Hu].
Qed.

Lemma discoverTools_registry listed b :
  registry_ok b -> registry_ok (fst (discoverTools listed b)).
Proof.
  intros H. unfold discoverTools.
  destruct (toolCache b) eqn:Ec.
  - pose proof (cacheAvailableTools_registry listed b H) as H1.
    destruct (cacheAvailableTools listed b) as [b1 [[]|e]]; exact H1.
  - exact H.
Qed.

Lemma optimizeToolRequest_caches request b :
  let out := optimizeToolRequest generateResponse request b in
  toolCache (fst out) = toolCache b /\
  usageExamples (fst out) = usageExamples b /\
  toolCalls (fst out) = toolCalls b /\
  toolName (snd out) = toolName request /\
  context (snd out) = context request /\
  userIntent (snd out) = userIntent request /\
  (length (prompts (fst out)) <= S (length (prompts b)))%nat /\
  (cache_get (toolName request) (toolCache b) = None ->
   out = (b, request)).
Proof.
  unfold optimizeToolRequest, ask. cbv zeta.
  destruct (cache_get (toolName request) (toolCache b)) as [tool|].
  - destruct (generateResponse _ _) as [text|e]; simpl.
    + destruct (parse text); simpl; rewrite ?length_app; simpl;
        repeat split; try lia; discriminate.
    + rewrite ?length_app; simpl; repeat split; try lia; discriminate.
  - simpl. repeat split; auto.
Qed.

Lemma executeToolCall_caches transport request b :
  let b' := fst (executeToolCall generateResponse transport request b) in
  toolCache b' = toolCache b /\ usageExamples b' = usageExamples b.
Proof.
  unfold executeToolCall.
  destruct (optimizeToolRequest_caches request b) as (H1 & H2 & _).
  destruct (optimizeToolRequest generateResponse request b) as [b1 opt].
  simpl in *. destruct (MCPClient.callTool_result _); simpl; auto.
Qed.

Lemma perform_registry b op :
  registry_ok b -> registry_ok (perform generateResponse b op).
Proof.
  intros H. destruct op as [connected listed|listed|toolName|transport request|i];
    simpl.
  - apply initialize_registry, H.
  - apply discoverTools_registry, H.
  - apply getToolUsage_registry, H.
  - destruct (executeToolCall_caches transport request b) as [H1 H2].
    cbv zeta in *. destruct H as [Hk Hu]. split; [rewrite H1|rewrite H2];
      assumption.
  - exact H.
Qed.

Lemma perform_all_registry ops : forall b,
  registry_ok b -> registry_ok (perform_all generateResponse ops b).
Proof.
  induction ops as [|op ops IH]; intros b H; simpl; [exact H|].
  apply IH, perform_registry, H.
Qed.

Lemma registry_create : registry_ok create.
Proof.
  split; [split; constructor|]. intros k u H. simpl in H.
  rewrite lookup_empty in H. discriminate.
Qed.

(** X13. In every state a bridge can reach through its interface, whatever
    the remote process lists and whatever the model answers: the tool cache
    holds at most one tool per name and finds each tool under its own name;
    the usage information memoized under a name carries that name; and
    what [discoverTools] returns then lists no name twice, with [totalCount]
    the number of tools listed. *)
Theorem caches_are_keyed_by_tool_name :
  forall (ops : list Op) (listed : Result (list MCPTool)),
    let b := perform_all generateResponse ops create in
    List.NoDup (map name (cache_values (toolCache b))) /\
    (forall k tool, cache_get k (toolCache b) = Some tool -> name tool = k) /\
    (forall k u, usageExamples b !! k = Some u -> usage_name u = k) /\
    (forall r, snd (discoverTools listed b) = Ok r ->
       List.NoDup (map name (tools r)) /\ totalCount r = length (tools r)).
Proof.
  intros ops listed b.
  pose proof (perform_all_registry ops create registry_create) as [Hk Hu].
  fold b in Hk, Hu.
  split; [rewrite (keyed_names _ Hk); exact (proj1 Hk)|].
  split.
  - intros k tool Hg. apply cache_get_In in Hg.
    destruct Hk as [_ Hf]. rewrite List.Forall_forall in Hf. exact (Hf _ Hg).
  - split; [exact Hu|].
    intros r Hr.
    pose proof (discoverTools_registry listed b (conj Hk Hu)) as [Hk' _].
    unfold discoverTools in *.
    destruct (match toolCache b with
              | [] => cacheAvailableTools listed b
              | _ :: _ => (b, Ok tt)
              end) as [b1 [[]|e]]; simpl in *; [|discriminate].
    inversion Hr; subst r. simpl.
    split; [rewrite (keyed_names _ Hk'); exact (proj1 Hk')|reflexivity].
Qed.

End ToolCache.

(** ** Listing, discovery and suggestions *)

Section Listing.
Import ModelBridge BridgeSpec Registry.

Variable generateResponse : nat -> Prompt -> Result string.

Lemma find_last {A} (p : A -> bool) (l : list A) x :
  List.find p (l ++ [x])
  = match List.find p l with
    | Some y => Some y
    | None => if p x then Some x else None
    end.
Proof.
  induction l as [|a l IH]; simpl; [reflexivity|].
  destruct (p a); [reflexivity|exact IH].
Qed.

Lemma cache_fold_get k tools : forall m,
  cache_get k (fold_left (fun m tool => cache_set (name tool) tool m) tools m)
  = match last_named k tools with
    | Some tool => Some tool
    | None => cache_get k m
    end.
Proof.
  unfold last_named.
  induction tools as [|tool tools IH]; intros m; simpl; [reflexivity|].
  rewrite IH, find_last, cache_get_set.
  destruct (List.find _ (rev tools)); [reflexivity|].
  destruct (String.eqb k (name tool)); reflexivity.
Qed.

Lemma cache_set_new k v m :
  ~ In k (map fst m) -> cache_set k v m = m ++ [(k, v)].
Proof.
  induction m as [|[k0 v0] m IH]; simpl; intros H; [reflexivity|].
  destruct (String.eqb k k0) eqn:E.
  - apply String.eqb_eq in E. subst. exfalso. apply H. left; reflexivity.
  - rewrite IH by tauto. reflexivity.
Qed.

Lemma cache_fold_distinct tools : forall m,
  List.NoDup (map name tools) ->
  (forall tool, In tool tools -> ~ In (name tool) (map fst m)) ->
  fold_left (fun m tool => cache_set (name tool) tool m) tools m
  = m ++ map (fun tool => (name tool, tool)) tools.
Proof.
  induction tools as [|tool tools IH]; intros m Hn Hm; simpl.
  - symmetry. apply app_nil_r.
  - inversion Hn as [|? ? Hx Hn']; subst.
    rewrite cache_set_new by (apply Hm; left; reflexivity).
    rewrite IH; [rewrite <- app_assoc; reflexivity|exact Hn'|].
    intros t Ht. rewrite List.map_app, in_app_iff. simpl.
    intros [Hin|[Heq|[]]].
    + exact (Hm t (or_intror Ht) Hin).
    + apply Hx. rewrite Heq. apply in_map. exact Ht.
Qed.

(** X14. When the remote process lists its tools, the tool cache is
    replaced by that listing: a name is found in it exactly when the listing
    has a tool of that name, and what is found is the last such tool of the
    listing; a listing without repeated names is cached as it is, in its
    order. What was cached before is gone, while the memoized usage
    information and the history stay. When the listing fails, the error is
    thrown on and the cache is left as it was, not emptied. *)
Theorem listing_replaces_the_tool_cache :
  forall (tools : list MCPTool) (b : Bridge),
    let b' := fst (cacheAvailableTools (Ok tools) b) in
    (forall k, cache_get k (toolCache b') = last_named k tools) /\
    (List.NoDup (map name tools) -> cache_values (toolCache b') = tools) /\
    usageExamples b' = usageExamples b /\
    trainingData b' = trainingData b /\
    forall e, cacheAvailableTools (Throw e) b = (b, Throw e).
Proof.
  intros tools b. simpl. split; [|split; [|auto]].
  - intros k. rewrite cache_fold_get. simpl.
    destruct (last_named k tools); reflexivity.
  - intros Hn. rewrite cache_fold_distinct by (auto; intros ? ? []).
    simpl. unfold cache_values. rewrite List.map_map. simpl. apply List.map_id.
Qed.




Lemma firstn_incl {A} n (l : list A) x : In x (firstn n l) -> In x l.
Proof.
  intros H. rewrite <- (firstn_skipn n l). apply in_or_app. left; exact H.
Qed.

(** X16. After a call that went through, the bridge suggests other tools:
    one suggestion for each of the first three tools of the cache, in cache
    order, whose name is not that of the tool just called. So there are at
    most three, none names the called tool, each names a cached tool, and
    there are fewer than three only when the cache has fewer other tools. *)
Theorem suggestions_name_other_cached_tools :
  forall (request : ToolExecutionRequest) (b : Bridge),
    let others :=
      List.filter (fun tool => negb (String.eqb (name tool) (toolName request)))
        (cache_values (toolCache b)) in
    generateSuggestions request b = map suggestion_for (firstn 3 others) /\
    length (generateSuggestions request b) = Nat.min 3 (length others) /\
    Forall (fun s => exists tool,
                s = suggestion_for tool /\
                In tool (cache_values (toolCache b)) /\
                name tool <> toolName request)
      (generateSuggestions request b).
Proof.
  intros request b others. unfold generateSuggestions, slice_first.
  fold others. split; [reflexivity|]. split.
  - rewrite length_map. apply length_firstn.
  - apply List.Forall_forall. intros s Hs. apply in_map_iff in Hs.
    destruct Hs as (tool & <- & Hin). exists tool. split; [reflexivity|].
    apply firstn_incl in Hin. unfold others in Hin.
    apply List.filter_In in Hin. destruct Hin as [Hin Hne].
    split; [exact Hin|]. intros Heq. rewrite Heq, String.eqb_refl in Hne.
    discriminate.
Qed.

(** X17. [executeToolCall] calls the transport once, for the tool the
    caller named: optimization can change the parameters, never the tool;
    it asks the model at most once, and not at all for a tool that is not
    in the cache, whose request goes out as the caller wrote it. It changes
    neither of the two caches nor the history. When the call goes through,
    the result holds the payload as the transport returned it, no error
    text, [success] exactly when the payload carries no truthy [isError],
    and the suggestions for other tools. *)
Theorem execute_calls_the_named_tool_once :
  forall (transport : string -> option JSON -> MCPClient.Settlement)
         (request : ToolExecutionRequest) (b : Bridge),
    let b' := fst (executeToolCall generateResponse transport request b) in
    toolCache b' = toolCache b /\
    usageExamples b' = usageExamples b /\
    trainingData b' = trainingData b /\
    (length (prompts b') <= S (length (prompts b)))%nat /\
    exists params,
      toolCalls b' = toolCalls b ++ [(toolName request, params)] /\
      (cache_get (toolName request) (toolCache b) = None ->
       params = parameters request /\ prompts b' = prompts b) /\
      forall payload,
        MCPClient.callTool_result (transport (toolName request) params) = Ok payload ->
        snd (executeToolCall generateResponse transport request b)
        = Ok {| success := negb (truthy (MCPClient.isError payload));
                result := Some payload;
                error := None;
                suggestions := Some (generateSuggestions request b) |}.
Proof.
  intros transport request b. cbv zeta.
  pose proof (executeToolCall_data generateResponse transport request b) as Hd.
  unfold executeToolCall in *.
  destruct (optimizeToolRequest_caches generateResponse request b)
    as (H1 & H2 & H3 & H4 & _ & _ & H7 & H8).
  destruct (optimizeToolRequest generateResponse request b) as [b1 opt].
  simpl in H1, H2, H3, H4, H7, H8.
  assert (toolCache
            (with_toolCalls (toolCalls b1 ++ [(toolName opt, parameters opt)]) b1)
          = toolCache b) as Hc by exact H1.
  assert (forall bb, toolCache bb = toolCache b ->
            generateSuggestions request bb = generateSuggestions request b) as Hs
    by (intros bb Hbb; unfold generateSuggestions; rewrite Hbb; reflexivity).
  destruct (MCPClient.callTool_result (transport (toolName opt) (parameters opt)))
    as [res|err] eqn:Er; simpl in *.
  - split; [exact H1|]. split; [exact H2|]. split; [exact Hd|]. split; [exact H7|].
    exists (parameters opt). rewrite H3, H4. split; [reflexivity|]. split.
    + intros Hnone. specialize (H8 Hnone). inversion H8; subst. auto.
    + intros payload Hp. rewrite <- H4, Er in Hp. inversion Hp; subst.
      unfold succeeded. do 3 f_equal. apply Hs. exact H1.
  - split; [exact H1|]. split; [exact H2|]. split; [exact Hd|]. split; [exact H7|].
    exists (parameters opt). rewrite H3, H4. split; [reflexivity|]. split.
    + intros Hnone. specialize (H8 Hnone). inversion H8; subst. auto.
    + intros payload Hp. rewrite <- H4, Er in Hp. discriminate.
Qed.

End Listing.

(** ** Usage information and the front surface *)

Section UsageInfo.
Import ModelBridge BridgeSpec Registry SimplifiedMCPServer.

Variable generateResponse : nat -> Prompt -> Result string.

Lemma or_else_truthy a d : truthy d = true -> truthy (or_else a d) = true.
Proof. unfold or_else. destruct (truthy a) eqn:E; auto. Qed.

Lemma usage_of_response_truthy tool text info :
  usage_of_response tool text = Ok info ->
  truthy (examples info) = true /\ truthy (relatedTools info) = true /\
  truthy (category info) = true.
Proof.
  unfold usage_of_response.
  destruct (parse text) as [parsed|]; [|discriminate].
  destruct (get (Some parsed) "examples"); [|discriminate].
  destruct (get (Some parsed) "relatedTools"); [|discriminate].
  destruct (get (Some parsed) "category"); [|discriminate].
  intros H. inversion H; subst. simpl.
  repeat split; apply or_else_truthy; reflexivity.
Qed.

(** X18. [generateToolUsageInfo] asks the model once and fails only when
    the model itself throws. Whatever text the model answers, usage
    information comes back: it carries the name, the description and the
    schema of the tool, and its examples, related tools and category are
    never missing or falsy; when the text is no JSON, or is the JSON [null],
    it is the fallback: no examples, no related tools, category
    "Utility". *)
Theorem usage_info_survives_any_model_text :
  forall (tool : MCPTool) (b : Bridge),
    let prompt := UsagePrompt (name tool) (description tool) (inputSchema tool) in
    let answer := generateResponse (length (prompts b)) prompt in
    prompts (fst (generateToolUsageInfo generateResponse tool b))
    = prompts b ++ [prompt] /\
    (forall e, answer = Throw e ->
       snd (generateToolUsageInfo generateResponse tool b) = Throw e) /\
    (forall text, answer = Ok text ->
       exists info,
         snd (generateToolUsageInfo generateResponse tool b) = Ok info /\
         usage_name info = name tool /\
         usage_description info = description tool /\
         usage_inputSchema info = inputSchema tool /\
         truthy (examples info) = true /\
         truthy (relatedTools info) = true /\
         truthy (category info) = true /\
         ((exists e, parse text = Throw e) \/ parse text = Ok JNull ->
          info = fallback_usage tool)).
Proof.
  intros tool b prompt answer. subst prompt answer.
  unfold generateToolUsageInfo, ask. cbv zeta.
  destruct (generateResponse _ _) as [text|e]; simpl.
  - split; [destruct (usage_of_response tool text); reflexivity|].
    split; [discriminate|]. intros text' Ht. inversion Ht; subst text'.
    destruct (usage_of_response tool text) as [info|err] eqn:E; simpl.
    + exists info. split; [reflexivity|].
      destruct (usage_of_response_fields _ _ _ E) as (H1 & H2 & H3).
      destruct (usage_of_response_truthy _ _ _ E) as (H4 & H5 & H6).
      repeat (split; [assumption|]).
      unfold usage_of_response in E.
      intros [[e He]|He]; rewrite He in E; simpl in E; discriminate.
    + exists (fallback_usage tool). repeat split.
  - split; [reflexivity|]. split; [intros e' He; inversion He; reflexivity|].
    discriminate.
Qed.

(** X19. When [initialize] returns, the connection was made and the
    listing was read; the tool cache is that listing, and usage information
    is memoized for every tool in it. Usage information memoized before is
    kept as it was. *)
Theorem initialize_memoizes_every_listed_tool :
  forall (connected : Result unit) (listed : Result (list MCPTool))
         (b b' : Bridge),
    initialize generateResponse connected listed b = (b', Ok tt) ->
    connected = Ok tt /\
    (exists tools,
       listed = Ok tools /\
       toolCache b' = toolCache (fst (cacheAvailableTools (Ok tools) b))) /\
    (forall k tool, cache_get k (toolCache b') = Some tool ->
       exists u, usageExamples b' !! k = Some u) /\
    (forall k u, usageExamples b !! k = Some u -> usageExamples b' !! k = Some u).
Proof.
  intros connected listed b b' H. unfold initialize in H.
  destruct connected as [[]|e]; [|discriminate].
  split; [reflexivity|].
  destruct listed as [tools|e]; simpl in H; [|discriminate].
  unfold generateToolUsageExamples in H.
  match type of H with
  | generateToolUsageExamples_loop _ ?entries ?b1 = _ =>
      destruct (generateToolUsageExamples_loop_caches generateResponse entries b1)
        as (G1 & G2 & _ & G4)
  end.
  cbv zeta in *. rewrite H in *. simpl in *.
  split; [exists tools; split; [reflexivity|exact G1]|].
  split.
  - intros k tool Hg. apply cache_get_In in Hg. rewrite G1 in Hg.
    exact (G4 eq_refl k tool Hg).
  - exact G2.
Qed.

(** X20. [what_tools] with a search term alone. The handler returns the
    tools of the cache, in cache order, whose name or description contains
    the term, ignoring case; [totalCount] is their number and the summary
    says so; the categories it reports are those of all the tools of the
    cache, not only of the ones returned. *)
Theorem what_tools_search_matches_name_or_description :
  forall (term : string) (listed : Result (list MCPTool))
         (b b' : Bridge) (r : WhatToolsResponse),
    JSText.truthy term = true ->
    what_tools {| arg_category := None; arg_search := Some term |} listed b
    = (b', Ok r) ->
    (forall tool,
       In tool (response_tools r)
       <-> In tool (cache_values (toolCache b')) /\
           (contains_ignoring_case (name tool) term \/
            contains_ignoring_case (description tool) term)) /\
    (exists keep, response_tools r = List.filter keep (cache_values (toolCache b'))) /\
    response_totalCount r = length (response_tools r) /\
    response_categories r = Some (categorizeTools (cache_values (toolCache b'))) /\
    summary r = "Found " +:+ JSText.decimal (Z.of_nat (length (response_tools r)))
                +:+ " tools matching " +:+ quoted term.
Proof.
  intros term listed b b' r Ht H. unfold what_tools in H.
  assert (forall b1 d, discoverTools listed b = (b1, Ok d) ->
            tools d = cache_values (toolCache b1) /\
            categories d = Some (categorizeTools (cache_values (toolCache b1))))
    as Hd.
  { unfold discoverTools. intros b1 d Hx.
    destruct (match toolCache b with
              | [] => cacheAvailableTools listed b
              | _ :: _ => (b, Ok tt)
              end) as [b2 [[]|e]]; [|discriminate].
    inversion Hx; subst. auto. }
  destruct (discoverTools listed b) as [b1 [d|e]]; [|discriminate].
  destruct (Hd b1 d eq_refl) as [Htools Hcats].
  inversion H; subst b' r; clear H. simpl.
  split.
  - intros tool. rewrite <- Htools.
    apply (search_filter_ignores_case term d tool Ht).
  - split.
    + unfold filter_tools, given. simpl. rewrite Ht, Htools. eauto.
    + split; [reflexivity|]. split; [exact Hcats|].
      unfold given. simpl. rewrite Ht. reflexivity.
Qed.

(** X21. [useTool] never throws and always records its call: it returns
    what [executeToolCall] returns for the request whose intent is the
    context, and, whether that result is a success or a failure, appends
    one record holding that same result, the tool name and the parameters
    as the caller gave them (not as they were optimized), and for intent
    the context, or "Execute <tool>" when there is none or it is empty.
    Neither cache is touched. *)
Theorem useTool_records_what_it_returns :
  forall (transport : string -> option JSON -> MCPClient.Settlement)
         (tool : string) (params : option JSON) (ctx : option string)
         (now : Z) (b : Bridge),
    let request :=
      {| toolName := tool; parameters := params;
         context := ctx; userIntent := ctx |} in
    let b' := fst (useTool generateResponse transport tool params ctx now b) in
    exists r,
      snd (useTool generateResponse transport tool params ctx now b) = Ok r /\
      snd (executeToolCall generateResponse transport request b) = Ok r /\
      trainingData b'
      = slice_last 1000
          (trainingData b ++
           [{| training_userIntent :=
                 match given ctx with
                 | Some intent => intent
                 | None => "Execute " +:+ tool
                 end;
               toolCall := {| toolName := tool; parameters := params;
                              context := ctx; userIntent := None |};
               training_result := r;
               feedback := neutral;
               timestamp := now |}]) /\
      toolCache b' = toolCache b /\
      usageExamples b' = usageExamples b.
Proof.
  intros transport tool params ctx now b request b'. subst b'.
  unfold useTool. fold request.
  pose proof (executeToolCall_data generateResponse transport request b) as Hd.
  destruct (executeToolCall_caches generateResponse transport request b)
    as [Hc Hu].
  destruct (executeToolCall_returns generateResponse transport request b)
    as [res Hr].
  destruct (executeToolCall generateResponse transport request b) as [b1 out].
  simpl in Hd, Hc, Hu, Hr. subst out. cbv beta iota delta [fst snd].
  exists res. split; [reflexivity|]. split; [reflexivity|].
  split; [|split; [exact Hc|exact Hu]].
  rewrite trainOnInteraction_data, Hd. reflexivity.
Qed.

End UsageInfo.

(** A listing in which [echo] comes twice: the second [echo] is the one
    cached, in the place of the first. *)
Lemma listing_replaces_witness :
  List.NoDup (map ModelBridge.name [BridgeFixtures.search_tool; BridgeFixtures.echo_tool]) /\
  ModelBridge.cache_values
    (ModelBridge.toolCache
       (fst (ModelBridge.cacheAvailableTools
               (Ok [BridgeFixtures.search_tool; BridgeFixtures.echo_tool])
               BridgeFixtures.practised_bridge)))
  = [BridgeFixtures.search_tool; BridgeFixtures.echo_tool] /\
  ModelBridge.cache_values
    (ModelBridge.toolCache
       (fst (ModelBridge.cacheAvailableTools (Ok Registry.repeated_listing)
               ModelBridge.create)))
  = [Registry.echo_again; BridgeFixtures.search_tool].
Proof.
  assert (List.NoDup (map ModelBridge.name
                        [BridgeFixtures.search_tool; BridgeFixtures.echo_tool]))
    as Hn.
  { simpl. constructor; [intros [H|[]]; discriminate|].
    constructor; [intros []|constructor]. }
  split; [exact Hn|]. split; [|vm_compute; reflexivity].
  exact (proj1 (proj2 (listing_replaces_the_tool_cache
                         [BridgeFixtures.search_tool; BridgeFixtures.echo_tool]
                         BridgeFixtures.practised_bridge)) Hn).
Defined.


(** A model that answers in prose: the usage information of [echo] is the
    fallback. *)
Lemma usage_info_witness :
  BridgeFixtures.chatty_model
    (length (ModelBridge.prompts ModelBridge.create))
    (ModelBridge.UsagePrompt (ModelBridge.name BridgeFixtures.echo_tool)
       (ModelBridge.description BridgeFixtures.echo_tool)
       (ModelBridge.inputSchema BridgeFixtures.echo_tool))
  = Ok "Sure, here are the parameters you asked for." /\
  snd (ModelBridge.generateToolUsageInfo BridgeFixtures.chatty_model
         BridgeFixtures.echo_tool ModelBridge.create)
  = Ok (ModelBridge.fallback_usage BridgeFixtures.echo_tool).
Proof.
  assert (BridgeFixtures.chatty_model
            (length (ModelBridge.prompts ModelBridge.create))
            (ModelBridge.UsagePrompt (ModelBridge.name BridgeFixtures.echo_tool)
               (ModelBridge.description BridgeFixtures.echo_tool)
               (ModelBridge.inputSchema BridgeFixtures.echo_tool))
          = Ok "Sure, here are the parameters you asked for.") as Ha
    by reflexivity.
  split; [exact Ha|].
  destruct (proj2 (proj2 (usage_info_survives_any_model_text
                            BridgeFixtures.chatty_model BridgeFixtures.echo_tool
                            ModelBridge.create)) _ Ha)
    as (info & Hi & _ & _ & _ & _ & _ & _ & Hf).
  rewrite Hi. f_equal. apply Hf. left.
  exists (SyntaxError "Unexpected token or end of JSON input").
  vm_compute. reflexivity.
Defined.

(** [initialize] with two tools listed: both get their usage information. *)
Lemma initialize_witness :
  ModelBridge.initialize ModelBridge.createModelProvider (Ok tt)
    BridgeFixtures.two_tools ModelBridge.create
  = (fst (ModelBridge.initialize ModelBridge.createModelProvider (Ok tt)
            BridgeFixtures.two_tools ModelBridge.create), Ok tt) /\
  (exists u,
     ModelBridge.usageExamples
       (fst (ModelBridge.initialize ModelBridge.createModelProvider (Ok tt)
               BridgeFixtures.two_tools ModelBridge.create)) !! "echo" = Some u) /\
  (exists u,
     ModelBridge.usageExamples
       (fst (ModelBridge.initialize ModelBridge.createModelProvider (Ok tt)
               BridgeFixtures.two_tools ModelBridge.create)) !! "search_docs"
     = Some u).
Proof.
  assert (ModelBridge.initialize ModelBridge.createModelProvider (Ok tt)
            BridgeFixtures.two_tools ModelBridge.create
          = (fst (ModelBridge.initialize ModelBridge.createModelProvider (Ok tt)
                    BridgeFixtures.two_tools ModelBridge.create), Ok tt)) as Hi
    by (vm_compute; reflexivity).
  destruct (initialize_memoizes_every_listed_tool ModelBridge.createModelProvider
              _ _ _ _ Hi) as (_ & _ & Hm & _).
  split; [exact Hi|]. split.
  - apply (Hm "echo" BridgeFixtures.echo_tool). vm_compute. reflexivity.
  - apply (Hm "search_docs" BridgeFixtures.search_tool). vm_compute. reflexivity.
Defined.

(** Searching for "ECHO" among [search_docs] and [echo] finds [echo]. *)
Lemma what_tools_search_witness :
  JSText.truthy "ECHO" = true /\
  snd (SimplifiedMCPServer.what_tools
         {| SimplifiedMCPServer.arg_category := None;
            SimplifiedMCPServer.arg_search := Some "ECHO" |}
         BridgeFixtures.two_tools ModelBridge.create)
  = Ok {| SimplifiedMCPServer.response_tools := [BridgeFixtures.echo_tool];
          SimplifiedMCPServer.response_totalCount := 1;
          SimplifiedMCPServer.response_categories := Some ["Search"; "Utility"];
          SimplifiedMCPServer.summary :=
            "Found 1 tools matching " +:+ SimplifiedMCPServer.quoted "ECHO" |} /\
  BridgeSpec.contains_ignoring_case (ModelBridge.name BridgeFixtures.echo_tool) "ECHO".
Proof.
  assert (JSText.truthy "ECHO" = true) as Ht by reflexivity.
  assert (SimplifiedMCPServer.what_tools
            {| SimplifiedMCPServer.arg_category := None;
               SimplifiedMCPServer.arg_search := Some "ECHO" |}
            BridgeFixtures.two_tools ModelBridge.create
          = (fst (SimplifiedMCPServer.what_tools
                    {| SimplifiedMCPServer.arg_category := None;
                       SimplifiedMCPServer.arg_search := Some "ECHO" |}
                    BridgeFixtures.two_tools ModelBridge.create),
             Ok {| SimplifiedMCPServer.response_tools := [BridgeFixtures.echo_tool];
                   SimplifiedMCPServer.response_totalCount := 1;
                   SimplifiedMCPServer.response_categories :=
                     Some ["Search"; "Utility"];
                   SimplifiedMCPServer.summary :=
                     "Found 1 tools matching "
                     +:+ SimplifiedMCPServer.quoted "ECHO" |})) as Hw
    by (vm_compute; reflexivity).
  split; [exact Ht|]. split; [rewrite Hw; reflexivity|].
  destruct (what_tools_search_matches_name_or_description "ECHO" _ _ _ _ Ht Hw)
    as (Hin & _).
  destruct (proj1 (Hin BridgeFixtures.echo_tool) (or_introl eq_refl))
    as [_ [Hc|Hc]]; [exact Hc|].
  exists "", "echo", "". split; reflexivity.
Defined.

(** ** A response settles its request for good *)

Section Answered.
Import MCPClient Timeout.





End Answered.


(** ** What a response says *)

Section Replies.
Import MCPClient.

(** X24. How a response is read. The [error] member decides alone: when
    it is missing or falsy ([null], [false], [0], the empty string) the
    request is resolved with the [result] member, whatever that is, be it
    missing; when it is truthy the request is rejected with an [Error]
    whose message is the [message] of the error if that is a string that
    is not empty, and "Unknown error" when the error has no [message] or a
    falsy one, or is no object. *)
Theorem error_member_decides_the_reply :
  forall props : list (string * JSON),
    let err := assoc "error" props in
    (truthy err = false ->
     reply (JObj props) = Ok (Resolved (assoc "result" props))) /\
    (truthy err = true ->
     exists text,
       reply (JObj props) = Ok (Rejected (Error text)) /\
       (forall eprops said,
          err = Some (JObj eprops) ->
          assoc "message" eprops = Some (JStr said) -> said <> "" ->
          text = said) /\
       (forall eprops,
          err = Some (JObj eprops) -> truthy (assoc "message" eprops) = false ->
          text = "Unknown error") /\
       ((forall eprops, err <> Some (JObj eprops)) -> text = "Unknown error")).
Proof.
  intros props err. subst err. unfold reply. simpl.
  destruct (assoc "error" props) as [e|] eqn:Ee.
  - destruct (truthy (Some e)) eqn:Et.
    + split; [discriminate|]. intros _.
      destruct e as [|b|m ex|str|items|eprops]; simpl in *; try discriminate;
        try (exists "Unknown error"; split; [reflexivity|];
             split; [intros ? ? H; discriminate|];
             split; [intros ? H; discriminate|reflexivity]).
      unfold or_else.
      destruct (assoc "message" eprops) as [m|] eqn:Em.
      * destruct (truthy (Some m)) eqn:Etm.
        -- exists (ToString m). split; [reflexivity|]. split; [|split].
           ++ intros eprops' said He Hm _. inversion He; subst eprops'.
              rewrite Em in Hm. inversion Hm; reflexivity.
           ++ intros eprops' He Hf. inversion He; subst eprops'.
              rewrite Em in Hf. change (truthy (Some m) = false) in Hf.
              congruence.
           ++ intros Hno. exfalso. exact (Hno eprops eq_refl).
        -- exists "Unknown error". split; [reflexivity|]. split; [|split].
           ++ intros eprops' said He Hm Hne. inversion He; subst eprops'.
              rewrite Em in Hm. inversion Hm; subst. simpl in Etm.
              destruct said; [contradiction|discriminate].
           ++ reflexivity.
           ++ reflexivity.
      * simpl. exists "Unknown error". split; [reflexivity|]. split; [|split].
        -- intros eprops' said He Hm. inversion He; subst eprops'.
           rewrite Em in Hm. discriminate.
        -- reflexivity.
        -- reflexivity.
    + split; [reflexivity|discriminate].
  - simpl. split; [reflexivity|discriminate].
Qed.

End Replies.

(** ** Memoized usage information *)

Section Memo.
Import ModelBridge BridgeSpec Registry.

Variable generateResponse : nat -> Prompt -> Result string.

Lemma getToolUsage_memo toolName b k u :
  usageExamples b !! k = Some u ->
  usageExamples (fst (getToolUsage generateResponse toolName b)) !! k = Some u.
Proof.
  intros H. unfold getToolUsage.
  destruct (usageExamples b !! toolName) eqn:Eu; [exact H|].
  destruct (cache_get toolName (toolCache b)) as [tool|]; [|exact H].
  destruct (generateToolUsageInfo_caches generateResponse tool b) as (_ & H2 & _).
  destruct (generateToolUsageInfo generateResponse tool b) as [b1 [info|e]];
    simpl in *.
  - destruct (decide (toolName = k)) as [<-|Hne]; [congruence|].
    rewrite lookup_insert_ne by assumption. rewrite H2. exact H.
  - rewrite H2. exact H.
Qed.

Lemma perform_memo b op k u :
  usageExamples b !! k = Some u ->
  usageExamples (perform generateResponse b op) !! k = Some u.
Proof.
  intros H. destruct op as [connected listed|listed|toolName|transport request|i];
    simpl.
  - unfold initialize. destruct connected as [[]|e]; [|exact H].
    destruct listed as [tools|e]; simpl; [|exact H].
    unfold generateToolUsageExamples.
    match goal with
    | |- context [generateToolUsageExamples_loop _ ?entries ?b1] =>
        destruct (generateToolUsageExamples_loop_caches generateResponse entries b1)
          as (_ & G2 & _)
    end.
    apply G2. exact H.
  - unfold discoverTools. destruct (toolCache b); [|exact H].
    destruct listed as [tools|e]; exact H.
  - apply getToolUsage_memo, H.
  - rewrite (proj2 (executeToolCall_caches generateResponse transport request b)).
    exact H.
  - exact H.
Qed.

(** X23. Usage information, once memoized for a name, is there for good:
    whatever is done to the bridge afterwards, a new listing that no longer
    has the tool and a new [initialize] included, the entry stays as it is,
    and [getToolUsage] returns it for that name without asking the model
    and without changing the bridge. *)
Theorem memoized_usage_is_never_replaced :
  forall (ops : list Op) (b : Bridge) (k : string) (u : ToolUsageInfo),
    usageExamples b !! k = Some u ->
    usageExamples (perform_all generateResponse ops b) !! k = Some u /\
    getToolUsage generateResponse k (perform_all generateResponse ops b)
    = (perform_all generateResponse ops b, Ok u).
Proof.
  intros ops b k u H.
  assert (usageExamples (perform_all generateResponse ops b) !! k = Some u) as Hm.
  { revert b H. induction ops as [|op ops IH]; intros b H; simpl; [exact H|].
    apply IH, perform_memo, H. }
  split; [exact Hm|]. unfold getToolUsage. rewrite Hm. reflexivity.
Qed.

End Memo.

(** The usage information of [echo], memoized by the first [initialize] of
    the rediscovered bridge, outlives a listing without [echo]. *)
Lemma memoized_usage_witness :
  ModelBridge.usageExamples
    (fst (ModelBridge.initialize ModelBridge.createModelProvider (Ok tt)
            (Ok [BridgeFixtures.echo_tool]) ModelBridge.create)) !! "echo"
  = Some (ModelBridge.fallback_usage BridgeFixtures.echo_tool) /\
  ModelBridge.usageExamples
    (BridgeSpec.perform_all ModelBridge.createModelProvider
       [BridgeSpec.OpInitialize (Ok tt) (Ok [BridgeFixtures.search_tool])]
       (fst (ModelBridge.initialize ModelBridge.createModelProvider (Ok tt)
               (Ok [BridgeFixtures.echo_tool]) ModelBridge.create))) !! "echo"
  = Some (ModelBridge.fallback_usage BridgeFixtures.echo_tool).
Proof.
  assert (ModelBridge.usageExamples
            (fst (ModelBridge.initialize ModelBridge.createModelProvider (Ok tt)
                    (Ok [BridgeFixtures.echo_tool]) ModelBridge.create)) !! "echo"
          = Some (ModelBridge.fallback_usage BridgeFixtures.echo_tool)) as H
    by (vm_compute; reflexivity).
  split; [exact H|].
  exact (proj1 (memoized_usage_is_never_replaced ModelBridge.createModelProvider
                  [BridgeSpec.OpInitialize (Ok tt) (Ok [BridgeFixtures.search_tool])]
                  _ "echo" _ H)).
Defined.

(** After [initialize] with [search_docs] and [echo], discovery lists the
    two names, each once. *)
Lemma caches_are_keyed_witness :
  snd (ModelBridge.discoverTools BridgeFixtures.two_tools
         (BridgeSpec.perform_all ModelBridge.createModelProvider
            [BridgeSpec.OpInitialize (Ok tt) BridgeFixtures.two_tools]
            ModelBridge.create))
  = Ok {| ModelBridge.tools := [BridgeFixtures.search_tool; BridgeFixtures.echo_tool];
          ModelBridge.totalCount := 2;
          ModelBridge.categories := Some ["Search"; "Utility"] |} /\
  List.NoDup (map ModelBridge.name
                [BridgeFixtures.search_tool; BridgeFixtures.echo_tool]).
Proof.
  assert (snd (ModelBridge.discoverTools BridgeFixtures.two_tools
                 (BridgeSpec.perform_all ModelBridge.createModelProvider
                    [BridgeSpec.OpInitialize (Ok tt) BridgeFixtures.two_tools]
                    ModelBridge.create))
          = Ok {| ModelBridge.tools :=
                    [BridgeFixtures.search_tool; BridgeFixtures.echo_tool];
                  ModelBridge.totalCount := 2;
                  ModelBridge.categories := Some ["Search"; "Utility"] |}) as H
    by (vm_compute; reflexivity).
  split; [exact H|].
  pose proof (caches_are_keyed_by_tool_name ModelBridge.createModelProvider
                [BridgeSpec.OpInitialize (Ok tt) BridgeFixtures.two_tools]
                BridgeFixtures.two_tools) as Hk.
  cbv zeta in Hk. destruct Hk as (_ & _ & _ & Hd).
  exact (proj1 (Hd _ H)).
Defined.

(** On the practised bridge a call of [echo] that goes through: the result
    is a success with the payload of the transport. *)
Lemma execute_calls_witness :
  MCPClient.callTool_result
    (Registry.echoing_transport "echo" (Some (JObj [("message", JStr "hi")])))
  = Ok {| MCPClient.content :=
            Some (JArr [JObj [("type", JStr "text"); ("text", JStr "Echo: hi")]]);
          MCPClient.isError := Some (JBool false) |} /\
  ModelBridge.success
    match snd (ModelBridge.executeToolCall BridgeFixtures.chatty_model
                 Registry.echoing_transport BridgeFixtures.echo_request
                 BridgeFixtures.practised_bridge) with
    | Ok r => r
    | Throw _ => BridgeFixtures.echo_result
    end = true /\
  ModelBridge.toolCalls
    (fst (ModelBridge.executeToolCall BridgeFixtures.chatty_model
            Registry.echoing_transport BridgeFixtures.echo_request
            BridgeFixtures.practised_bridge))
  = [("echo", Some (JObj [("message", JStr "hi")]))].
Proof.
  assert (MCPClient.callTool_result
            (Registry.echoing_transport "echo" (Some (JObj [("message", JStr "hi")])))
          = Ok {| MCPClient.content :=
                    Some (JArr [JObj [("type", JStr "text");
                                      ("text", JStr "Echo: hi")]]);
                  MCPClient.isError := Some (JBool false) |}) as Hc
    by (vm_compute; reflexivity).
  split; [exact Hc|].
  pose proof (execute_calls_the_named_tool_once BridgeFixtures.chatty_model
                Registry.echoing_transport BridgeFixtures.echo_request
                BridgeFixtures.practised_bridge) as H.
  cbv zeta in H. destruct H as (_ & _ & _ & _ & params & Hcalls & _ & Hok).
  rewrite (Hok _ Hc). split; [reflexivity|].
  vm_compute. reflexivity.
Defined.

(** The error response of the fixtures rejects with its message; the same
    response with [null] for [error] resolves. *)
Lemma error_member_witness :
  truthy (assoc "error"
            [("jsonrpc", JStr "2.0"); ("id", JNum 2 0);
             ("error", JObj [("code", JNum (-32601) 0);
                             ("message", JStr "Unknown tool")])]) = true /\
  MCPClient.reply BridgeFixtures.unknown_tool_response
  = Ok (MCPClient.Rejected (Error "Unknown tool")) /\
  truthy (assoc "error" [("id", JNum 2 0); ("error", JNull)]) = false /\
  MCPClient.reply (JObj [("id", JNum 2 0); ("error", JNull)])
  = Ok (MCPClient.Resolved None).
Proof.
  assert (truthy (assoc "error"
                    [("jsonrpc", JStr "2.0"); ("id", JNum 2 0);
                     ("error", JObj [("code", JNum (-32601) 0);
                                     ("message", JStr "Unknown tool")])]) = true)
    as H1 by reflexivity.
  assert (truthy (assoc "error" [("id", JNum 2 0); ("error", JNull)]) = false)
    as H2 by reflexivity.
  split; [exact H1|]. split; [|split; [exact H2|]].
  - destruct (proj2 (error_member_decides_the_reply
                       [("jsonrpc", JStr "2.0"); ("id", JNum 2 0);
                        ("error", JObj [("code", JNum (-32601) 0);
                                        ("message", JStr "Unknown tool")])]) H1)
      as (text & Hr & Hm & _).
    unfold BridgeFixtures.unknown_tool_response. rewrite Hr.
    rewrite (Hm [("code", JNum (-32601) 0); ("message", JStr "Unknown tool")]
                "Unknown tool" eq_refl eq_refl) by discriminate.
    reflexivity.
  - exact (proj1 (error_member_decides_the_reply
                    [("id", JNum 2 0); ("error", JNull)]) H2).
Defined.

(** ** A handshake that is never answered *)

Section HandshakeTimeout.
Import MCPClient Timeout Table.

Variables (k : Z) (ip cp : promise) (d : Z).














End HandshakeTimeout.

Section ConnectTimeout.
Import MCPClient Timeout Table.


End ConnectTimeout.


(** ** The model provider of the code *)

Section MockProvider.
Import ModelBridge BridgeSpec Registry.

(** X26. With the model provider the bridge creates for itself, which
    answers every prompt with the same JSON text: the usage information of
    every tool is the fallback one (no examples, no related tools, category
    "Utility"); and for every request whose tool is in the cache, the
    parameters of the caller are replaced by the object of that answer, so
    the tool is called with [{examples: [], relatedTools: [], category:
    'Utility'}] for arguments, whatever the caller passed. A request for a
    tool that is not in the cache goes out with the parameters of the
    caller. *)
Theorem mock_provider_replaces_the_parameters :
  forall (transport : string -> option JSON -> MCPClient.Settlement)
         (request : ToolExecutionRequest) (tool : MCPTool) (b : Bridge),
    snd (generateToolUsageInfo createModelProvider tool b) = Ok (fallback_usage tool) /\
    (cache_get (toolName request) (toolCache b) <> None ->
     snd (optimizeToolRequest createModelProvider request b)
     = with_parameters (Some mock_answer) request /\
     toolCalls (fst (executeToolCall createModelProvider transport request b))
     = toolCalls b ++ [(toolName request, Some mock_answer)]) /\
    (cache_get (toolName request) (toolCache b) = None ->
     toolCalls (fst (executeToolCall createModelProvider transport request b))
     = toolCalls b ++ [(toolName request, parameters request)]).
Proof.
  intros transport request tool b.
  assert (parse (JSText.wire "{'examples':[],'relatedTools':[],'category':'Utility'}")
          = Ok mock_answer) as Hparse by (vm_compute; reflexivity).
  split; [|split].
  - unfold generateToolUsageInfo, ask, createModelProvider. cbv zeta.
    unfold usage_of_response. rewrite Hparse. reflexivity.
  - intros Hsome.
    assert (optimizeToolRequest createModelProvider request b
            = (fst (optimizeToolRequest createModelProvider request b),
               with_parameters (Some mock_answer) request) /\
            toolCalls (fst (optimizeToolRequest createModelProvider request b))
            = toolCalls b) as [Hopt Hcalls].
    { unfold optimizeToolRequest, ask, createModelProvider.
      destruct (cache_get (toolName request) (toolCache b)) as [t|];
        [|contradiction].
      cbv zeta. rewrite Hparse. split; reflexivity. }
    split; [rewrite Hopt; reflexivity|].
    unfold executeToolCall. rewrite Hopt.
    destruct (MCPClient.callTool_result _); simpl; rewrite Hcalls; reflexivity.
  - intros Hnone. unfold executeToolCall, optimizeToolRequest. rewrite Hnone.
    destruct (MCPClient.callTool_result _); reflexivity.
Qed.

End MockProvider.

(** The practised bridge with the provider of the code: [echo] is called
    with the object of the answer, not with the message of the caller. *)
Lemma mock_provider_witness :
  ModelBridge.cache_get (ModelBridge.toolName BridgeFixtures.echo_request)
    (ModelBridge.toolCache BridgeFixtures.practised_bridge) <> None /\
  ModelBridge.parameters BridgeFixtures.echo_request
  = Some (JObj [("message", JStr "hi")]) /\
  ModelBridge.toolCalls
    (fst (ModelBridge.executeToolCall ModelBridge.createModelProvider
            Registry.echoing_transport BridgeFixtures.echo_request
            BridgeFixtures.practised_bridge))
  = ModelBridge.toolCalls BridgeFixtures.practised_bridge
    ++ [("echo", Some (JObj [("examples", JArr []); ("relatedTools", JArr []);
                             ("category", JStr "Utility")]))].
Proof.
  assert (ModelBridge.cache_get (ModelBridge.toolName BridgeFixtures.echo_request)
            (ModelBridge.toolCache BridgeFixtures.practised_bridge) <> None) as H
    by (vm_compute; discriminate).
  split; [exact H|]. split; [reflexivity|].
  exact (proj2 (proj1 (proj2 (mock_provider_replaces_the_parameters
                                Registry.echoing_transport
                                BridgeFixtures.echo_request
                                BridgeFixtures.echo_tool
                                BridgeFixtures.practised_bridge)) H)).
Defined.
